(** * Verification of the repository's two checking scripts

    [scripts/check_agents_compliance.py] (class [AGENTSCompliance] and its
    [__main__] block) and [scripts/verify_playlist_integration.py]
    ([check_integration] and its helpers) are embedded as Rocq functions.

    - A Python [str] is a list of Unicode code points.
    - The part of Python's [re] syntax that the scripts use is interpreted
      by a small backtracking matcher with Python's greedy, leftmost
      semantics.
    - What the interpreter and the operating system provide (the Unicode
      tables outside ASCII, [ast.parse], the file system, the import
      system) is a parameter of the development: nothing is assumed about
      it.
    - Exceptions are values; a computation threads the mutable state it
      works on and yields either a value or a raised exception. *)

From Stdlib Require Import String Ascii DecimalString.
From Stdlib Require Import Bool Arith NArith ZArith Lia List.
Import ListNotations.

(* ===================================================================== *)
(** * Python strings                                                      *)
(* ===================================================================== *)

(** A code point. *)
Definition char := N.

(** A Python [str]. *)
Definition str := list char.

(** UTF-8 decoding of the bytes of a literal: [need] continuation bytes
    are still expected and [acc] holds the bits read so far. *)
Fixpoint utf8_decode (need : nat) (acc : N) (bytes : list N) : str :=
  match bytes with
  | [] => []
  | b :: bytes' =>
      match need with
      | O =>
          if (b <? 0x80)%N then b :: utf8_decode 0 0%N bytes'
          else if (b <? 0xE0)%N then utf8_decode 1 (b - 0xC0)%N bytes'
          else if (b <? 0xF0)%N then utf8_decode 2 (b - 0xE0)%N bytes'
          else utf8_decode 3 (b - 0xF0)%N bytes'
      | S O => (acc * 64 + (b - 0x80))%N :: utf8_decode 0 0%N bytes'
      | S n => utf8_decode n (acc * 64 + (b - 0x80))%N bytes'
      end
  end.

(** A string literal of the source as a [str]. *)
Definition lit (s : string) : str :=
  utf8_decode 0 0%N (map N_of_ascii (list_ascii_of_string s)).

Definition NL : char := 10%N.        (* the newline *)
Definition DQ : char := 34%N.        (* the double quote *)

Fixpoint str_eqb (a b : str) : bool :=
  match a, b with
  | [], [] => true
  | x :: a', y :: b' => N.eqb x y && str_eqb a' b'
  | _, _ => false
  end.

(** [s.startswith(p)] *)
Fixpoint startswith (p s : str) : bool :=
  match p, s with
  | [], _ => true
  | x :: p', y :: s' => N.eqb x y && startswith p' s'
  | _ :: _, [] => false
  end.

(** [needle in s] for strings *)
Fixpoint str_in (needle s : str) : bool :=
  startswith needle s ||
  match s with
  | [] => false
  | _ :: s' => str_in needle s'
  end.

(** [s.split(NL)]: always at least one piece. *)
Fixpoint split_lines (s : str) : list str :=
  match s with
  | [] => [[]]
  | c :: s' =>
      if N.eqb c NL then [] :: split_lines s'
      else match split_lines s' with
           | [] => [[c]]
           | l :: ls => (c :: l) :: ls
           end
  end.

(** [str(n)] for a non-negative integer. *)
Definition str_of_nat (n : nat) : str :=
  lit (NilEmpty.string_of_uint (Nat.to_uint n)).

(** [str(z)] for an integer. *)
Definition str_of_Z (z : Z) : str :=
  lit (NilEmpty.string_of_int (Z.to_int z)).

(* ===================================================================== *)
(** * Exceptions, results and stateful computations                       *)
(* ===================================================================== *)

(** The exception classes that the scripts' calls can raise.  The last
    two derive from [BaseException] only. *)
Inductive exn_class : Type :=
| ModuleNotFoundError | ImportError
| IndentationError | SyntaxError
| FileNotFoundError | PermissionError | OSError
| UnicodeDecodeError | ValueError
| TypeError | AttributeError | RecursionError | MemoryError | RuntimeError
| KeyboardInterrupt | SystemExit.

(** A raised exception: its class and [str(e)]. *)
Record exn : Type := mkExn { exn_cls : exn_class; exn_text : str }.

(** [isinstance(e, ImportError)] *)
Definition isinstance_ImportError (e : exn) : bool :=
  match exn_cls e with
  | ModuleNotFoundError | ImportError => true
  | _ => false
  end.

(** [isinstance(e, SyntaxError)] *)
Definition isinstance_SyntaxError (e : exn) : bool :=
  match exn_cls e with
  | IndentationError | SyntaxError => true
  | _ => false
  end.

(** [isinstance(e, Exception)] *)
Definition isinstance_Exception (e : exn) : bool :=
  match exn_cls e with
  | KeyboardInterrupt | SystemExit => false
  | _ => true
  end.

(** The outcome of a call: a value, or a raised exception. *)
Inductive result (A : Type) : Type :=
| Ret (a : A)
| Raise (e : exn).

Arguments Ret {A} a.
Arguments Raise {A} e.

(** A computation on a mutable state [S].  The state survives a raised
    exception: what was appended or printed before stays. *)
Definition M (S A : Type) : Type := S -> S * result A.

Definition ret {S A} (a : A) : M S A := fun s => (s, Ret a).

Definition raise {S A} (e : exn) : M S A := fun s => (s, Raise e).

Definition bind {S A B} (m : M S A) (k : A -> M S B) : M S B :=
  fun s =>
    match m s with
    | (s', Ret a) => k a s'
    | (s', Raise e) => (s', Raise e)
    end.

Declare Scope py_scope.
Delimit Scope py_scope with py.

Notation "x <- m ;; k" := (bind m (fun x => k))
  (at level 61, m at next level, right associativity) : py_scope.
Notation "m ;; k" := (bind m (fun _ => k))
  (at level 61, right associativity) : py_scope.

Local Open Scope py_scope.

(** [for x in xs: body(x)] *)
Fixpoint for_each {S A} (xs : list A) (body : A -> M S unit) : M S unit :=
  match xs with
  | [] => ret tt
  | x :: xs' => body x ;; for_each xs' body
  end.

(** The result of a call into the outside world. *)
Definition call {S A} (r : result A) : M S A := fun s => (s, r).

(** [try: body / except C as e: handler(e)], where [catches] tells
    whether an exception is an instance of [C]. *)
Definition try_except {S A} (body : M S A) (catches : exn -> bool)
           (handler : exn -> M S A) : M S A :=
  fun s =>
    match body s with
    | (s', Ret a) => (s', Ret a)
    | (s', Raise e) => if catches e then handler e s' else (s', Raise e)
    end.

(** A process: the object the script works on and its standard output,
    one entry per call of [print]. *)
Record proc (O : Type) : Type := mkProc { self : O; stdout : list str }.

Arguments mkProc {O} self stdout.
Arguments self {O} p.
Arguments stdout {O} p.

(** [print(s)] *)
Definition print {O} (s : str) : M (proc O) unit :=
  fun p => (mkProc (self p) (stdout p ++ [s]), Ret tt).

(** [c * n] for a one-character string *)
Definition str_mul (c : str) (n : nat) : str := concat (repeat c n).

(* ===================================================================== *)
(** * Paths, syntax trees and the outside world                           *)
(* ===================================================================== *)

(** A [pathlib.Path]: the anchor (empty or [/]) and the components. *)
Record Path : Type := mkPath { anchor : str; parts : list str }.

(** Pieces of [s] between occurrences of [sep]. *)
Fixpoint split_on (sep : char) (s : str) : list str :=
  match s with
  | [] => [[]]
  | c :: s' =>
      if N.eqb c sep then [] :: split_on sep s'
      else match split_on sep s' with
           | [] => [[c]]
           | l :: ls => (c :: l) :: ls
           end
  end.

Definition SLASH : char := 47%N.

(** [p / rel] for a relative [rel]: empty and [.] components vanish. *)
Definition path_div (p : Path) (rel : str) : Path :=
  mkPath (anchor p)
         (parts p ++
          filter (fun c => negb (str_eqb c []) && negb (str_eqb c (lit ".")))
                 (split_on SLASH rel)).

(** [sep.join(xs)] *)
Fixpoint join (sep : str) (xs : list str) : str :=
  match xs with
  | [] => []
  | [x] => x
  | x :: xs' => x ++ sep ++ join sep xs'
  end.

(** [str(p)] *)
Definition path_str (p : Path) : str :=
  match anchor p, parts p with
  | [], [] => lit "."
  | a, ps => a ++ join [SLASH] ps
  end.

(** [p.name] *)
Definition path_name (p : Path) : str := last (parts p) [].

(** The nodes of a syntax tree as far as the type-hints check looks at
    them. *)
Inductive expr : Type :=
| Name (id : str)
| OtherExpr.

Inductive node : Type :=
| FunctionDef (name : str) (returns : option expr)
              (decorator_list : list expr)
| AsyncFunctionDef (name : str) (returns : option expr)
                   (decorator_list : list expr)
| OtherNode.

(** A Python object, by identity. *)
Definition pyobj := N.

(** What the scripts ask of the file system and of the import system. *)
Record world : Type := mkWorld {
  (** [p.exists()] *)
  path_exists : Path -> bool;
  (** [p.read_text(encoding=utf-8)] *)
  read_text : Path -> result str;
  (** [with open(p) as f: f.read()] *)
  open_read : Path -> result str;
  (** [__import__(module, fromlist=names)] *)
  builtin_import : str -> list str -> result pyobj;
  (** [from module import name] *)
  import_from : str -> str -> result pyobj;
  (** [issubclass(a, b)] *)
  issubclass : pyobj -> pyobj -> result bool;
  (** [hasattr(o, name)] *)
  hasattr : pyobj -> str -> result bool
}.

Section Interpreter.

(** [str.isspace] and [str.isalnum] on one code point outside ASCII:
    tables of the interpreter's Unicode database. *)
Variable unicode_isspace : char -> bool.
Variable unicode_isalnum : char -> bool.

(** [ast.walk(ast.parse(content))]: the nodes of the tree, or the
    exception that [ast.parse] raises. *)
Variable ast_parse : str -> result (list node).

Definition in_range (lo hi c : char) : bool :=
  N.leb lo c && N.leb c hi.

(** ASCII white space: TAB, LF, VT, FF, CR, FS, GS, RS, US and SPACE. *)
Definition isspace (c : char) : bool :=
  if (c <? 128)%N then in_range 9%N 13%N c || in_range 28%N 32%N c
  else unicode_isspace c.

Definition isalnum (c : char) : bool :=
  if (c <? 128)%N
  then in_range 48%N 57%N c || in_range 65%N 90%N c || in_range 97%N 122%N c
  else unicode_isalnum c.

(** [\w] of [re] on a [str] pattern: alphanumeric or underscore. *)
Definition is_word (c : char) : bool :=
  isalnum c || N.eqb c 95%N.

Fixpoint lstrip (s : str) : str :=
  match s with
  | [] => []
  | c :: s' => if isspace c then lstrip s' else s
  end.

Definition rstrip (s : str) : str := rev (lstrip (rev s)).

(** [s.strip()] *)
Definition strip (s : str) : str := rstrip (lstrip s).

(* =================================================================== *)
(** * The fragment of [re] used by the scripts                          *)
(* =================================================================== *)

(** A set of characters: [.], [\s], a bracket expression given by its
    ranges, and a negated bracket expression. *)
Inductive cset : Type :=
| CAny
| CSpace
| CIn (ranges : list (char * char))
| CNotIn (ranges : list (char * char)).

Definition in_ranges (ranges : list (char * char)) (c : char) : bool :=
  existsb (fun r => in_range (fst r) (snd r) c) ranges.

Definition cset_mem (cs : cset) (c : char) : bool :=
  match cs with
  | CAny => negb (N.eqb c NL)
  | CSpace => isspace c
  | CIn ranges => in_ranges ranges c
  | CNotIn ranges => negb (in_ranges ranges c)
  end.

(** One element of a pattern.  The scripts quantify single characters
    and character sets only, and use their groups for nothing but the
    number of matches, so a pattern is a sequence of these. *)
Inductive item : Type :=
| ILit (c : char)            (* a literal character *)
| ISet (cs : cset)           (* one character of a set *)
| IStar (cs : cset)          (* greedy [X*] *)
| IPlus (cs : cset)          (* greedy [X+] *)
| IWordB                     (* [\b] *)
| IBol.                      (* [^] under [re.MULTILINE] *)

Definition regex := list item.

(** The literal characters of a piece of a pattern. *)
Definition rlit (s : string) : regex := map ILit (lit s).

(** [\b]: exactly one of the characters around the position is a word
    character; outside the string counts as a non-word character. *)
Definition word_boundary (prev : option char) (s : str) : bool :=
  xorb (match prev with Some c => is_word c | None => false end)
       (match s with c :: _ => is_word c | [] => false end).

(** [^] under MULTILINE: at the start, or just after a newline. *)
Definition at_bol (prev : option char) : bool :=
  match prev with
  | None => true
  | Some c => N.eqb c NL
  end.

(** Greedy [X*] followed by the rest of the pattern [k]: take one more
    character when possible, and fall back to the rest when the longer
    attempt fails.  The result is the number of characters matched. *)
Fixpoint match_star (cs : cset) (k : option char -> str -> option nat)
         (prev : option char) (s : str) : option nat :=
  match s with
  | c :: s' =>
      if cset_mem cs c then
        match match_star cs k (Some c) s' with
        | Some n => Some (S n)
        | None => k prev s
        end
      else k prev s
  | [] => k prev s
  end.

(** Match the pattern at the current position; [prev] is the character
    before it. *)
Fixpoint match_here (r : regex) (prev : option char) (s : str)
  : option nat :=
  match r with
  | [] => Some 0
  | ILit a :: r' =>
      match s with
      | c :: s' =>
          if N.eqb c a then option_map S (match_here r' (Some c) s')
          else None
      | [] => None
      end
  | ISet cs :: r' =>
      match s with
      | c :: s' =>
          if cset_mem cs c then option_map S (match_here r' (Some c) s')
          else None
      | [] => None
      end
  | IStar cs :: r' => match_star cs (match_here r') prev s
  | IPlus cs :: r' =>
      match s with
      | c :: s' =>
          if cset_mem cs c
          then option_map S (match_star cs (match_here r') (Some c) s')
          else None
      | [] => None
      end
  | IWordB :: r' =>
      if word_boundary prev s then match_here r' prev s else None
  | IBol :: r' =>
      if at_bol prev then match_here r' prev s else None
  end.

(** Scan for the leftmost position where the pattern matches. *)
Fixpoint search_from (r : regex) (prev : option char) (s : str) : bool :=
  match match_here r prev s with
  | Some _ => true
  | None =>
      match s with
      | [] => false
      | c :: s' => search_from r (Some c) s'
      end
  end.

(** [re.search(r, s)] as a truth value. *)
Definition re_search (r : regex) (s : str) : bool :=
  search_from r None s.

(** The non-overlapping matches from left to right.  [skip] counts the
    characters of the last match that are still to be passed.  After an
    empty match the scan moves on by one character; no pattern of the
    scripts matches the empty string. *)
Fixpoint findall_from (r : regex) (skip : nat) (prev : option char)
         (s : str) : list str :=
  match skip with
  | S k =>
      match s with
      | [] => []
      | c :: s' => findall_from r k (Some c) s'
      end
  | O =>
      match match_here r prev s with
      | Some n =>
          firstn n s ::
          match s with
          | [] => []
          | c :: s' => findall_from r (pred n) (Some c) s'
          end
      | None =>
          match s with
          | [] => []
          | c :: s' => findall_from r 0 (Some c) s'
          end
      end
  end.

(** [re.findall(r, s)]: one entry per match (the scripts look at the
    number of entries only, so the entry is the whole match). *)
Definition re_findall (r : regex) (s : str) : list str :=
  findall_from r 0 None s.

(* =================================================================== *)
(** * scripts/check_agents_compliance.py                                *)
(* =================================================================== *)

(** [(file, message, severity)], severity 1 = warning, 2 = error. *)
Definition issue : Type := (str * str * Z)%type.

Definition severity (i : issue) : Z := snd i.

(** The fields of an [AGENTSCompliance] instance. *)
Record AGENTSCompliance : Type := mkChecker {
  issues : list issue;
  passed : list str
}.

(** [AGENTSCompliance.__init__] *)
Definition __init__ : AGENTSCompliance := mkChecker [] [].

(** [self.issues.append(i)] *)
Definition issues_append (i : issue) : M (proc AGENTSCompliance) unit :=
  fun p =>
    (mkProc (mkChecker (issues (self p) ++ [i]) (passed (self p)))
            (stdout p),
     Ret tt).

(** [self.passed.append(m)] *)
Definition passed_append (m : str) : M (proc AGENTSCompliance) unit :=
  fun p =>
    (mkProc (mkChecker (issues (self p)) (passed (self p) ++ [m]))
            (stdout p),
     Ret tt).

(** The pattern [from typing import.*\bNAME\b]. *)
Definition deprecated_re (name : string) : regex :=
  rlit "from typing import" ++ [IStar CAny; IWordB] ++ rlit name
       ++ [IWordB].

Definition deprecated : list (regex * str) :=
  [ (deprecated_re "List", lit "List");
    (deprecated_re "Dict", lit "Dict");
    (deprecated_re "Set", lit "Set");
    (deprecated_re "Tuple", lit "Tuple");
    (deprecated_re "Optional", lit "Optional");
    (deprecated_re "Union", lit "Union") ].

Definition deprecated_msg (name : str) : str :=
  lit "❌ Deprecated: 'from typing import " ++ name
      ++ lit "' (use built-in)".

(** The loop of [_check_no_deprecated_typing]; its [return] leaves the
    method, so what follows the loop runs only when the loop ends. *)
Fixpoint deprecated_loop (filepath : Path) (content : str)
         (todo : list (regex * str)) : M (proc AGENTSCompliance) unit :=
  match todo with
  | [] =>
      passed_append (lit "✅ No deprecated typing imports ("
                         ++ path_name filepath ++ lit ")")
  | (pattern, name) :: todo' =>
      if re_search pattern content
      then issues_append (path_str filepath, deprecated_msg name, 2%Z)
      else deprecated_loop filepath content todo'
  end.

Definition _check_no_deprecated_typing (filepath : Path) (content : str)
  : M (proc AGENTSCompliance) unit :=
  deprecated_loop filepath content deprecated.

Definition _check_union_types (filepath : Path) (content : str)
  : M (proc AGENTSCompliance) unit :=
  if str_in (lit "| None") content || str_in (lit "| ") content
  then passed_append (lit "✅ Uses modern union types with | ("
                          ++ path_name filepath ++ lit ")")
  else ret tt.

(** The pattern [except\s*:]. *)
Definition bare_except_re : regex :=
  rlit "except" ++ [IStar CSpace] ++ rlit ":".

Definition bare_except_msg : str :=
  lit "❌ Bare 'except:' found (use specific exceptions)".

Definition _check_no_bare_except (filepath : Path) (content : str)
  : M (proc AGENTSCompliance) unit :=
  if re_search bare_except_re content
  then issues_append (path_str filepath, bare_except_msg, 2%Z)
  else passed_append (lit "✅ No bare except clauses ("
                          ++ path_name filepath ++ lit ")").

(** [any(dec.id == property if isinstance(dec, ast.Name) else False
         for dec in decorator_list)], [property] being the string. *)
Definition has_property_decorator (decorator_list : list expr) : bool :=
  existsb (fun dec =>
             match dec with
             | Name id => str_eqb id (lit "property")
             | OtherExpr => false
             end)
          decorator_list.

(** One turn of the loop over [ast.walk(tree)]. *)
Definition untyped_step (name : str) (returns : option expr)
           (decorator_list : list expr) (untyped_functions : list str)
  : list str :=
  if startswith (lit "_") name then untyped_functions
  else
    match returns with
    | None =>
        if negb (has_property_decorator decorator_list) then
          if startswith (lit "test_") name then untyped_functions
          else untyped_functions ++ [name]
        else untyped_functions
    | Some _ => untyped_functions
    end.

Fixpoint untyped_loop (nodes : list node) (untyped_functions : list str)
  : list str :=
  match nodes with
  | [] => untyped_functions
  | FunctionDef name returns decorator_list :: nodes'
  | AsyncFunctionDef name returns decorator_list :: nodes' =>
      untyped_loop nodes'
        (untyped_step name returns decorator_list untyped_functions)
  | OtherNode :: nodes' => untyped_loop nodes' untyped_functions
  end.

Definition _check_type_hints (filepath : Path) (content : str)
  : M (proc AGENTSCompliance) unit :=
  match ast_parse content with
  | Ret nodes =>
      let untyped_functions := untyped_loop nodes [] in
      match untyped_functions with
      | _ :: _ =>
          passed_append
            (lit "✅ Most functions typed (" ++ path_name filepath
                 ++ lit ") - " ++ str_of_nat (length untyped_functions)
                 ++ lit " without return hints")
      | [] =>
          passed_append (lit "✅ All functions have type hints ("
                             ++ path_name filepath ++ lit ")")
      end
  | Raise e =>
      if isinstance_SyntaxError e
      then issues_append
             (path_str filepath, lit "❌ Syntax error: " ++ exn_text e,
              2%Z)
      else raise e
  end.

(** The pattern of the class names: start of a line, [class], white
    space, a capital letter, letters and digits, optional white space,
    and a colon or an opening parenthesis. *)
Definition class_re : regex :=
  [IBol] ++ rlit "class"
    ++ [IPlus CSpace;
        ISet (CIn [(65, 90)]);
        IStar (CIn [(97, 122); (65, 90); (48, 57)]);
        IStar CSpace;
        ISet (CIn [(58, 58); (40, 40)])]%N.

(** The pattern of the function names: start of a line, optional white
    space, [def], white space, a lower-case letter or underscore,
    lower-case letters, digits and underscores, optional white space,
    and an opening parenthesis. *)
Definition func_re : regex :=
  [IBol; IStar CSpace] ++ rlit "def"
    ++ [IPlus CSpace;
        ISet (CIn [(97, 122); (95, 95)]);
        IStar (CIn [(97, 122); (48, 57); (95, 95)]);
        IStar CSpace;
        ILit 40]%N.

Definition _check_naming (filepath : Path) (content : str)
  : M (proc AGENTSCompliance) unit :=
  let class_matches := re_findall class_re content in
  (match class_matches with
   | _ :: _ => passed_append (lit "✅ Classes in PascalCase ("
                                  ++ path_name filepath ++ lit ")")
   | [] => ret tt
   end) ;;
  let func_matches := re_findall func_re content in
  match func_matches with
  | _ :: _ => passed_append (lit "✅ Functions in snake_case ("
                                 ++ path_name filepath ++ lit ")")
  | [] => ret tt
  end.

(** The pattern of [_check_docstrings]: three double quotes, any
    number of characters other than the double quote, three double
    quotes. *)
Definition docstring_re : regex :=
  [ILit DQ; ILit DQ; ILit DQ; IStar (CNotIn [(DQ, DQ)]);
   ILit DQ; ILit DQ; ILit DQ].

Definition _check_docstrings (filepath : Path) (content : str)
  : M (proc AGENTSCompliance) unit :=
  let doc_count := length (re_findall docstring_re content) in
  if 5 <? doc_count
  then passed_append (lit "✅ Comprehensive docstrings ("
                          ++ path_name filepath ++ lit ") - "
                          ++ str_of_nat doc_count ++ lit " found")
  else issues_append
         (path_str filepath,
          lit "⚠️ Few docstrings found (" ++ str_of_nat doc_count
              ++ lit ")",
          1%Z).

(** [enumerate(xs)] counting from [i] *)
Fixpoint enumerate_from {A} (i : nat) (xs : list A) : list (nat * A) :=
  match xs with
  | [] => []
  | x :: xs' => (i, x) :: enumerate_from (S i) xs'
  end.

Definition long_lines_of (content : str) : list (nat * str) :=
  map (fun il => (fst il + 1, snd il))
      (filter (fun il =>
                 (120 <? length (snd il))
                 && negb (startswith (lit "#") (strip (snd il))))
              (enumerate_from 0 (split_lines content))).

Definition _check_line_length (filepath : Path) (content : str)
  : M (proc AGENTSCompliance) unit :=
  let long_lines := long_lines_of content in
  match long_lines with
  | _ :: _ =>
      issues_append
        (path_str filepath,
         lit "⚠️ " ++ str_of_nat (length long_lines)
             ++ lit " lines exceed 120 characters",
         1%Z)
  | [] =>
      passed_append (lit "✅ All lines ≤ 120 characters ("
                         ++ path_name filepath ++ lit ")")
  end.

(** The first loop of [_check_isort_order], with its [break]. *)
Fixpoint import_section (lines : list str) (in_imports : bool)
         (import_lines : list str) : list str :=
  match lines with
  | [] => import_lines
  | line :: lines' =>
      if startswith (lit "import ") line || startswith (lit "from ") line
      then import_section lines' true (import_lines ++ [line])
      else if in_imports
              && match line with
                 | [] => false
                 | c :: _ => negb (isspace c)
                 end
      then import_lines
      else import_section lines' in_imports import_lines
  end.

(** [next((i for i, x in enumerate(xs) if f(x)), -1)] *)
Fixpoint first_index {A} (f : A -> bool) (i : Z) (xs : list A) : Z :=
  match xs with
  | [] => (-1)%Z
  | x :: xs' => if f x then i else first_index f (i + 1)%Z xs'
  end.

Definition is_stdlib_line (line : str) : bool :=
  str_in (lit "import threading") line
  || str_in (lit "import concurrent") line.

Definition is_thirdparty_line (line : str) : bool :=
  str_in (lit "PySide6") line || str_in (lit "requests") line.

Definition is_firstparty_line (line : str) : bool :=
  str_in (lit "from tidal_dl_ng") line.

Definition _check_isort_order (filepath : Path) (content : str)
  : M (proc AGENTSCompliance) unit :=
  let lines := split_lines content in
  let import_lines := import_section lines false [] in
  match import_lines with
  | _ :: _ =>
      let has_stdlib := existsb is_stdlib_line import_lines in
      let has_thirdparty := existsb is_thirdparty_line import_lines in
      let has_firstparty := existsb is_firstparty_line import_lines in
      if has_stdlib && has_thirdparty && has_firstparty then
        let stdlib_idx := first_index is_stdlib_line 0%Z import_lines in
        let thirdparty_idx :=
          first_index is_thirdparty_line 0%Z import_lines in
        if (stdlib_idx <? thirdparty_idx)%Z
        then passed_append (lit "✅ Imports properly ordered (isort) ("
                                ++ path_name filepath ++ lit ")")
        else issues_append
               (path_str filepath,
                lit "⚠️ Import order may not match isort", 1%Z)
      else passed_append (lit "✅ Import order OK ("
                              ++ path_name filepath ++ lit ")")
  | [] => ret tt
  end.

Definition _check_thread_safety (filepath : Path) (content : str)
  : M (proc AGENTSCompliance) unit :=
  (if str_in (lit "threading.RLock") content
      || str_in (lit "threading.Lock") content
   then passed_append (lit "✅ Uses threading.Lock for thread-safety ("
                           ++ path_name filepath ++ lit ")")
   else ret tt) ;;
  (if str_in (lit "with self._lock") content
   then passed_append (lit "✅ Uses context managers for locks ("
                           ++ path_name filepath ++ lit ")")
   else ret tt) ;;
  if str_in (lit "ThreadPoolExecutor") content
  then passed_append (lit "✅ Uses ThreadPoolExecutor for concurrency ("
                          ++ path_name filepath ++ lit ")")
  else ret tt.

Definition _check_logging (filepath : Path) (content : str)
  : M (proc AGENTSCompliance) unit :=
  if str_in (lit "logger_gui") content || str_in (lit "logger") content
  then passed_append (lit "✅ Uses project logger ("
                          ++ path_name filepath ++ lit ")")
  else ret tt.

(** [filepath.read_text(encoding=utf-8)] in the world [w] *)
Definition do_read_text {O} (w : world) (filepath : Path)
  : M (proc O) str :=
  fun p => (p, read_text w filepath).

Definition check_file (w : world) (filepath : Path)
  : M (proc AGENTSCompliance) unit :=
  print ([NL] ++ lit "📋 Vérification: " ++ path_name filepath) ;;
  print (str_mul (lit "=") 70) ;;
  content <- do_read_text w filepath ;;
  _check_no_deprecated_typing filepath content ;;
  _check_union_types filepath content ;;
  _check_no_bare_except filepath content ;;
  _check_type_hints filepath content ;;
  _check_naming filepath content ;;
  _check_docstrings filepath content ;;
  _check_line_length filepath content ;;
  _check_isort_order filepath content ;;
  _check_thread_safety filepath content ;;
  _check_logging filepath content.

(** [[i for i in self.issues if i[2] == sev]] *)
Definition issues_of_severity (sev : Z) (c : AGENTSCompliance)
  : list issue :=
  filter (fun i => (severity i =? sev)%Z) (issues c).

Definition report : M (proc AGENTSCompliance) Z :=
  fun p0 =>
    let c := self p0 in
    (print ([NL] ++ str_mul (lit "=") 70) ;;
     print (lit "📊 RAPPORT DE CONFORMITÉ AGENTS.md") ;;
     print (str_mul (lit "=") 70) ;;
     print ([NL] ++ lit "✅ VÉRIFICATIONS RÉUSSIES:") ;;
     for_each (passed c) (fun msg => print (lit "  " ++ msg)) ;;
     (match issues c with
      | _ :: _ =>
          print ([NL] ++ lit "⚠️ PROBLÈMES DÉTECTÉS:") ;;
          let errors := issues_of_severity 2 c in
          let warnings := issues_of_severity 1 c in
          for_each errors
            (fun i => print (lit "  🔴 " ++ fst (fst i) ++ lit ": "
                                 ++ snd (fst i))) ;;
          for_each warnings
            (fun i => print (lit "  🟡 " ++ fst (fst i) ++ lit ": "
                                 ++ snd (fst i))) ;;
          print ([NL] ++ lit "📈 Résumé: "
                      ++ str_of_nat (length (passed c))
                      ++ lit " vérifications réussies, "
                      ++ str_of_nat (length warnings)
                      ++ lit " avertissements, "
                      ++ str_of_nat (length errors) ++ lit " erreurs")
      | [] =>
          print ([NL] ++ lit "🎉 AUCUN PROBLÈME DÉTECTÉ!") ;;
          print (lit "📈 Résumé: " ++ str_of_nat (length (passed c))
                     ++ lit " vérifications réussies")
      end) ;;
     ret (if length (issues_of_severity 2 c) =? 0 then 0%Z else 1%Z))
      p0.

Definition files_to_check (base_dir : Path) : list Path :=
  [ path_div base_dir (lit "tidal_dl_ng/gui/playlist_membership.py");
    path_div base_dir (lit "tidal_dl_ng/ui/dialog_playlist_manager.py");
    path_div base_dir (lit "tests/test_playlist_manager.py") ].

(** The [__main__] block, from the creation of the checker to the exit
    code handed to [exit]. *)
Definition compliance_main (w : world) (base_dir : Path)
  : M (proc AGENTSCompliance) Z :=
  for_each (files_to_check base_dir)
    (fun filepath =>
       if path_exists w filepath
       then check_file w filepath
       else print (lit "⚠️ File not found: " ++ path_str filepath)) ;;
  report.

(** One run of the script: a fresh checker and an empty output. *)
Definition run_compliance (w : world) (base_dir : Path)
  : proc AGENTSCompliance * result Z :=
  compliance_main w base_dir (mkProc __init__ []).

(* =================================================================== *)
(** * scripts/verify_playlist_integration.py                            *)
(* =================================================================== *)

(** [(passed, failed)] *)
Definition tally : Type := (Z * Z)%type.

(** A [try] whose body may [return]: [Some] is the value returned from
    inside the statement, [None] means that the body ran to its end and
    the [else] clause follows. *)
Definition or_else {S A} (m : M S (option A)) (els : M S A) : M S A :=
  r <- m ;;
  match r with
  | Some a => ret a
  | None => els
  end.

Definition _check_import (w : world) (module_path component_name : str)
           (check_num : Z) : M (proc unit) tally :=
  or_else
    (try_except
       (call (builtin_import w module_path [component_name]) ;;
        ret None)
       isinstance_ImportError
       (fun e =>
          print (lit "❌ Check " ++ str_of_Z check_num ++ lit ": "
                     ++ component_name ++ lit " import failed: "
                     ++ exn_text e) ;;
          ret (Some (0, 1)%Z)))
    (print (lit "✅ Check " ++ str_of_Z check_num ++ lit ": "
                ++ component_name ++ lit " importable") ;;
     ret (1, 0)%Z).

Definition import_checks : list (str * str * Z) :=
  [ (lit "tidal_dl_ng.gui.playlist_membership_mixin",
     lit "PlaylistMembershipMixin", 1%Z);
    (lit "tidal_dl_ng.gui.playlist_membership",
     lit "PlaylistContextLoader", 2%Z);
    (lit "tidal_dl_ng.gui.playlist_membership",
     lit "ThreadSafePlaylistCache", 3%Z);
    (lit "tidal_dl_ng.gui.playlist_membership",
     lit "PlaylistColumnDelegate", 4%Z);
    (lit "tidal_dl_ng.ui.dialog_playlist_manager",
     lit "PlaylistManagerDialog", 5%Z) ].

(** The loop of [_run_all_import_checks]. *)
Fixpoint import_loop (w : world) (checks : list (str * str * Z))
         (total_passed total_failed : Z) : M (proc unit) tally :=
  match checks with
  | [] => ret (total_passed, total_failed)
  | (module_path, component_name, check_num) :: checks' =>
      pf <- _check_import w module_path component_name check_num ;;
      import_loop w checks' (total_passed + fst pf)%Z
                  (total_failed + snd pf)%Z
  end.

Definition _run_all_import_checks (w : world) : M (proc unit) tally :=
  import_loop w import_checks 0%Z 0%Z.

Definition _check_mainwindow_inheritance (w : world)
  : M (proc unit) tally :=
  or_else
    (try_except
       (MainWindow <- call (import_from w (lit "tidal_dl_ng.gui.main_window")
                                        (lit "MainWindow")) ;;
        PlaylistMembershipMixin <-
          call (import_from w
                  (lit "tidal_dl_ng.gui.playlist_membership_mixin")
                  (lit "PlaylistMembershipMixin")) ;;
        b <- call (issubclass w MainWindow PlaylistMembershipMixin) ;;
        if b : bool
        then print (lit "✅ Check 6: MainWindow has PlaylistMembershipMixin") ;;
             ret (Some (1, 0)%Z)
        else ret None)
       isinstance_Exception
       (fun e =>
          print (lit "❌ Check 6: MainWindow inheritance check failed: "
                     ++ exn_text e) ;;
          ret (Some (0, 1)%Z)))
    (print (lit "❌ Check 6: MainWindow does not inherit PlaylistMembershipMixin") ;;
     ret (0, 1)%Z).

Definition _check_method_exists (w : world) : M (proc unit) tally :=
  or_else
    (try_except
       (MainWindow <- call (import_from w (lit "tidal_dl_ng.gui.main_window")
                                        (lit "MainWindow")) ;;
        b <- call (hasattr w MainWindow
                           (lit "init_playlist_membership_manager")) ;;
        if b : bool
        then print (lit "✅ Check 7: init_playlist_membership_manager method exists") ;;
             ret (Some (1, 0)%Z)
        else ret None)
       isinstance_Exception
       (fun e =>
          print (lit "❌ Check 7: Method check failed: " ++ exn_text e) ;;
          ret (Some (0, 1)%Z)))
    (print (lit "❌ Check 7: init_playlist_membership_manager method not found") ;;
     ret (0, 1)%Z).

Definition _check_file_content (w : world) (file_path : Path)
           (search_str : str) (check_num : Z) (success_msg fail_msg : str)
  : M (proc unit) tally :=
  try_except
    (content <- call (open_read w file_path) ;;
     if str_in search_str content
     then print (lit "✅ Check " ++ str_of_Z check_num ++ lit ": "
                     ++ success_msg) ;;
          ret (1, 0)%Z
     else print (lit "❌ Check " ++ str_of_Z check_num ++ lit ": "
                     ++ fail_msg) ;;
          ret (0, 1)%Z)
    isinstance_Exception
    (fun e =>
       print (lit "❌ Check " ++ str_of_Z check_num
                  ++ lit ": File check failed: " ++ exn_text e) ;;
       ret (0, 1)%Z).

(** [check_integration] up to its summary: the ten checks and the two
    counters. *)
Definition integration_checks (w : world) (project_root : Path)
  : M (proc unit) tally :=
  let checks_passed := 0%Z in
  let checks_failed := 0%Z in
  print (lit "🔍 Vérification de l'intégration du Playlist Membership Manager"
             ++ [NL]) ;;
  print (str_mul (lit "=") 70) ;;
  pf <- _run_all_import_checks w ;;
  let checks_passed := (checks_passed + fst pf)%Z in
  let checks_failed := (checks_failed + snd pf)%Z in
  pf <- _check_mainwindow_inheritance w ;;
  let checks_passed := (checks_passed + fst pf)%Z in
  let checks_failed := (checks_failed + snd pf)%Z in
  pf <- _check_method_exists w ;;
  let checks_passed := (checks_passed + fst pf)%Z in
  let checks_failed := (checks_failed + snd pf)%Z in
  pf <- _check_file_content w
          (path_div (path_div (path_div project_root (lit "tidal_dl_ng"))
                              (lit "gui")) (lit "trees_results.py"))
          (lit "child_playlists") 8%Z
          (lit "child_playlists column added to TreesResultsMixin")
          (lit "child_playlists column NOT found in TreesResultsMixin") ;;
  let checks_passed := (checks_passed + fst pf)%Z in
  let checks_failed := (checks_failed + snd pf)%Z in
  pf <- _check_file_content w
          (path_div (path_div (path_div project_root (lit "tidal_dl_ng"))
                              (lit "gui")) (lit "tidal_session.py"))
          (lit "init_playlist_membership_manager") 9%Z
          (lit "init_playlist_membership_manager called in init_tidal")
          (lit "init_playlist_membership_manager NOT called in init_tidal") ;;
  let checks_passed := (checks_passed + fst pf)%Z in
  let checks_failed := (checks_failed + snd pf)%Z in
  pf <- _check_file_content w
          (path_div (path_div (path_div project_root (lit "tidal_dl_ng"))
                              (lit "gui"))
                    (lit "playlist_membership_mixin.py"))
          (lit "PlaylistCellState") 10%Z
          (lit "PlaylistCellState imported in mixin")
          (lit "PlaylistCellState NOT imported in mixin") ;;
  let checks_passed := (checks_passed + fst pf)%Z in
  let checks_failed := (checks_failed + snd pf)%Z in
  ret (checks_passed, checks_failed).

(** The summary of [check_integration] and its return value. *)
Definition integration_summary (checks_passed checks_failed : Z)
  : M (proc unit) Z :=
  print ([NL] ++ str_mul (lit "=") 70) ;;
  print ([NL] ++ lit "📊 Résultat: " ++ str_of_Z checks_passed
              ++ lit " ✅  /  " ++ str_of_Z checks_failed ++ lit " ❌"
              ++ [NL]) ;;
  if (checks_failed =? 0)%Z
  then print (lit "🎉 INTÉGRATION COMPLÈTE - Tous les checks sont passés!") ;;
       ret 0%Z
  else print (lit "⚠️  " ++ str_of_Z checks_failed
                  ++ lit " problème(s) détecté(s)") ;;
       ret 1%Z.

Definition check_integration (w : world) (project_root : Path)
  : M (proc unit) Z :=
  pf <- integration_checks w project_root ;;
  integration_summary (fst pf) (snd pf).

(** One run of the script, from an empty output. *)
Definition run_integration (w : world) (project_root : Path)
  : proc unit * result Z :=
  check_integration w project_root (mkProc tt []).

(* =================================================================== *)
(** * Notions used by the statements                                    *)
(* =================================================================== *)

(** The state of the process after a computation, and its outcome. *)
Definition after {S A} (m : M S A) (s : S) : S := fst (m s).
Definition outcome {S A} (m : M S A) (s : S) : result A := snd (m s).

(** The process [p] with one more issue, or one more pass message. *)
Definition with_issue (p : proc AGENTSCompliance) (i : issue)
  : proc AGENTSCompliance :=
  mkProc (mkChecker (issues (self p) ++ [i]) (passed (self p))) (stdout p).

Definition with_passed (p : proc AGENTSCompliance) (m : str)
  : proc AGENTSCompliance :=
  mkProc (mkChecker (issues (self p)) (passed (self p) ++ [m])) (stdout p).

(** [doc_count] of [_check_docstrings]. *)
Definition doc_count (content : str) : nat :=
  length (re_findall docstring_re content).

(** What a check may do to the process: append issues that satisfy
    [Q], append pass messages, print; [ok] says moreover that it
    returns. *)
Definition effect (Q : issue -> Prop) {A}
           (m : M (proc AGENTSCompliance) A) : Prop :=
  forall p, exists ni np out r,
    m p = (mkProc (mkChecker (issues (self p) ++ ni)
                             (passed (self p) ++ np))
                  (stdout p ++ out), r)
    /\ Forall Q ni.

Definition ok (Q : issue -> Prop)
           (m : M (proc AGENTSCompliance) unit) : Prop :=
  forall p, exists ni np out,
    m p = (mkProc (mkChecker (issues (self p) ++ ni)
                             (passed (self p) ++ np))
                  (stdout p ++ out), Ret tt)
    /\ Forall Q ni.

(** The character before the position reached after [pre]. *)
Definition prev_after (prev : option char) (pre : str) : option char :=
  fold_left (fun _ c => Some c) pre prev.

Definition DQ3 : str := [DQ; DQ; DQ].

Definition quote_free (s : str) : Prop := Forall (fun c => c <> DQ) s.




(** The issues that carry the message of the bare-except check. *)
Definition bare_except_issues (l : list issue) : list issue :=
  filter (fun i => str_eqb (snd (fst i)) bare_except_msg) l.

Definition not_bare (i : issue) : Prop :=
  str_eqb (snd (fst i)) bare_except_msg = false.

(** A file that the run can go through: it is absent, or it can be
    read and [ast.parse] raises nothing but a [SyntaxError] on it. *)
Definition checkable (w : world) (f : Path) : Prop :=
  path_exists w f = false
  \/ exists content,
      read_text w f = Ret content
      /\ forall e, ast_parse content = Raise e ->
                   isinstance_SyntaxError e = true.

(** The ten checks of [check_file], after the file was read. *)
Definition ten_checks (filepath : Path) (content : str)
  : M (proc AGENTSCompliance) unit :=
  _check_no_deprecated_typing filepath content ;;
  _check_union_types filepath content ;;
  _check_no_bare_except filepath content ;;
  _check_type_hints filepath content ;;
  _check_naming filepath content ;;
  _check_docstrings filepath content ;;
  _check_line_length filepath content ;;
  _check_isort_order filepath content ;;
  _check_thread_safety filepath content ;;
  _check_logging filepath content.

Definition file_header (filepath : Path) : list str :=
  [[NL] ++ lit "📋 Vérification: " ++ path_name filepath;
   str_mul (lit "=") 70].

Definition any_issue (i : issue) : Prop := True.

(** One turn of the loop of the [__main__] block. *)
Definition main_turn (w : world) (filepath : Path)
  : M (proc AGENTSCompliance) unit :=
  if path_exists w filepath
  then check_file w filepath
  else print (lit "⚠️ File not found: " ++ path_str filepath).

Definition no_issue (i : issue) : Prop := False.

(** The verdict that a printed line gives for check [n]: the line of a
    passed check starts with the tick, [Check], the number and a
    colon; that of a failed check starts with the cross. *)
Definition verdict_line (n : Z) (line : str) : option bool :=
  if startswith (lit "✅ Check " ++ str_of_Z n ++ lit ":") line
  then Some true
  else if startswith (lit "❌ Check " ++ str_of_Z n ++ lit ":") line
  then Some false
  else None.

(** The verdict for check [n] in the output of a run, if any. *)
Fixpoint reported (n : Z) (out : list str) : option bool :=
  match out with
  | [] => None
  | line :: out' =>
      match verdict_line n line with
      | Some b => Some b
      | None => reported n out'
      end
  end.

Definition main_window_module : str := lit "tidal_dl_ng.gui.main_window".
Definition mixin_module : str :=
  lit "tidal_dl_ng.gui.playlist_membership_mixin".

Definition gui_file (project_root : Path) (name : str) : Path :=
  path_div (path_div (path_div project_root (lit "tidal_dl_ng"))
                     (lit "gui")) name.

(** The two worlds answer alike what check [n] asks. *)
Definition same_inputs (n : Z) (project_root : Path) (w1 w2 : world)
  : Prop :=
  match n with
  | 1 => builtin_import w1
                        (lit "tidal_dl_ng.gui.playlist_membership_mixin")
                        [lit "PlaylistMembershipMixin"]
         = builtin_import w2
                          (lit "tidal_dl_ng.gui.playlist_membership_mixin")
                          [lit "PlaylistMembershipMixin"]
  | 2 => builtin_import w1 (lit "tidal_dl_ng.gui.playlist_membership")
                        [lit "PlaylistContextLoader"]
         = builtin_import w2 (lit "tidal_dl_ng.gui.playlist_membership")
                          [lit "PlaylistContextLoader"]
  | 3 => builtin_import w1 (lit "tidal_dl_ng.gui.playlist_membership")
                        [lit "ThreadSafePlaylistCache"]
         = builtin_import w2 (lit "tidal_dl_ng.gui.playlist_membership")
                          [lit "ThreadSafePlaylistCache"]
  | 4 => builtin_import w1 (lit "tidal_dl_ng.gui.playlist_membership")
                        [lit "PlaylistColumnDelegate"]
         = builtin_import w2 (lit "tidal_dl_ng.gui.playlist_membership")
                          [lit "PlaylistColumnDelegate"]
  | 5 => builtin_import w1 (lit "tidal_dl_ng.ui.dialog_playlist_manager")
                        [lit "PlaylistManagerDialog"]
         = builtin_import w2 (lit "tidal_dl_ng.ui.dialog_playlist_manager")
                          [lit "PlaylistManagerDialog"]
  | 6 => import_from w1 main_window_module (lit "MainWindow")
         = import_from w2 main_window_module (lit "MainWindow")
         /\ import_from w1 mixin_module (lit "PlaylistMembershipMixin")
            = import_from w2 mixin_module (lit "PlaylistMembershipMixin")
         /\ forall a b, issubclass w1 a b = issubclass w2 a b
  | 7 => import_from w1 main_window_module (lit "MainWindow")
         = import_from w2 main_window_module (lit "MainWindow")
         /\ forall a name, hasattr w1 a name = hasattr w2 a name
  | 8 => open_read w1 (gui_file project_root (lit "trees_results.py"))
         = open_read w2 (gui_file project_root (lit "trees_results.py"))
  | 9 => open_read w1 (gui_file project_root (lit "tidal_session.py"))
         = open_read w2 (gui_file project_root (lit "tidal_session.py"))
  | 10 => open_read w1 (gui_file project_root
                                 (lit "playlist_membership_mixin.py"))
          = open_read w2 (gui_file project_root
                                   (lit "playlist_membership_mixin.py"))
  | _ => True
  end%Z.

Definition tally_of (okb : bool) : tally :=
  if okb then (1, 0)%Z else (0, 1)%Z.

Definition check_line (okb : bool) (n : Z) (text : str) : str :=
  lit (if okb then "✅" else "❌") ++ lit " Check " ++ str_of_Z n
      ++ lit ": " ++ text.

(** Print the line of a verdict and return its tally, or raise. *)
Definition emit (n : Z) (r : result (bool * str)) : M (proc unit) tally :=
  match r with
  | Ret (okb, text) => print (check_line okb n text) ;; ret (tally_of okb)
  | Raise e => raise e
  end.

Definition import_probe (w : world) (module_path component_name : str)
  : result (bool * str) :=
  match builtin_import w module_path [component_name] with
  | Ret _ => Ret (true, component_name ++ lit " importable")
  | Raise e =>
      if isinstance_ImportError e
      then Ret (false, component_name ++ lit " import failed: "
                                      ++ exn_text e)
      else Raise e
  end.

Definition caught (prefix : str) (e : exn) : result (bool * str) :=
  if isinstance_Exception e
  then Ret (false, prefix ++ exn_text e)
  else Raise e.

Definition inherit_probe (w : world) : result (bool * str) :=
  let failed := caught (lit "MainWindow inheritance check failed: ") in
  match import_from w main_window_module (lit "MainWindow") with
  | Raise e => failed e
  | Ret a =>
      match import_from w mixin_module (lit "PlaylistMembershipMixin") with
      | Raise e => failed e
      | Ret b =>
          match issubclass w a b with
          | Raise e => failed e
          | Ret true =>
              Ret (true, lit "MainWindow has PlaylistMembershipMixin")
          | Ret false =>
              Ret (false,
                   lit "MainWindow does not inherit PlaylistMembershipMixin")
          end
      end
  end.

Definition method_probe (w : world) : result (bool * str) :=
  let failed := caught (lit "Method check failed: ") in
  match import_from w main_window_module (lit "MainWindow") with
  | Raise e => failed e
  | Ret a =>
      match hasattr w a (lit "init_playlist_membership_manager") with
      | Raise e => failed e
      | Ret true =>
          Ret (true, lit "init_playlist_membership_manager method exists")
      | Ret false =>
          Ret (false,
               lit "init_playlist_membership_manager method not found")
      end
  end.

Definition file_probe (w : world) (file_path : Path)
           (search_str success_msg fail_msg : str) : result (bool * str) :=
  match open_read w file_path with
  | Ret content =>
      if str_in search_str content
      then Ret (true, success_msg)
      else Ret (false, fail_msg)
  | Raise e => caught (lit "File check failed: ") e
  end.

(** The ten checks of a run, numbered, each with what it comes to. *)
Definition probes (w : world) (project_root : Path)
  : list (Z * result (bool * str)) :=
  map (fun mcn => (snd mcn, import_probe w (fst (fst mcn)) (snd (fst mcn))))
      import_checks
  ++ [ (6%Z, inherit_probe w);
       (7%Z, method_probe w);
       (8%Z, file_probe w (gui_file project_root (lit "trees_results.py"))
               (lit "child_playlists")
               (lit "child_playlists column added to TreesResultsMixin")
               (lit "child_playlists column NOT found in TreesResultsMixin"));
       (9%Z, file_probe w (gui_file project_root (lit "tidal_session.py"))
               (lit "init_playlist_membership_manager")
               (lit "init_playlist_membership_manager called in init_tidal")
               (lit "init_playlist_membership_manager NOT called in init_tidal"));
       (10%Z, file_probe w
                (gui_file project_root (lit "playlist_membership_mixin.py"))
                (lit "PlaylistCellState")
                (lit "PlaylistCellState imported in mixin")
                (lit "PlaylistCellState NOT imported in mixin")) ].

(** Printing the verdicts of a list in turn, with the two counters. *)
Fixpoint emit_all (l : list (Z * result (bool * str))) (np nf : Z)
  : M (proc unit) tally :=
  match l with
  | [] => ret (np, nf)
  | (n, r) :: l' =>
      pf <- emit n r ;;
      emit_all l' (np + fst pf)%Z (nf + snd pf)%Z
  end.

(** The lines that [emit_all] prints: those before the first raise. *)
Fixpoint emitted (l : list (Z * result (bool * str))) : list str :=
  match l with
  | [] => []
  | (n, Ret (okb, text)) :: l' => check_line okb n text :: emitted l'
  | (_, Raise _) :: _ => []
  end.

(** What [emit_all] comes to. *)
Fixpoint emit_result (l : list (Z * result (bool * str))) (np nf : Z)
  : result tally :=
  match l with
  | [] => Ret (np, nf)
  | (_, Ret (okb, _)) :: l' =>
      emit_result l' (np + fst (tally_of okb))%Z
                  (nf + snd (tally_of okb))%Z
  | (_, Raise e) :: _ => Raise e
  end.

(** The verdict printed for [n], if the list gets to it. *)
Fixpoint find_emitted (n : Z) (l : list (Z * result (bool * str)))
  : option bool :=
  match l with
  | [] => None
  | (m, Ret (okb, _)) :: l' =>
      if (n =? m)%Z then Some okb else find_emitted n l'
  | (_, Raise _) :: _ => None
  end.

Definition integration_header : list str :=
  [lit "🔍 Vérification de l'intégration du Playlist Membership Manager"
       ++ [NL];
   str_mul (lit "=") 70].

Definition summary_lines (checks_passed checks_failed : Z) : list str :=
  [ [NL] ++ str_mul (lit "=") 70;
    [NL] ++ lit "📊 Résultat: " ++ str_of_Z checks_passed
         ++ lit " ✅  /  " ++ str_of_Z checks_failed ++ lit " ❌" ++ [NL];
    if (checks_failed =? 0)%Z
    then lit "🎉 INTÉGRATION COMPLÈTE - Tous les checks sont passés!"
    else lit "⚠️  " ++ str_of_Z checks_failed
             ++ lit " problème(s) détecté(s)" ].

Definition numbered (l : list (Z * result (bool * str))) : Prop :=
  forall m, In m (map fst l) -> (1 <= m <= 10)%Z.

Definition all_pass (l : list (Z * result (bool * str))) : bool :=
  forallb (fun mr => match snd mr with
                     | Ret (true, _) => true
                     | _ => false
                     end) l.

(** The counts of a checker: pass messages, warnings, errors. *)
Definition counts (c : AGENTSCompliance) : nat * nat * nat :=
  (length (passed c), length (issues_of_severity 1 c),
   length (issues_of_severity 2 c)).

(** A world that raises nothing but what the check that asks catches:
    [ImportError] from [__import__], and instances of [Exception]
    elsewhere. *)
Definition well_behaved (w : world) : Prop :=
  (forall module_path names e,
      builtin_import w module_path names = Raise e ->
      isinstance_ImportError e = true)
  /\ (forall module_path name e,
         import_from w module_path name = Raise e ->
         isinstance_Exception e = true)
  /\ (forall a b e,
         issubclass w a b = Raise e -> isinstance_Exception e = true)
  /\ (forall a name e,
         hasattr w a name = Raise e -> isinstance_Exception e = true)
  /\ (forall file_path e,
         open_read w file_path = Raise e -> isinstance_Exception e = true).

(** A check passes: from any state of the process it returns
    [(1, 0)]. *)
Definition passes (check : M (proc unit) tally) : Prop :=
  forall p, snd (check p) = Ret (1, 0)%Z.

(** Each of the ten checks that [check_integration] runs passes: the
    five import checks of [_run_all_import_checks], the inheritance
    check, the method check, and the three file checks with the
    arguments that [check_integration] gives them. *)
Definition ten_checks_pass (w : world) (project_root : Path) : Prop :=
  (forall module_path component_name check_num,
      In (module_path, component_name, check_num) import_checks ->
      passes (_check_import w module_path component_name check_num))
  /\ passes (_check_mainwindow_inheritance w)
  /\ passes (_check_method_exists w)
  /\ passes (_check_file_content w
               (gui_file project_root (lit "trees_results.py"))
               (lit "child_playlists") 8%Z
               (lit "child_playlists column added to TreesResultsMixin")
               (lit "child_playlists column NOT found in TreesResultsMixin"))
  /\ passes (_check_file_content w
               (gui_file project_root (lit "tidal_session.py"))
               (lit "init_playlist_membership_manager") 9%Z
               (lit "init_playlist_membership_manager called in init_tidal")
               (lit "init_playlist_membership_manager NOT called in init_tidal"))
  /\ passes (_check_file_content w
               (gui_file project_root (lit "playlist_membership_mixin.py"))
               (lit "PlaylistCellState") 10%Z
               (lit "PlaylistCellState imported in mixin")
               (lit "PlaylistCellState NOT imported in mixin")).

(** What the ten checks look for is there: the five imports return,
    [MainWindow] and the mixin can be imported and the first is a
    subclass of the second, [MainWindow] has the method, and each of
    the three files can be read and holds its string. *)
Definition world_integrated (w : world) (project_root : Path) : Prop :=
  (forall module_path component_name check_num,
      In (module_path, component_name, check_num) import_checks ->
      exists module, builtin_import w module_path [component_name]
                     = Ret module)
  /\ (exists a b,
         import_from w main_window_module (lit "MainWindow") = Ret a
         /\ import_from w mixin_module (lit "PlaylistMembershipMixin")
            = Ret b
         /\ issubclass w a b = Ret true)
  /\ (exists a,
         import_from w main_window_module (lit "MainWindow") = Ret a
         /\ hasattr w a (lit "init_playlist_membership_manager")
            = Ret true)
  /\ (exists pre post,
         open_read w (gui_file project_root (lit "trees_results.py"))
         = Ret (pre ++ lit "child_playlists" ++ post))
  /\ (exists pre post,
         open_read w (gui_file project_root (lit "tidal_session.py"))
         = Ret (pre ++ lit "init_playlist_membership_manager" ++ post))
  /\ (exists pre post,
         open_read w (gui_file project_root
                               (lit "playlist_membership_mixin.py"))
         = Ret (pre ++ lit "PlaylistCellState" ++ post)).

(** The body of the [try] of [_check_mainwindow_inheritance] raises
    [e]: the first import does, or the second one after the first has
    returned, or [issubclass] after both have. *)
Definition raised_in_inheritance (w : world) (e : exn) : Prop :=
  import_from w main_window_module (lit "MainWindow") = Raise e
  \/ (exists a,
         import_from w main_window_module (lit "MainWindow") = Ret a
         /\ import_from w mixin_module (lit "PlaylistMembershipMixin")
            = Raise e)
  \/ (exists a b,
         import_from w main_window_module (lit "MainWindow") = Ret a
         /\ import_from w mixin_module (lit "PlaylistMembershipMixin")
            = Ret b
         /\ issubclass w a b = Raise e).

(** The body of the [try] of [_check_method_exists] raises [e]: the
    import does, or [hasattr] after the import has returned. *)
Definition raised_in_method (w : world) (e : exn) : Prop :=
  import_from w main_window_module (lit "MainWindow") = Raise e
  \/ (exists a,
         import_from w main_window_module (lit "MainWindow") = Ret a
         /\ hasattr w a (lit "init_playlist_membership_manager")
            = Raise e).

(* =================================================================== *)
(** * Further notions                                                   *)
(* =================================================================== *)

(** Every character of [ws] is white space. *)
Definition all_space (ws : str) : Prop :=
  Forall (fun c => isspace c = true) ws.

(** No character of [s] is a newline. *)
Definition one_line (s : str) : Prop := Forall (fun c => c <> NL) s.

(** A line that starts an import statement, as [_check_isort_order]
    tells it. *)
Definition is_import_line (line : str) : bool :=
  startswith (lit "import ") line || startswith (lit "from ") line.

(** A line that [_check_line_length] counts: more than 120 characters,
    and its first character after leading white space is not [#]. *)
Definition counted_long (line : str) : bool :=
  (120 <? length line) && negb (startswith (lit "#") (lstrip line)).

(** The forms of the issues that the checks of a file append. *)
Definition issue_of (filepath : Path) (i : issue) : Prop :=
  (exists name, In name (map snd deprecated)
                /\ i = (path_str filepath, deprecated_msg name, 2%Z))
  \/ i = (path_str filepath, bare_except_msg, 2%Z)
  \/ (exists e, i = (path_str filepath, lit "❌ Syntax error: " ++ exn_text e,
                     2%Z))
  \/ (exists n, i = (path_str filepath,
                     lit "⚠️ Few docstrings found (" ++ str_of_nat n
                         ++ lit ")", 1%Z))
  \/ (exists n, i = (path_str filepath,
                     lit "⚠️ " ++ str_of_nat n
                         ++ lit " lines exceed 120 characters", 1%Z))
  \/ i = (path_str filepath, lit "⚠️ Import order may not match isort", 1%Z).

(** Whether a list of issues holds one of severity 2. *)
Definition has_error (l : list issue) : bool :=
  existsb (fun i => (severity i =? 2)%Z) l.

(** A computation that returns, appends issues and pass messages and
    prints, and appends an issue of severity 2 exactly when [b]. *)
Definition ok_when (b : bool) (m : M (proc AGENTSCompliance) unit) : Prop :=
  forall p, exists ni np out,
    m p = (mkProc (mkChecker (issues (self p) ++ ni)
                             (passed (self p) ++ np))
                  (stdout p ++ out), Ret tt)
    /\ has_error ni = b.

(** What makes the checks of a content append an issue of severity 2:
    a match of a deprecated-typing pattern, a match of the bare-except
    pattern, or a [SyntaxError] of [ast.parse]. *)
Definition error_condition (content : str) : bool :=
  existsb (fun pn => re_search (fst pn) content) deprecated
  || re_search bare_except_re content
  || match ast_parse content with
     | Ret _ => false
     | Raise e => isinstance_SyntaxError e
     end.

Definition file_has_error (w : world) (f : Path) : bool :=
  path_exists w f
  && match read_text w f with
     | Ret content => error_condition content
     | Raise _ => false
     end.

Definition warning_only (i : issue) : Prop := severity i = 1%Z.

(** The numbers of the ten checks of the verifier. *)
Definition check_numbers : list Z := [1; 2; 3; 4; 5; 6; 7; 8; 9; 10]%Z.

(** A verdict is there and is [b]. *)
Definition hit (b : bool) (o : option bool) : bool :=
  match o with
  | Some b' => Bool.eqb b b'
  | None => false
  end.

(** The number of checks that an output reports with verdict [b]. *)
Definition count_reported (b : bool) (out : list str) : Z :=
  Z.of_nat (length (filter (fun n => hit b (reported n out)) check_numbers)).

(* =================================================================== *)
(** * Concrete inputs                                                   *)
(* =================================================================== *)

(** Unicode tables in which no code point outside ASCII is white space
    or alphanumeric. *)
Definition ascii_only (c : char) : bool := false.

(** A parser that rejects every text. *)
Definition not_python (content : str) : result (list node) :=
  Raise (mkExn SyntaxError (lit "invalid syntax (<unknown>, line 1)")).

Definition repo : Path := mkPath [SLASH] [lit "repo"].

Definition membership_py : Path :=
  path_div repo (lit "tidal_dl_ng/gui/playlist_membership.py").

(** An import system in which every import succeeds and every class
    has what is asked of it. *)
Definition import_ok (module_path : str) (names : list str)
  : result pyobj := Ret 0%N.

Definition from_ok (module_path name : str) : result pyobj := Ret 0%N.

Definition is_subclass (a b : pyobj) : result bool := Ret true.

Definition has_attribute (a : pyobj) (name : str) : result bool :=
  Ret true.

(** A text that holds the three strings that the file checks look for. *)
Definition wired_text : str :=
  lit "child_playlists init_playlist_membership_manager PlaylistCellState".

(** A world in which the ten checks of the verifier pass. *)
Definition sound_world : world :=
  mkWorld (fun _ => true) (fun _ => Ret wired_text)
          (fun _ => Ret wired_text) import_ok from_ok is_subclass has_attribute.

(** The same world, except that the module of check 1 has a syntax
    error: importing it raises a [SyntaxError]. *)
Definition crash_world : world :=
  mkWorld (fun _ => true) (fun _ => Ret wired_text)
          (fun _ => Ret wired_text)
          (fun module_path names =>
             if str_eqb module_path
                        (lit "tidal_dl_ng.gui.playlist_membership_mixin")
             then Raise (mkExn SyntaxError
                           (lit "invalid syntax (playlist_membership_mixin.py, line 3)"))
             else Ret 0%N)
          from_ok is_subclass has_attribute.

(** The same world, except that the component of check 3 cannot be
    imported. *)
Definition import_error_world : world :=
  mkWorld (fun _ => true) (fun _ => Ret wired_text)
          (fun _ => Ret wired_text)
          (fun module_path names =>
             if str_eqb (concat names) (lit "ThreadSafePlaylistCache")
             then Raise (mkExn ImportError
                           (lit "cannot import name 'ThreadSafePlaylistCache'"))
             else Ret 0%N)
          from_ok is_subclass has_attribute.

(** The same world as [sound_world] on everything that the two
    scripts ask, and another one elsewhere. *)
Definition other_world : world :=
  mkWorld (fun p => negb (str_eqb (path_name p) (lit "README.md")))
          (fun p => if str_eqb (path_name p) (lit "README.md")
                    then Ret [] else Ret wired_text)
          (fun p => if str_eqb (path_name p) (lit "README.md")
                    then Ret [] else Ret wired_text)
          (fun module_path names =>
             if str_eqb module_path (lit "os")
             then Raise (mkExn ModuleNotFoundError (lit "No module named 'os'"))
             else Ret 0%N)
          from_ok is_subclass has_attribute.

(** A world in which only the first checked file exists, and holds
    the single line [except:]. *)
Definition bare_world : world :=
  mkWorld (fun p => str_eqb (path_name p) (lit "playlist_membership.py"))
          (fun _ => Ret (lit "except:"))
          (fun _ => Ret (lit "except:")) import_ok from_ok is_subclass has_attribute.

(** A world whose files exist and cannot be decoded. *)
Definition unreadable_world : world :=
  mkWorld (fun _ => true)
          (fun _ => Raise (mkExn UnicodeDecodeError
                             (lit "'utf-8' codec can't decode byte 0xff in position 0: invalid start byte")))
          (fun _ => Ret wired_text) import_ok from_ok is_subclass has_attribute.



(** A fresh process. *)
Definition fresh : proc AGENTSCompliance := mkProc __init__ [].

(** A world in which none of the checked files exists. *)
Definition absent_world : world :=
  mkWorld (fun _ => false) (fun _ => Ret wired_text)
          (fun _ => Ret wired_text) import_ok from_ok is_subclass
          has_attribute.

(** The same world as [sound_world], except that the module of
    [MainWindow] cannot be imported. *)
Definition no_main_window_world : world :=
  mkWorld (fun _ => true) (fun _ => Ret wired_text)
          (fun _ => Ret wired_text) import_ok
          (fun module_path name =>
             if str_eqb module_path main_window_module
             then Raise (mkExn ModuleNotFoundError
                           (lit "No module named 'PySide6'"))
             else Ret 0%N)
          is_subclass has_attribute.

(** A content that uses the [typing] module without the statement that
    the deprecated-typing check looks for. *)
Definition typing_module_use : str :=
  lit "import typing" ++ [NL] ++ lit "x: typing.Optional[int] = None".

(* =================================================================== *)
(** * The compliance checker: single checks                             *)
(* =================================================================== *)

Ltac run_step :=
  unfold after, outcome, with_issue, with_passed, bind, ret, raise, call,
    print, issues_append, passed_append, try_except, or_else; simpl.

Lemma filter_nil_iff {A} (f : A -> bool) (l : list A) :
  filter f l = [] <-> forall x, In x l -> f x = false.
Proof.
  induction l as [|a l IH]; simpl.
  - split; [intros _ x [] | reflexivity].
  - destruct (f a) eqn:E; split.
    + discriminate.
    + intros H. specialize (H a (or_introl eq_refl)). congruence.
    + intros H x [<-|Hx]; [assumption | now apply IH].
    + intros H. apply IH. intros x Hx. apply H. now right.
Qed.

Lemma for_each_print {O A} (xs : list A) (f : A -> str) (p : proc O) :
  for_each xs (fun x => print (f x)) p
  = (mkProc (self p) (stdout p ++ map f xs), Ret tt).
Proof.
  revert p. induction xs as [|x xs IH]; intros p; simpl.
  - unfold ret. rewrite app_nil_r. now destruct p.
  - unfold bind, print at 1. simpl. rewrite IH. simpl.
    now rewrite <- app_assoc.
Qed.

Lemma report_returns (p : proc AGENTSCompliance) :
  exists out,
    report p
    = (mkProc (self p) out,
       Ret (if length (issues_of_severity 2 (self p)) =? 0
            then 0%Z else 1%Z)).
Proof.
  unfold report. unfold bind at 1 2 3 4. unfold print at 1 2 3 4. simpl.
  unfold bind at 1. rewrite for_each_print. simpl.
  destruct (issues (self p)) as [|i0 is0] eqn:E.
  - run_step. eexists. reflexivity.
  - unfold bind at 1. unfold bind at 1. unfold print at 1. simpl.
    unfold bind at 1. rewrite for_each_print. simpl.
    unfold bind at 1. rewrite for_each_print. simpl.
    run_step. eexists. reflexivity.
Qed.

(** C1. The exit code that [report] returns is 0 exactly when no
    accumulated issue has severity 2, and it is 1 otherwise; issues of
    severity 1 alone leave it at 0.  [report] always returns and leaves
    the checker as it was. *)
Theorem report_exit_code (p : proc AGENTSCompliance) :
  exists code,
    outcome report p = Ret code
    /\ self (after report p) = self p
    /\ (code = 0%Z <->
        forall i, In i (issues (self p)) -> severity i <> 2%Z)
    /\ (code = 1%Z <->
        exists i, In i (issues (self p)) /\ severity i = 2%Z)
    /\ ((forall i, In i (issues (self p)) -> severity i = 1%Z) ->
        code = 0%Z).
Proof.
  destruct (report_returns p) as [out Hr].
  unfold outcome, after. rewrite Hr. simpl.
  eexists. split; [reflexivity|]. split; [reflexivity|].
  assert (Hz : length (issues_of_severity 2 (self p)) = 0
               <-> forall i, In i (issues (self p)) -> severity i <> 2%Z).
  { unfold issues_of_severity. rewrite length_zero_iff_nil, filter_nil_iff.
    split; intros H i Hi.
    - specialize (H i Hi). now apply Z.eqb_neq.
    - apply Z.eqb_neq. now apply H. }
  destruct (length (issues_of_severity 2 (self p)) =? 0) eqn:E.
  - apply Nat.eqb_eq in E. destruct Hz as [Hz _]. specialize (Hz E).
    split; [tauto|]. split.
    + split; [discriminate|]. intros [i [Hi Hs]]. now apply Hz in Hi.
    + reflexivity.
  - apply Nat.eqb_neq in E.
    assert (Hex : exists i, In i (issues (self p)) /\ severity i = 2%Z).
    { unfold issues_of_severity in E.
      destruct (filter (fun i => (severity i =? 2)%Z) (issues (self p)))
        as [|i l] eqn:F; [now elim E|].
      assert (Hin : In i (filter (fun i => (severity i =? 2)%Z)
                                 (issues (self p))))
        by (rewrite F; now left).
      apply filter_In in Hin. destruct Hin as [Hin Hs].
      exists i. split; [assumption | now apply Z.eqb_eq]. }
    split; [|split].
    + split; [discriminate|]. intros H. destruct Hz as [_ Hz].
      now specialize (Hz H).
    + tauto.
    + intros H. destruct Hex as [i [Hi Hs]]. apply H in Hi. congruence.
Qed.

Lemma ok_effect Q m : ok Q m -> effect Q m.
Proof.
  intros H p. destruct (H p) as (ni & np & out & E & HQ).
  exists ni, np, out, (Ret tt). now split.
Qed.

Lemma ok_ret Q : ok Q (ret tt).
Proof.
  intros [[i ps] o]. exists [], [], []. simpl.
  rewrite !app_nil_r. now split.
Qed.

Lemma ok_print Q s : ok Q (print s).
Proof.
  intros [[i ps] o]. exists [], [], [s]. simpl.
  unfold print. simpl. rewrite !app_nil_r. now split.
Qed.

Lemma ok_passed Q m : ok Q (passed_append m).
Proof.
  intros [[i ps] o]. exists [], [m], []. simpl.
  unfold passed_append. simpl. rewrite !app_nil_r. now split.
Qed.

Lemma ok_issue (Q : issue -> Prop) i : Q i -> ok Q (issues_append i).
Proof.
  intros HQ [[is0 ps] o]. exists [i], [], []. simpl.
  unfold issues_append. simpl. rewrite !app_nil_r.
  split; [reflexivity | now constructor].
Qed.

Lemma ok_bind Q (a b : M (proc AGENTSCompliance) unit) :
  ok Q a -> ok Q b -> ok Q (a ;; b).
Proof.
  intros Ha Hb p.
  destruct (Ha p) as (ni & np & out & Ea & Qa).
  destruct (Hb (mkProc (mkChecker (issues (self p) ++ ni)
                                  (passed (self p) ++ np))
                       (stdout p ++ out)))
    as (ni' & np' & out' & Eb & Qb).
  exists (ni ++ ni'), (np ++ np'), (out ++ out').
  unfold bind. rewrite Ea, Eb. simpl. rewrite !app_assoc.
  split; [reflexivity | now apply Forall_app].
Qed.

Lemma effect_bind Q {A} (a : M (proc AGENTSCompliance) unit)
      (b : M (proc AGENTSCompliance) A) :
  effect Q a -> effect Q b -> effect Q (a ;; b).
Proof.
  intros Ha Hb p.
  destruct (Ha p) as (ni & np & out & r & Ea & Qa).
  destruct r as [[]|e].
  - destruct (Hb (mkProc (mkChecker (issues (self p) ++ ni)
                                    (passed (self p) ++ np))
                         (stdout p ++ out)))
      as (ni' & np' & out' & r' & Eb & Qb).
    exists (ni ++ ni'), (np ++ np'), (out ++ out'), r'.
    unfold bind. rewrite Ea, Eb. simpl. rewrite !app_assoc.
    split; [reflexivity | now apply Forall_app].
  - exists ni, np, out, (Raise e). unfold bind. rewrite Ea.
    now split.
Qed.

Ltac ok_steps :=
  repeat first
    [ apply ok_bind
    | apply ok_ret
    | apply ok_print
    | apply ok_passed
    | apply ok_issue
    | match goal with
      | |- ok _ (if ?c then _ else _) => destruct c
      | |- ok _ (match ?x with _ => _ end) => destruct x
      end ].

(** The checks that only ever append pass messages. *)
Lemma union_types_ok Q filepath content :
  ok Q (_check_union_types filepath content).
Proof. unfold _check_union_types. ok_steps. Qed.

Lemma naming_ok Q filepath content :
  ok Q (_check_naming filepath content).
Proof. unfold _check_naming. ok_steps. Qed.

Lemma thread_safety_ok Q filepath content :
  ok Q (_check_thread_safety filepath content).
Proof. unfold _check_thread_safety. ok_steps. Qed.

Lemma logging_ok Q filepath content :
  ok Q (_check_logging filepath content).
Proof. unfold _check_logging. ok_steps. Qed.

(** The checks that may append one issue. *)
Lemma deprecated_typing_ok (Q : issue -> Prop) filepath content :
  (forall name, In name (map snd deprecated) ->
                Q (path_str filepath, deprecated_msg name, 2%Z)) ->
  ok Q (_check_no_deprecated_typing filepath content).
Proof.
  intros HQ. unfold _check_no_deprecated_typing.
  revert HQ. generalize deprecated as todo.
  induction todo as [|[pattern name] todo IH]; intros HQ; simpl.
  - apply ok_passed.
  - destruct (re_search pattern content).
    + apply ok_issue. apply HQ. now left.
    + apply IH. intros n Hn. apply HQ. now right.
Qed.

Lemma bare_except_ok (Q : issue -> Prop) filepath content :
  Q (path_str filepath, bare_except_msg, 2%Z) ->
  ok Q (_check_no_bare_except filepath content).
Proof. intros HQ. unfold _check_no_bare_except. ok_steps. exact HQ. Qed.

Lemma docstrings_ok (Q : issue -> Prop) filepath content :
  (forall n, Q (path_str filepath,
                lit "⚠️ Few docstrings found (" ++ str_of_nat n ++ lit ")",
                1%Z)) ->
  ok Q (_check_docstrings filepath content).
Proof. intros HQ. unfold _check_docstrings. ok_steps. apply HQ. Qed.

Lemma line_length_ok (Q : issue -> Prop) filepath content :
  (forall n, Q (path_str filepath,
                lit "⚠️ " ++ str_of_nat n
                    ++ lit " lines exceed 120 characters",
                1%Z)) ->
  ok Q (_check_line_length filepath content).
Proof. intros HQ. unfold _check_line_length. ok_steps. apply HQ. Qed.

Lemma isort_order_ok (Q : issue -> Prop) filepath content :
  Q (path_str filepath, lit "⚠️ Import order may not match isort", 1%Z) ->
  ok Q (_check_isort_order filepath content).
Proof. intros HQ. unfold _check_isort_order. ok_steps. exact HQ. Qed.

(** The type-hints check: it returns unless [ast.parse] raises
    something other than a [SyntaxError], and then the process is left
    as it was. *)
Lemma type_hints_effect (Q : issue -> Prop) filepath content :
  (forall e, Q (path_str filepath, lit "❌ Syntax error: " ++ exn_text e,
                2%Z)) ->
  effect Q (_check_type_hints filepath content).
Proof.
  intros HQ. unfold _check_type_hints.
  destruct (ast_parse content) as [nodes|e].
  - apply ok_effect. ok_steps.
  - destruct (isinstance_SyntaxError e).
    + apply ok_effect. now apply ok_issue.
    + intros [[i ps] o]. exists [], [], [], (Raise e). simpl.
      unfold raise. rewrite !app_nil_r. now split.
Qed.

Lemma type_hints_ok (Q : issue -> Prop) filepath content :
  (forall e, Q (path_str filepath, lit "❌ Syntax error: " ++ exn_text e,
                2%Z)) ->
  (forall e, ast_parse content = Raise e ->
             isinstance_SyntaxError e = true) ->
  ok Q (_check_type_hints filepath content).
Proof.
  intros HQ Hp. unfold _check_type_hints.
  destruct (ast_parse content) as [nodes|e].
  - ok_steps.
  - rewrite (Hp e eq_refl). now apply ok_issue.
Qed.

(* =================================================================== *)
(** * Facts about substrings and the matcher                            *)
(* =================================================================== *)

Lemma startswith_split (p s : str) :
  startswith p s = true -> exists post, s = p ++ post.
Proof.
  revert s. induction p as [|x p IH]; intros s H.
  - now exists s.
  - destruct s as [|y s]; [discriminate|]. simpl in H.
    apply andb_true_iff in H. destruct H as [Hxy H].
    apply N.eqb_eq in Hxy. subst y.
    destruct (IH s H) as [post ->]. now exists post.
Qed.

Lemma startswith_app (p post : str) : startswith p (p ++ post) = true.
Proof.
  induction p as [|x p IH]; simpl; [reflexivity|].
  now rewrite N.eqb_refl, IH.
Qed.

Lemma str_in_split (needle s : str) :
  str_in needle s = true -> exists pre post, s = pre ++ needle ++ post.
Proof.
  induction s as [|c s IH]; simpl; intros H.
  - rewrite orb_false_r in H.
    destruct (startswith_split _ _ H) as [post E].
    exists [], post. exact E.
  - apply orb_true_iff in H. destruct H as [H|H].
    + destruct (startswith_split _ _ H) as [post E].
      exists [], post. exact E.
    + destruct (IH H) as (pre & post & ->).
      now exists (c :: pre), post.
Qed.

Lemma str_in_app (needle pre post : str) :
  str_in needle (pre ++ needle ++ post) = true.
Proof.
  induction pre as [|c pre IH]; simpl.
  - pose proof (startswith_app needle post) as H.
    destruct (needle ++ post); simpl; now rewrite H.
  - rewrite IH. apply orb_true_r.
Qed.

Lemma search_from_app (r : regex) (pre s : str) (prev : option char) n :
  match_here r (prev_after prev pre) s = Some n ->
  search_from r prev (pre ++ s) = true.
Proof.
  revert prev. induction pre as [|c pre IH]; intros prev H; simpl in *.
  - destruct s; simpl; now rewrite H.
  - destruct (match_here r prev (c :: pre ++ s)); [reflexivity|].
    now apply IH.
Qed.

(** A greedy star never loses a match of what follows it. *)
Lemma match_star_some cs k prev s n :
  k prev s = Some n -> exists m, match_star cs k prev s = Some m.
Proof.
  intros H. destruct s as [|c s]; simpl.
  - now exists n.
  - destruct (cset_mem cs c); [|now exists n].
    destruct (match_star cs k (Some c) s) as [m|].
    + now exists (S m).
    + now exists n.
Qed.

Lemma match_star_step cs k prev c s m :
  cset_mem cs c = true ->
  match_star cs k (Some c) s = Some m ->
  match_star cs k prev (c :: s) = Some (S m).
Proof. intros Hc Hm. simpl. now rewrite Hc, Hm. Qed.

(** Literal characters at the head of a pattern consume themselves. *)
Lemma match_here_lit (l : str) (r : regex) (prev : option char) (s : str) :
  match_here (map ILit l ++ r) prev (l ++ s)
  = option_map (Nat.add (length l)) (match_here r (prev_after prev l) s).
Proof.
  revert prev. induction l as [|c l IH]; intros prev; simpl.
  - now destruct (match_here r prev s).
  - rewrite N.eqb_refl, IH.
    now destruct (match_here r (prev_after (Some c) l) s).
Qed.

Lemma bare_except_matches (pre post : str) :
  re_search bare_except_re (pre ++ lit "except:" ++ post) = true.
Proof.
  unfold re_search.
  apply search_from_app with (n := 7). reflexivity.
Qed.

Lemma optional_matches (pre post : str) :
  match post with [] => True | c :: _ => is_word c = false end ->
  re_search (deprecated_re "Optional")
            (pre ++ lit "from typing import Optional" ++ post) = true.
Proof.
  intros Hpost. unfold re_search.
  assert (Hk : match_here ([IWordB] ++ rlit "Optional" ++ [IWordB])
                          (Some 32%N) (lit "Optional" ++ post) = Some 8).
  { change (lit "Optional" ++ post)
      with (79 :: 112 :: 116 :: 105 :: 111 :: 110 :: 97 :: 108 :: post)%N.
    destruct post as [|c post]; [reflexivity|].
    cbn -[is_word]. cbn. rewrite Hpost. reflexivity. }
  destruct (match_star_some CAny _ _ _ _ Hk) as [m Hm].
  apply search_from_app with (n := 18 + S m).
  change (lit "from typing import Optional" ++ post)
    with (lit "from typing import" ++ 32%N :: lit "Optional" ++ post).
  change (deprecated_re "Optional")
    with (map ILit (lit "from typing import")
            ++ IStar CAny :: ([IWordB] ++ rlit "Optional" ++ [IWordB])).
  rewrite match_here_lit.
  change (match_here (IStar CAny :: ?r) ?q ?t)
    with (match_star CAny (match_here r) q t).
  erewrite match_star_step; [reflexivity | reflexivity | exact Hm].
Qed.

(** ** Triple-quoted blocks *)


Lemma docstring_no_match_off_quote prev c s :
  c <> DQ -> match_here docstring_re prev (c :: s) = None.
Proof.
  intros H. simpl. apply N.eqb_neq in H. now rewrite H.
Qed.

(** Scanning passes over text without double quotes. *)
Lemma findall_skip_quote_free sep rest prev :
  quote_free sep ->
  findall_from docstring_re 0 prev (sep ++ rest)
  = findall_from docstring_re 0 (prev_after prev sep) rest.
Proof.
  intros H. revert prev.
  induction H as [|c sep Hc Hsep IH]; intros prev; [reflexivity|].
  change ((c :: sep) ++ rest) with (c :: sep ++ rest).
  cbn [findall_from]. rewrite docstring_no_match_off_quote by assumption.
  apply IH.
Qed.





(* =================================================================== *)
(** * The compliance checker: a whole file and a whole run              *)
(* =================================================================== *)

Lemma check_file_read w filepath content p :
  read_text w filepath = Ret content ->
  check_file w filepath p
  = ten_checks filepath content
      (mkProc (self p) (stdout p ++ file_header filepath)).
Proof.
  intros H. unfold check_file.
  unfold bind at 1 2 3. unfold print at 1 2. unfold do_read_text.
  cbn [self stdout]. rewrite H, <- app_assoc. reflexivity.
Qed.

Lemma check_file_unreadable w filepath e p :
  read_text w filepath = Raise e ->
  check_file w filepath p
  = (mkProc (self p) (stdout p ++ file_header filepath), Raise e).
Proof.
  intros H. unfold check_file.
  unfold bind at 1 2 3. unfold print at 1 2. unfold do_read_text.
  cbn [self stdout]. rewrite H, <- app_assoc. reflexivity.
Qed.

Lemma deprecated_not_bare filepath name :
  In name (map snd deprecated) ->
  not_bare (path_str filepath, deprecated_msg name, 2%Z).
Proof.
  simpl. intros H.
  repeat (destruct H as [<-|H]; [reflexivity|]). destruct H.
Qed.

(** The checks that follow the bare-except check append nothing that
    carries its message. *)
Lemma later_checks_effect filepath content :
  effect not_bare
    (_check_type_hints filepath content ;;
     _check_naming filepath content ;;
     _check_docstrings filepath content ;;
     _check_line_length filepath content ;;
     _check_isort_order filepath content ;;
     _check_thread_safety filepath content ;;
     _check_logging filepath content).
Proof.
  apply effect_bind; [apply type_hints_effect; intros e; reflexivity|].
  apply ok_effect.
  apply ok_bind; [apply naming_ok|].
  apply ok_bind; [apply docstrings_ok; intros n; reflexivity|].
  apply ok_bind; [apply line_length_ok; intros n; reflexivity|].
  apply ok_bind; [apply isort_order_ok; reflexivity|].
  apply ok_bind; [apply thread_safety_ok | apply logging_ok].
Qed.

Lemma filter_app_nil {A} (f : A -> bool) (a b : list A) :
  filter f b = [] -> length (filter f (a ++ b)) = length (filter f a).
Proof.
  intros E. rewrite filter_app, length_app, E. simpl. apply Nat.add_0_r.
Qed.

Lemma bare_count_app (a b : list issue) :
  Forall not_bare b ->
  length (bare_except_issues (a ++ b)) = length (bare_except_issues a).
Proof.
  intros H.
  assert (E : bare_except_issues b = []).
  { apply filter_nil_iff. intros x Hx.
    rewrite Forall_forall in H. now apply H. }
  apply filter_app_nil. exact E.
Qed.

Lemma bare_count_snoc (a : list issue) filepath :
  length (bare_except_issues (a ++ [(filepath, bare_except_msg, 2%Z)]))
  = length (bare_except_issues a) + 1.
Proof.
  unfold bare_except_issues. rewrite filter_app, length_app.
  reflexivity.
Qed.

Lemma ten_checks_bare_count filepath content p :
  re_search bare_except_re content = true ->
  length (bare_except_issues
            (issues (self (after (ten_checks filepath content) p))))
  = length (bare_except_issues (issues (self p))) + 1.
Proof.
  intros Hre. unfold after, ten_checks.
  destruct (deprecated_typing_ok not_bare filepath content
              (deprecated_not_bare filepath) p)
    as (n1 & m1 & o1 & E1 & Q1).
  unfold bind at 1. rewrite E1.
  match goal with |- context [bind _ _ ?q] => set (p1 := q) end.
  destruct (union_types_ok not_bare filepath content p1)
    as (n2 & m2 & o2 & E2 & Q2).
  unfold bind at 1. rewrite E2.
  unfold bind at 1. unfold _check_no_bare_except. rewrite Hre.
  unfold issues_append at 1. cbn [self issues passed stdout].
  match goal with |- context [bind _ _ ?q] => set (p3 := q) end.
  destruct (later_checks_effect filepath content p3)
    as (n4 & m4 & o4 & r & E4 & Q4).
  rewrite E4. subst p3 p1. cbn [fst self issues].
  rewrite bare_count_app by assumption.
  rewrite bare_count_snoc.
  rewrite bare_count_app by assumption.
  rewrite bare_count_app by assumption.
  reflexivity.
Qed.

Lemma ten_checks_records_bare filepath content p :
  re_search bare_except_re content = true ->
  In (path_str filepath, bare_except_msg, 2%Z)
     (issues (self (after (ten_checks filepath content) p))).
Proof.
  intros Hre. unfold after, ten_checks.
  destruct (deprecated_typing_ok not_bare filepath content
              (deprecated_not_bare filepath) p)
    as (n1 & m1 & o1 & E1 & Q1).
  unfold bind at 1. rewrite E1.
  match goal with |- context [bind _ _ ?q] => set (p1 := q) end.
  destruct (union_types_ok not_bare filepath content p1)
    as (n2 & m2 & o2 & E2 & Q2).
  unfold bind at 1. rewrite E2.
  unfold bind at 1. unfold _check_no_bare_except. rewrite Hre.
  unfold issues_append at 1. cbn [self issues passed stdout].
  match goal with |- context [bind _ _ ?q] => set (p3 := q) end.
  destruct (later_checks_effect filepath content p3)
    as (n4 & m4 & o4 & r & E4 & Q4).
  rewrite E4. subst p3 p1. cbn [fst self issues].
  apply in_or_app. left. apply in_or_app. right. now left.
Qed.

Lemma ten_checks_ok filepath content :
  (forall e, ast_parse content = Raise e ->
             isinstance_SyntaxError e = true) ->
  ok any_issue (ten_checks filepath content).
Proof.
  intros Hp. unfold ten_checks.
  apply ok_bind; [apply deprecated_typing_ok; intros; exact I|].
  apply ok_bind; [apply union_types_ok|].
  apply ok_bind; [apply bare_except_ok; exact I|].
  apply ok_bind; [apply type_hints_ok; [intros; exact I | exact Hp]|].
  apply ok_bind; [apply naming_ok|].
  apply ok_bind; [apply docstrings_ok; intros; exact I|].
  apply ok_bind; [apply line_length_ok; intros; exact I|].
  apply ok_bind; [apply isort_order_ok; exact I|].
  apply ok_bind; [apply thread_safety_ok | apply logging_ok].
Qed.

Lemma main_turn_ok w filepath :
  checkable w filepath -> ok any_issue (main_turn w filepath).
Proof.
  intros Hc p. unfold main_turn.
  destruct (path_exists w filepath) eqn:Ex.
  - destruct Hc as [Hc | (content & Hr & Hp)]; [congruence|].
    rewrite (check_file_read _ _ _ _ Hr).
    destruct (ten_checks_ok filepath content Hp
                (mkProc (self p) (stdout p ++ file_header filepath)))
      as (ni & np & out & E & HQ).
    exists ni, np, (file_header filepath ++ out).
    rewrite E. cbn [self stdout]. rewrite app_assoc. now split.
  - apply ok_print.
Qed.

Lemma main_turn_records_bare w filepath content p :
  path_exists w filepath = true ->
  read_text w filepath = Ret content ->
  re_search bare_except_re content = true ->
  In (path_str filepath, bare_except_msg, 2%Z)
     (issues (self (after (main_turn w filepath) p))).
Proof.
  intros Ex Hr Hre. unfold after, main_turn. rewrite Ex.
  rewrite (check_file_read _ _ _ _ Hr).
  now apply ten_checks_records_bare.
Qed.

(** The loop of the [__main__] block over files that can be gone
    through: it returns, keeps the issues it had, and holds the
    bare-except issue of each file that has one. *)
Lemma main_loop w (files : list Path) :
  (forall g, In g files -> checkable w g) ->
  forall p, exists p',
    for_each files (main_turn w) p = (p', Ret tt)
    /\ (forall i, In i (issues (self p)) -> In i (issues (self p')))
    /\ (forall f content,
           In f files ->
           path_exists w f = true ->
           read_text w f = Ret content ->
           re_search bare_except_re content = true ->
           In (path_str f, bare_except_msg, 2%Z) (issues (self p'))).
Proof.
  induction files as [|g files IH]; intros Hc p.
  - exists p. split; [reflexivity|]. split; [auto|]. intros f c [].
  - pose proof (main_turn_ok w g (Hc g (or_introl eq_refl)) p)
      as (ni & np & out & E & _).
    destruct (IH (fun h Hh => Hc h (or_intror Hh))
                 (mkProc (mkChecker (issues (self p) ++ ni)
                                    (passed (self p) ++ np))
                         (stdout p ++ out)))
      as (p' & E' & Hkeep & Hbare).
    exists p'. cbn [for_each]. unfold bind. rewrite E, E'.
    split; [reflexivity|]. split.
    + intros i Hi. apply Hkeep. cbn [self issues].
      apply in_or_app. now left.
    + intros f content [<-|Hf] Ex Hr Hre.
      * apply Hkeep.
        pose proof (main_turn_records_bare w g content p Ex Hr Hre) as Hin.
        unfold after in Hin. rewrite E in Hin. exact Hin.
      * now apply (Hbare f content).
Qed.

Lemma compliance_main_eq w base_dir :
  compliance_main w base_dir
  = (for_each (files_to_check base_dir) (main_turn w) ;; report).
Proof. reflexivity. Qed.

(** A run over files that can be gone through returns an exit code. *)
Lemma run_compliance_returns w base_dir :
  (forall g, In g (files_to_check base_dir) -> checkable w g) ->
  exists code, snd (run_compliance w base_dir) = Ret code.
Proof.
  intros Hc. unfold run_compliance. rewrite compliance_main_eq.
  destruct (main_loop w _ Hc (mkProc __init__ [])) as (p' & E & _).
  unfold bind. rewrite E.
  destruct (report_returns p') as [out Hr]. rewrite Hr.
  eexists. reflexivity.
Qed.

(** C3. When the content of a file contains [except:], the bare-except
    check appends exactly one issue, of severity 2, and nothing else;
    among the issues that [check_file] leaves, those of the bare-except
    check are one more than before; and a run in which such a file is
    checked, the files being ones that the run can go through, exits
    with code 1. *)
Theorem bare_except_recorded (w : world) (filepath : Path) (content : str) :
  str_in (lit "except:") content = true ->
  (forall p,
      _check_no_bare_except filepath content p
      = (with_issue p (path_str filepath, bare_except_msg, 2%Z), Ret tt))
  /\ (read_text w filepath = Ret content ->
      forall p,
        length (bare_except_issues
                  (issues (self (after (check_file w filepath) p))))
        = length (bare_except_issues (issues (self p))) + 1)
  /\ (forall base_dir,
         In filepath (files_to_check base_dir) ->
         path_exists w filepath = true ->
         read_text w filepath = Ret content ->
         (forall g, In g (files_to_check base_dir) -> checkable w g) ->
         snd (run_compliance w base_dir) = Ret 1%Z).
Proof.
  intros Hin.
  destruct (str_in_split _ _ Hin) as (pre & post & ->).
  pose proof (bare_except_matches pre post) as Hre.
  split; [|split].
  - intros p. unfold _check_no_bare_except. rewrite Hre. reflexivity.
  - intros Hr p. unfold after. rewrite (check_file_read _ _ _ _ Hr).
    apply (ten_checks_bare_count filepath _
             (mkProc (self p) (stdout p ++ file_header filepath)) Hre).
  - intros base_dir Hf Ex Hr Hc.
    unfold run_compliance. rewrite compliance_main_eq.
    destruct (main_loop w _ Hc (mkProc __init__ [])) as (p' & E & _ & Hb).
    unfold bind. rewrite E.
    specialize (Hb filepath _ Hf Ex Hr Hre).
    destruct (report_returns p') as [out Hrep]. rewrite Hrep.
    cbn [snd]. f_equal.
    destruct (length (issues_of_severity 2 (self p')) =? 0) eqn:Z0;
      [|reflexivity].
    apply Nat.eqb_eq, length_zero_iff_nil in Z0.
    unfold issues_of_severity in Z0.
    rewrite filter_nil_iff in Z0. specialize (Z0 _ Hb). discriminate.
Qed.

Lemma deprecated_loop_hit filepath content todo p :
  existsb (fun pn => re_search (fst pn) content) todo = true ->
  exists name,
    In name (map snd todo)
    /\ deprecated_loop filepath content todo p
       = (with_issue p (path_str filepath, deprecated_msg name, 2%Z),
          Ret tt).
Proof.
  induction todo as [|[pattern name] todo IH]; simpl; [discriminate|].
  destruct (re_search pattern content) eqn:E; simpl.
  - intros _. exists name. split; [now left | reflexivity].
  - intros H. destruct (IH H) as (n & Hn & En).
    exists n. split; [now right | exact En].
Qed.

(** C4, as the code has it.  When the content contains
    [from typing import Optional] and the word [Optional] ends there
    (the content ends, or the next character is not a word character),
    the deprecated-typing check appends exactly one issue, of severity 2
    and naming one of the six deprecated imports, and nothing else,
    whatever else the content holds. *)
Theorem deprecated_optional_recorded (filepath : Path) (pre post : str)
        (p : proc AGENTSCompliance) :
  match post with [] => True | c :: _ => is_word c = false end ->
  exists name,
    In name (map snd deprecated)
    /\ _check_no_deprecated_typing filepath
         (pre ++ lit "from typing import Optional" ++ post) p
       = (with_issue p (path_str filepath, deprecated_msg name, 2%Z),
          Ret tt).
Proof.
  intros Hpost. unfold _check_no_deprecated_typing.
  apply deprecated_loop_hit.
  pose proof (optional_matches pre post Hpost) as Hopt.
  unfold deprecated. cbn [existsb fst]. rewrite Hopt.
  repeat match goal with
         | |- context [re_search ?r ?c] => destruct (re_search r c)
         end; reflexivity.
Qed.


Lemma ok_no_issue m p :
  ok no_issue m ->
  issues (self (after m p)) = issues (self p) /\ outcome m p = Ret tt.
Proof.
  intros H. destruct (H p) as (ni & np & out & E & HQ).
  unfold after, outcome. rewrite E. cbn [fst snd self issues].
  destruct ni as [|i ni]; [now rewrite app_nil_r|].
  inversion HQ as [|? ? F]. destruct F.
Qed.

(** C10. The union-types, thread-safety and logging checks return and
    leave the issues as they are, whatever the content.  The type-hints
    check leaves the issues as they are and returns whenever the file
    parses, whatever its functions lack; it changes the issues only
    when [ast.parse] raises a [SyntaxError]. *)
Theorem silent_checks (filepath : Path) (content : str)
        (p : proc AGENTSCompliance) :
  (issues (self (after (_check_union_types filepath content) p))
   = issues (self p)
   /\ outcome (_check_union_types filepath content) p = Ret tt)
  /\ (issues (self (after (_check_thread_safety filepath content) p))
      = issues (self p)
      /\ outcome (_check_thread_safety filepath content) p = Ret tt)
  /\ (issues (self (after (_check_logging filepath content) p))
      = issues (self p)
      /\ outcome (_check_logging filepath content) p = Ret tt)
  /\ (forall nodes,
         ast_parse content = Ret nodes ->
         issues (self (after (_check_type_hints filepath content) p))
         = issues (self p)
         /\ outcome (_check_type_hints filepath content) p = Ret tt
         /\ exists m,
             passed (self (after (_check_type_hints filepath content) p))
             = passed (self p) ++ [m])
  /\ (issues (self (after (_check_type_hints filepath content) p))
      <> issues (self p) ->
      exists e, ast_parse content = Raise e
                /\ isinstance_SyntaxError e = true).
Proof.
  split; [apply ok_no_issue, union_types_ok|].
  split; [apply ok_no_issue, thread_safety_ok|].
  split; [apply ok_no_issue, logging_ok|].
  unfold _check_type_hints, after, outcome. split.
  - intros nodes H. rewrite H.
    destruct (untyped_loop nodes []); cbn; (split; [reflexivity|]);
      (split; [reflexivity|]); eexists; reflexivity.
  - destruct (ast_parse content) as [nodes|e].
    + destruct (untyped_loop nodes []); cbn; intros H; now elim H.
    + destruct (isinstance_SyntaxError e) eqn:E.
      * intros _. now exists e.
      * cbn. intros H. now elim H.
Qed.

(* =================================================================== *)
(** * The integration verifier: what a run reports                      *)
(* =================================================================== *)

(** ** Each check as a verdict that is printed *)

(** The lines of the source are check lines. *)
Lemma check_line_pass n text :
  check_line true n text
  = lit "✅ Check " ++ str_of_Z n ++ lit ": " ++ text.
Proof.
  unfold check_line. generalize (str_of_Z n ++ lit ": " ++ text).
  intros rest. vm_compute. reflexivity.
Qed.

Lemma check_line_fail n text :
  check_line false n text
  = lit "❌ Check " ++ str_of_Z n ++ lit ": " ++ text.
Proof.
  unfold check_line. generalize (str_of_Z n ++ lit ": " ++ text).
  intros rest. vm_compute. reflexivity.
Qed.

Lemma file_failed_line text :
  lit ": " ++ lit "File check failed: " ++ text
  = lit ": File check failed: " ++ text.
Proof. vm_compute. reflexivity. Qed.

Lemma check_import_emit w module_path component_name check_num p :
  _check_import w module_path component_name check_num p
  = emit check_num (import_probe w module_path component_name) p.
Proof.
  unfold _check_import, import_probe, emit, or_else, try_except, bind,
    call, ret, raise, print.
  destruct (builtin_import w module_path [component_name]) as [o|e].
  - rewrite check_line_pass. reflexivity.
  - destruct (isinstance_ImportError e);
      [rewrite check_line_fail|]; reflexivity.
Qed.

Lemma check_inheritance_emit w p :
  _check_mainwindow_inheritance w p = emit 6 (inherit_probe w) p.
Proof.
  unfold _check_mainwindow_inheritance, inherit_probe, caught, emit,
    or_else, try_except, bind, call, ret, raise, print,
    main_window_module, mixin_module.
  destruct (import_from w _ (lit "MainWindow")) as [a|e];
    [|destruct (isinstance_Exception e); [rewrite check_line_fail|];
      vm_compute; reflexivity].
  destruct (import_from w _ (lit "PlaylistMembershipMixin")) as [b|e];
    [|destruct (isinstance_Exception e); [rewrite check_line_fail|];
      vm_compute; reflexivity].
  destruct (issubclass w a b) as [[|]|e];
    [vm_compute; reflexivity | vm_compute; reflexivity
     | destruct (isinstance_Exception e); [rewrite check_line_fail|];
       vm_compute; reflexivity].
Qed.

Lemma check_method_emit w p :
  _check_method_exists w p = emit 7 (method_probe w) p.
Proof.
  unfold _check_method_exists, method_probe, caught, emit,
    or_else, try_except, bind, call, ret, raise, print,
    main_window_module.
  destruct (import_from w _ (lit "MainWindow")) as [a|e];
    [|destruct (isinstance_Exception e); [rewrite check_line_fail|];
      vm_compute; reflexivity].
  destruct (hasattr w a _) as [[|]|e];
    [vm_compute; reflexivity | vm_compute; reflexivity
     | destruct (isinstance_Exception e); [rewrite check_line_fail|];
       vm_compute; reflexivity].
Qed.

Lemma check_file_content_emit w file_path search_str check_num
      success_msg fail_msg p :
  _check_file_content w file_path search_str check_num success_msg
                      fail_msg p
  = emit check_num
         (file_probe w file_path search_str success_msg fail_msg) p.
Proof.
  unfold _check_file_content, file_probe, caught, emit,
    try_except, bind, call, ret, raise, print.
  destruct (open_read w file_path) as [content|e].
  - destruct (str_in search_str content);
      [rewrite check_line_pass | rewrite check_line_fail]; reflexivity.
  - destruct (isinstance_Exception e); [|reflexivity].
    rewrite check_line_fail, file_failed_line. reflexivity.
Qed.

(** ** The run as a list of verdicts *)

Lemma emit_all_run l np nf (p : proc unit) :
  emit_all l np nf p
  = (mkProc (self p) (stdout p ++ emitted l), emit_result l np nf).
Proof.
  revert np nf p.
  induction l as [|[n [[okb text]|e]] l IH]; intros np nf p; simpl.
  - unfold ret. rewrite app_nil_r. now destruct p.
  - unfold bind, print, ret. simpl. rewrite IH. simpl.
    now rewrite <- app_assoc.
  - unfold bind, raise. rewrite app_nil_r. now destruct p.
Qed.

Lemma import_loop_emit w checks np nf p :
  import_loop w checks np nf p
  = emit_all
      (map (fun mcn => (snd mcn,
                        import_probe w (fst (fst mcn)) (snd (fst mcn))))
           checks)
      np nf p.
Proof.
  revert np nf p.
  induction checks as [|[[m c] n] checks IH]; intros np nf p; simpl.
  - reflexivity.
  - unfold bind at 1 2. rewrite check_import_emit.
    destruct (emit n (import_probe w m c) p) as [p' [pf|e]];
      [apply IH | reflexivity].
Qed.

Lemma emit_all_app l1 l2 np nf p :
  emit_all (l1 ++ l2) np nf p
  = (pf <- emit_all l1 np nf ;; emit_all l2 (fst pf) (snd pf)) p.
Proof.
  revert np nf p.
  induction l1 as [|[n r] l1 IH]; intros np nf p; simpl.
  - reflexivity.
  - unfold bind at 1 2 3.
    destruct (emit n r p) as [p' [pf|e]]; [|reflexivity].
    rewrite IH. reflexivity.
Qed.

Lemma bind_cong {S A B} (m m' : M S A) (k k' : A -> M S B) (s : S) :
  m s = m' s ->
  (forall a s', k a s' = k' a s') ->
  bind m k s = bind m' k' s.
Proof.
  intros Hm Hk. unfold bind. rewrite Hm.
  destruct (m' s) as [s' [a|e]]; [apply Hk | reflexivity].
Qed.

Lemma print_then {O A} (line : str) (k : unit -> M (proc O) A) p :
  bind (print line) k p = k tt (mkProc (self p) (stdout p ++ [line])).
Proof. reflexivity. Qed.

(** [integration_checks] prints its header and then the verdicts of
    the ten checks, counting from zero. *)
Lemma integration_checks_emit w project_root p :
  integration_checks w project_root p
  = emit_all (probes w project_root) 0 0
             (mkProc (self p) (stdout p ++ integration_header)).
Proof.
  unfold integration_checks. cbv zeta.
  rewrite !print_then. cbn [self stdout]. rewrite <- app_assoc.
  change ([?a] ++ [?b]) with [a; b]. fold integration_header.
  unfold probes. rewrite emit_all_app.
  apply bind_cong; [apply import_loop_emit | intros pf1 s1].
  cbn [emit_all].
  apply bind_cong; [apply check_inheritance_emit | intros pf2 s2].
  apply bind_cong; [apply check_method_emit | intros pf3 s3].
  apply bind_cong; [apply check_file_content_emit | intros pf4 s4].
  apply bind_cong; [apply check_file_content_emit | intros pf5 s5].
  apply bind_cong; [apply check_file_content_emit | intros pf6 s6].
  reflexivity.
Qed.

Lemma integration_summary_run np nf (p : proc unit) :
  integration_summary np nf p
  = (mkProc (self p) (stdout p ++ summary_lines np nf),
     Ret (if (nf =? 0)%Z then 0%Z else 1%Z)).
Proof.
  unfold integration_summary, summary_lines.
  rewrite !print_then. cbn [self stdout].
  destruct (nf =? 0)%Z; rewrite print_then; cbn [self stdout];
    unfold ret; rewrite <- !app_assoc; reflexivity.
Qed.

(** The whole run: the header, the verdicts up to the first raise,
    and, when nothing was raised, the summary and the exit code. *)
Lemma run_integration_shape w project_root :
  run_integration w project_root
  = match emit_result (probes w project_root) 0 0 with
    | Ret (np, nf) =>
        (mkProc tt (integration_header
                      ++ emitted (probes w project_root)
                      ++ summary_lines np nf),
         Ret (if (nf =? 0)%Z then 0%Z else 1%Z))
    | Raise e =>
        (mkProc tt (integration_header
                      ++ emitted (probes w project_root)),
         Raise e)
    end.
Proof.
  unfold run_integration, check_integration.
  unfold bind. rewrite integration_checks_emit, emit_all_run.
  cbn [self stdout app].
  destruct (emit_result (probes w project_root) 0 0) as [[np nf]|e].
  - rewrite integration_summary_run. cbn [self stdout fst snd].
    now rewrite <- !app_assoc.
  - reflexivity.
Qed.

(** ** Reading the verdicts back from the output *)

Lemma check_number_cases (n : Z) :
  (1 <= n <= 10)%Z ->
  In n [1; 2; 3; 4; 5; 6; 7; 8; 9; 10]%Z.
Proof.
  intros H. simpl.
  assert (n = 1 \/ n = 2 \/ n = 3 \/ n = 4 \/ n = 5 \/ n = 6 \/ n = 7
          \/ n = 8 \/ n = 9 \/ n = 10)%Z by lia.
  intuition auto.
Qed.

Lemma verdict_of_check_line n m okb text :
  (1 <= n <= 10)%Z -> (1 <= m <= 10)%Z ->
  verdict_line n (check_line okb m text)
  = if (n =? m)%Z then Some okb else None.
Proof.
  intros Hn Hm.
  apply check_number_cases in Hn. apply check_number_cases in Hm.
  simpl in Hn, Hm.
  repeat (destruct Hn as [<-|Hn]);
    try (destruct Hn);
    repeat (destruct Hm as [<-|Hm]);
    try (destruct Hm);
    destruct okb; vm_compute; reflexivity.
Qed.

Lemma reported_skip n pre rest :
  (forall line, In line pre -> verdict_line n line = None) ->
  reported n (pre ++ rest) = reported n rest.
Proof.
  induction pre as [|l pre IH]; intros H; simpl; [reflexivity|].
  rewrite (H l (or_introl eq_refl)). apply IH.
  intros line Hin. apply H. now right.
Qed.

Lemma header_no_verdict n line :
  In line integration_header -> verdict_line n line = None.
Proof.
  intros [<-|[<-|[]]]; unfold verdict_line.
  - generalize (str_of_Z n ++ lit ":"). intros x. vm_compute. reflexivity.
  - generalize (str_of_Z n ++ lit ":"). intros x. vm_compute. reflexivity.
Qed.

Lemma summary_no_verdict n np nf line :
  In line (summary_lines np nf) -> verdict_line n line = None.
Proof.
  unfold summary_lines.
  intros [<-|[<-|[<-|[]]]]; unfold verdict_line;
    generalize (str_of_Z n ++ lit ":"); intros x.
  - vm_compute. reflexivity.
  - generalize (str_of_Z np ++ lit " ✅  /  " ++ str_of_Z nf
                           ++ lit " ❌" ++ [NL]).
    intros y. vm_compute. reflexivity.
  - destruct (nf =? 0)%Z; [vm_compute; reflexivity|].
    generalize (str_of_Z nf ++ lit " problème(s) détecté(s)").
    intros y. vm_compute. reflexivity.
Qed.

Lemma reported_emitted n l rest :
  (1 <= n <= 10)%Z -> numbered l ->
  reported n (emitted l ++ rest)
  = match find_emitted n l with
    | Some okb => Some okb
    | None => reported n rest
    end.
Proof.
  intros Hn. induction l as [|[m [[okb text]|e]] l IH]; intros Hl.
  - reflexivity.
  - cbn [emitted find_emitted app reported].
    rewrite verdict_of_check_line;
      [|assumption | apply Hl; now left].
    destruct (n =? m)%Z; [reflexivity|].
    apply IH. intros k Hk. apply Hl. now right.
  - reflexivity.
Qed.

Lemma probes_numbers w project_root :
  map fst (probes w project_root) = [1; 2; 3; 4; 5; 6; 7; 8; 9; 10]%Z.
Proof. reflexivity. Qed.

Lemma probes_numbered w project_root : numbered (probes w project_root).
Proof.
  intros m. rewrite probes_numbers. simpl. intuition lia.
Qed.

(** What a run reports for a check is the verdict that its list of
    probes gets to. *)
Lemma reported_run w project_root n :
  (1 <= n <= 10)%Z ->
  reported n (stdout (fst (run_integration w project_root)))
  = find_emitted n (probes w project_root).
Proof.
  intros Hn. rewrite run_integration_shape.
  destruct (emit_result (probes w project_root) 0 0) as [[np nf]|e];
    cbn [fst stdout];
    rewrite (reported_skip n _ _ (header_no_verdict n)).
  - rewrite reported_emitted by (assumption || apply probes_numbered).
    destruct (find_emitted n (probes w project_root)); [reflexivity|].
    rewrite <- (app_nil_r (summary_lines np nf)).
    rewrite (reported_skip n _ _ (summary_no_verdict n np nf)).
    reflexivity.
  - rewrite <- (app_nil_r (emitted _)).
    rewrite reported_emitted by (assumption || apply probes_numbered).
    now destruct (find_emitted n (probes w project_root)).
Qed.

(** ** Counting *)

Lemma emit_result_counts l np nf np' nf' :
  emit_result l np nf = Ret (np', nf') ->
  (np' + nf' = np + nf + Z.of_nat (length l))%Z
  /\ (np <= np')%Z
  /\ (nf <= nf')%Z
  /\ (nf' = nf <-> all_pass l = true).
Proof.
  revert np nf.
  induction l as [|[m [[okb text]|e]] l IH]; intros np nf H.
  - simpl in H. inversion H; subst. simpl.
    split; [lia|]. split; [lia|]. split; [lia|]. tauto.
  - cbn [emit_result] in H. apply IH in H.
    destruct H as (Hsum & Hnp & Hle & Hiff).
    cbn [all_pass forallb snd length].
    destruct okb; cbn [tally_of fst snd] in *.
    + split; [lia|]. split; [lia|]. split; [lia|].
      rewrite Z.add_0_r in Hiff. exact Hiff.
    + split; [lia|]. split; [lia|]. split; [lia|].
      split; [lia | discriminate].
  - discriminate.
Qed.

Lemma emit_result_raise l np nf e :
  emit_result l np nf = Raise e -> all_pass l = false.
Proof.
  revert np nf.
  induction l as [|[m [[okb text]|e']] l IH]; intros np nf H.
  - discriminate.
  - cbn [emit_result] in H. apply IH in H.
    cbn [all_pass forallb snd]. fold (all_pass l). rewrite H.
    apply andb_false_r.
  - reflexivity.
Qed.

Lemma all_pass_found l n :
  all_pass l = true -> In n (map fst l) -> find_emitted n l = Some true.
Proof.
  induction l as [|[m [[okb text]|e]] l IH]; simpl; intros Hall Hin.
  - destruct Hin.
  - destruct okb; [|discriminate].
    destruct (Z.eqb_spec n m) as [E|E]; [reflexivity|].
    destruct Hin as [Hin|Hin]; [congruence | now apply IH].
  - discriminate.
Qed.

Lemma found_all_pass l :
  NoDup (map fst l) ->
  (forall n, In n (map fst l) -> find_emitted n l = Some true) ->
  all_pass l = true.
Proof.
  induction l as [|[m r] l IH]; intros Hnd H; [reflexivity|].
  simpl in Hnd. inversion Hnd as [|? ? Hm Hnd']; subst.
  pose proof (H m (or_introl eq_refl)) as Hhead.
  destruct r as [[okb text]|e]; simpl in Hhead; [|discriminate].
  rewrite Z.eqb_refl in Hhead. injection Hhead as ->.
  cbn [all_pass forallb snd andb]. apply IH; [assumption|].
  intros n Hn. specialize (H n (or_intror Hn)). simpl in H.
  destruct (Z.eqb_spec n m) as [E|E]; [subst; contradiction | exact H].
Qed.

Lemma probes_nodup w project_root :
  NoDup (map fst (probes w project_root)).
Proof.
  rewrite probes_numbers.
  repeat (constructor; [simpl; intuition discriminate|]). constructor.
Qed.

Lemma in_check_numbers w project_root n :
  In n (map fst (probes w project_root)) <-> (1 <= n <= 10)%Z.
Proof.
  rewrite probes_numbers. split.
  - simpl. intuition lia.
  - apply check_number_cases.
Qed.

Lemma Ret_inj {A} (a b : A) : Ret a = Ret b -> a = b.
Proof. intros H. now injection H. Qed.

(** The exit code and what the run reports. *)
Lemma exit_code_reported (w : world) (project_root : Path) :
  (snd (run_integration w project_root) = Ret 0%Z <->
   forall n, (1 <= n <= 10)%Z ->
             reported n (stdout (fst (run_integration w project_root)))
             = Some true)
  /\ (snd (run_integration w project_root) = Ret 0%Z <->
      exists checks_passed,
        outcome (integration_checks w project_root) (mkProc tt [])
        = Ret (checks_passed, 0%Z))
  /\ (forall code,
         snd (run_integration w project_root) = Ret code ->
         code = 0%Z \/ code = 1%Z).
Proof.
  assert (Hrep : (forall n, (1 <= n <= 10)%Z ->
                    reported n
                      (stdout (fst (run_integration w project_root)))
                    = Some true)
                 <-> all_pass (probes w project_root) = true).
  { split.
    - intros H. apply found_all_pass; [apply probes_nodup|].
      intros n Hn. apply in_check_numbers in Hn.
      rewrite <- reported_run by assumption. now apply H.
    - intros H n Hn. rewrite reported_run by assumption.
      apply all_pass_found; [assumption | now apply in_check_numbers]. }
  unfold outcome. rewrite integration_checks_emit, emit_all_run.
  cbn [snd]. rewrite Hrep, run_integration_shape.
  destruct (emit_result (probes w project_root) 0 0) as [[np nf]|e] eqn:E.
  - apply emit_result_counts in E. destruct E as (_ & _ & _ & Hiff).
    cbn [snd]. destruct (Z.eqb_spec nf 0) as [Z0|Z0].
    + subst nf. split; [|split].
      * split; [intros _; now apply Hiff | reflexivity].
      * split; [intros _; now exists np | reflexivity].
      * intros code H. injection H as <-. now left.
    + split; [|split].
      * split; [discriminate|]. intros H. apply Hiff in H. congruence.
      * split; [discriminate|]. intros [x H]. congruence.
      * intros code H. injection H as <-. now right.
  - apply emit_result_raise in E. cbn [snd]. split; [|split].
    + split; [discriminate | congruence].
    + split; [discriminate|]. intros [x H]. discriminate.
    + discriminate.
Qed.

Lemma exit_zero_all_pass w project_root :
  snd (run_integration w project_root) = Ret 0%Z
  <-> all_pass (probes w project_root) = true.
Proof.
  rewrite run_integration_shape.
  destruct (emit_result (probes w project_root) 0 0) as [[np nf]|e] eqn:E.
  - apply emit_result_counts in E. destruct E as (_ & _ & _ & Hiff).
    cbn [snd]. destruct (Z.eqb_spec nf 0) as [Z0|Z0].
    + split; [intros _; now apply Hiff | reflexivity].
    + split; [discriminate|]. intros H. apply Hiff in H. congruence.
  - apply emit_result_raise in E. cbn [snd].
    split; [discriminate | congruence].
Qed.

Lemma all_pass_forall l :
  all_pass l = true
  <-> forall n r, In (n, r) l -> exists text, r = Ret (true, text).
Proof.
  induction l as [|[m r0] l IH].
  - split; [intros _ n r [] | reflexivity].
  - unfold all_pass in *. cbn [forallb snd].
    destruct r0 as [[[|] t]|e]; cbn [andb].
    + split; intros H.
      * intros n r [E|Hin].
        -- apply pair_equal_spec in E. destruct E as [_ <-]. now exists t.
        -- now apply (proj1 IH H n r).
      * apply IH. intros n r Hin. apply (H n r). now right.
    + split; [discriminate|]. intros H.
      destruct (H m _ (or_introl eq_refl)) as [t' E]. discriminate E.
    + split; [discriminate|]. intros H.
      destruct (H m _ (or_introl eq_refl)) as [t' E]. discriminate E.
Qed.

Lemma emit_passes n r p :
  snd (emit n r p) = Ret (1, 0)%Z <-> exists text, r = Ret (true, text).
Proof.
  unfold emit. destruct r as [[[|] t]|e];
    unfold bind, print, ret, raise; cbn [snd tally_of].
  - split; [intros _; now exists t | reflexivity].
  - split; [discriminate | intros [t' H]; discriminate H].
  - split; [discriminate | intros [t' H]; discriminate H].
Qed.

Lemma import_probe_passes w module_path component_name :
  (exists text, import_probe w module_path component_name
                = Ret (true, text))
  <-> exists module, builtin_import w module_path [component_name]
                     = Ret module.
Proof.
  unfold import_probe.
  destruct (builtin_import w module_path [component_name]) as [o|e].
  - split; intros _; eexists; reflexivity.
  - split.
    + destruct (isinstance_ImportError e); intros [t H]; discriminate H.
    + intros [o H]. discriminate H.
Qed.

Lemma inherit_probe_passes w :
  (exists text, inherit_probe w = Ret (true, text))
  <-> exists a b,
        import_from w main_window_module (lit "MainWindow") = Ret a
        /\ import_from w mixin_module (lit "PlaylistMembershipMixin")
           = Ret b
        /\ issubclass w a b = Ret true.
Proof.
  unfold inherit_probe, caught.
  destruct (import_from w main_window_module _) as [a|e] eqn:Ea.
  2:{ split.
      - destruct (isinstance_Exception e); intros [t H]; discriminate H.
      - intros (a & b & H & _). discriminate H. }
  destruct (import_from w mixin_module _) as [b|e] eqn:Eb.
  2:{ split.
      - destruct (isinstance_Exception e); intros [t H]; discriminate H.
      - intros (a' & b' & _ & H & _). discriminate H. }
  destruct (issubclass w a b) as [[|]|e] eqn:Es.
  - split; intros _; [exists a, b; now repeat split | eexists; reflexivity].
  - split; [intros [t H]; discriminate H|].
    intros (a' & b' & Ha & Hb & H).
    apply Ret_inj in Ha. apply Ret_inj in Hb. subst a' b'. congruence.
  - split.
    + destruct (isinstance_Exception e); intros [t H]; discriminate H.
    + intros (a' & b' & Ha & Hb & H).
      apply Ret_inj in Ha. apply Ret_inj in Hb. subst a' b'. congruence.
Qed.

Lemma method_probe_passes w :
  (exists text, method_probe w = Ret (true, text))
  <-> exists a,
        import_from w main_window_module (lit "MainWindow") = Ret a
        /\ hasattr w a (lit "init_playlist_membership_manager") = Ret true.
Proof.
  unfold method_probe, caught.
  destruct (import_from w main_window_module _) as [a|e] eqn:Ea.
  2:{ split.
      - destruct (isinstance_Exception e); intros [t H]; discriminate H.
      - intros (a & H & _). discriminate H. }
  destruct (hasattr w a _) as [[|]|e] eqn:Eh.
  - split; intros _; [exists a; now split | eexists; reflexivity].
  - split; [intros [t H]; discriminate H|].
    intros (a' & Ha & H). apply Ret_inj in Ha. subst a'. congruence.
  - split.
    + destruct (isinstance_Exception e); intros [t H]; discriminate H.
    + intros (a' & Ha & H). apply Ret_inj in Ha. subst a'. congruence.
Qed.

Lemma file_probe_passes w file_path search_str success_msg fail_msg :
  (exists text, file_probe w file_path search_str success_msg fail_msg
                = Ret (true, text))
  <-> exists pre post,
        open_read w file_path = Ret (pre ++ search_str ++ post).
Proof.
  unfold file_probe, caught.
  destruct (open_read w file_path) as [content|e].
  - destruct (str_in search_str content) eqn:Hs.
    + destruct (str_in_split _ _ Hs) as (pre & post & E).
      split; intros _; [exists pre, post; now rewrite E
                       | eexists; reflexivity].
    + split; [intros [t H]; discriminate H|].
      intros (pre & post & E). apply Ret_inj in E. subst content.
      rewrite str_in_app in Hs. discriminate Hs.
  - split.
    + destruct (isinstance_Exception e); intros [t H]; discriminate H.
    + intros (pre & post & H). discriminate H.
Qed.

Lemma check_import_passes w module_path component_name check_num :
  passes (_check_import w module_path component_name check_num)
  <-> exists module, builtin_import w module_path [component_name]
                     = Ret module.
Proof.
  split.
  - intros H. specialize (H (mkProc tt [])).
    rewrite check_import_emit in H.
    now apply emit_passes, import_probe_passes in H.
  - intros H p. rewrite check_import_emit.
    now apply emit_passes, import_probe_passes.
Qed.

Lemma check_inheritance_passes w :
  passes (_check_mainwindow_inheritance w)
  <-> exists text, inherit_probe w = Ret (true, text).
Proof.
  split.
  - intros H. specialize (H (mkProc tt [])).
    rewrite check_inheritance_emit in H. now apply emit_passes in H.
  - intros H p. rewrite check_inheritance_emit. now apply emit_passes.
Qed.

Lemma check_method_passes w :
  passes (_check_method_exists w)
  <-> exists text, method_probe w = Ret (true, text).
Proof.
  split.
  - intros H. specialize (H (mkProc tt [])).
    rewrite check_method_emit in H. now apply emit_passes in H.
  - intros H p. rewrite check_method_emit. now apply emit_passes.
Qed.

Lemma check_file_content_passes w file_path search_str check_num
      success_msg fail_msg :
  passes (_check_file_content w file_path search_str check_num
                              success_msg fail_msg)
  <-> exists text, file_probe w file_path search_str success_msg fail_msg
                   = Ret (true, text).
Proof.
  split.
  - intros H. specialize (H (mkProc tt [])).
    rewrite check_file_content_emit in H. now apply emit_passes in H.
  - intros H p. rewrite check_file_content_emit. now apply emit_passes.
Qed.

(** The ten checks pass exactly when what they look for is there. *)
Lemma checks_world w project_root :
  ten_checks_pass w project_root <-> world_integrated w project_root.
Proof.
  unfold ten_checks_pass, world_integrated. split.
  - intros (Hi & H6 & H7 & H8 & H9 & H10).
    split; [|split; [|split; [|split; [|split]]]].
    + intros m c n Hin. now apply (check_import_passes w m c n), Hi.
    + now apply inherit_probe_passes, check_inheritance_passes.
    + now apply method_probe_passes, check_method_passes.
    + apply check_file_content_passes, file_probe_passes in H8. exact H8.
    + apply check_file_content_passes, file_probe_passes in H9. exact H9.
    + apply check_file_content_passes, file_probe_passes in H10. exact H10.
  - intros (Hi & H6 & H7 & H8 & H9 & H10).
    split; [|split; [|split; [|split; [|split]]]].
    + intros m c n Hin. apply check_import_passes. now apply (Hi m c n).
    + now apply check_inheritance_passes, inherit_probe_passes.
    + now apply check_method_passes, method_probe_passes.
    + apply check_file_content_passes, file_probe_passes. exact H8.
    + apply check_file_content_passes, file_probe_passes. exact H9.
    + apply check_file_content_passes, file_probe_passes. exact H10.
Qed.

(** The verdicts of a run are all passes exactly when what the checks
    look for is there. *)
Lemma all_pass_world w project_root :
  all_pass (probes w project_root) = true
  <-> world_integrated w project_root.
Proof.
  rewrite all_pass_forall. unfold world_integrated. split.
  - intros H. split; [|split; [|split; [|split; [|split]]]].
    + intros m c n Hin. apply import_probe_passes. apply (H n).
      unfold probes. apply in_or_app. left.
      exact (in_map (fun mcn => (snd mcn,
                                 import_probe w (fst (fst mcn))
                                              (snd (fst mcn))))
                    import_checks (m, c, n) Hin).
    + apply inherit_probe_passes. apply (H 6%Z).
      unfold probes. apply in_or_app. right. cbn [In].
      left. reflexivity.
    + apply method_probe_passes. apply (H 7%Z).
      unfold probes. apply in_or_app. right. cbn [In].
      right. left. reflexivity.
    + eapply file_probe_passes. apply (H 8%Z).
      unfold probes. apply in_or_app. right. cbn [In].
      do 2 right. left. reflexivity.
    + eapply file_probe_passes. apply (H 9%Z).
      unfold probes. apply in_or_app. right. cbn [In].
      do 3 right. left. reflexivity.
    + eapply file_probe_passes. apply (H 10%Z).
      unfold probes. apply in_or_app. right. cbn [In].
      do 4 right. left. reflexivity.
  - intros (Hi & H6 & H7 & H8 & H9 & H10) n r Hin.
    unfold probes in Hin. apply in_app_or in Hin.
    destruct Hin as [Hin|Hin].
    + apply in_map_iff in Hin. destruct Hin as ([[m c] k] & E & Hin).
      cbn [fst snd] in E. apply pair_equal_spec in E.
      destruct E as [_ <-]. apply import_probe_passes.
      now apply (Hi m c k).
    + cbn [In] in Hin.
      destruct Hin as [E|[E|[E|[E|[E|[]]]]]];
        apply pair_equal_spec in E; destruct E as [_ <-].
      * now apply inherit_probe_passes.
      * now apply method_probe_passes.
      * apply file_probe_passes. exact H8.
      * apply file_probe_passes. exact H9.
      * apply file_probe_passes. exact H10.
Qed.

(** C2. [check_integration] returns exit code 0 exactly when each of
    the ten checks that it runs passes, that is returns [(1, 0)]; these
    pass exactly when what they look for is there: the five imports
    return, [MainWindow] can be imported and is a subclass of the mixin
    and has the method, and the three files can be read and hold their
    strings.  It is also exactly when the run reports every one of the
    ten checks as passed, and exactly when the count of failed checks
    that its ten checks come to is zero; a run that returns another way
    returns 1. *)
Theorem check_integration_exit_code (w : world) (project_root : Path) :
  (snd (run_integration w project_root) = Ret 0%Z <->
   forall n, (1 <= n <= 10)%Z ->
             reported n (stdout (fst (run_integration w project_root)))
             = Some true)
  /\ (snd (run_integration w project_root) = Ret 0%Z <->
      exists checks_passed,
        outcome (integration_checks w project_root) (mkProc tt [])
        = Ret (checks_passed, 0%Z))
  /\ (forall code,
         snd (run_integration w project_root) = Ret code ->
         code = 0%Z \/ code = 1%Z)
  /\ (snd (run_integration w project_root) = Ret 0%Z <->
      ten_checks_pass w project_root)
  /\ (snd (run_integration w project_root) = Ret 0%Z <->
      world_integrated w project_root)
  /\ (forall code,
         snd (run_integration w project_root) = Ret code ->
         code = 1%Z ->
         ~ ten_checks_pass w project_root).
Proof.
  destruct (exit_code_reported w project_root) as (H1 & H2 & H3).
  pose proof (exit_zero_all_pass w project_root) as Hz.
  pose proof (all_pass_world w project_root) as Hw.
  pose proof (checks_world w project_root) as Hc.
  split; [exact H1|]. split; [exact H2|]. split; [exact H3|].
  split; [|split].
  - split; intros H.
    + now apply Hc, Hw, Hz.
    + now apply Hz, Hw, Hc.
  - split; intros H.
    + now apply Hw, Hz.
    + now apply Hz, Hw.
  - intros code Hr -> Hp. apply Hc, Hw, Hz in Hp. congruence.
Qed.

(** ** Independence *)

Lemma inherit_probe_same w1 w2 project_root :
  same_inputs 6 project_root w1 w2 -> inherit_probe w1 = inherit_probe w2.
Proof.
  intros (H1 & H2 & H3). unfold inherit_probe. rewrite H1, H2.
  destruct (import_from w2 main_window_module _) as [a|e]; [|reflexivity].
  destruct (import_from w2 mixin_module _) as [b|e]; [|reflexivity].
  now rewrite H3.
Qed.

Lemma method_probe_same w1 w2 project_root :
  same_inputs 7 project_root w1 w2 -> method_probe w1 = method_probe w2.
Proof.
  intros (H1 & H2). unfold method_probe. rewrite H1.
  destruct (import_from w2 main_window_module _) as [a|e]; [|reflexivity].
  now rewrite H2.
Qed.

Lemma import_probe_same w1 w2 module_path component_name :
  builtin_import w1 module_path [component_name]
  = builtin_import w2 module_path [component_name] ->
  import_probe w2 module_path component_name
  = import_probe w1 module_path component_name.
Proof. intros H. unfold import_probe. now rewrite H. Qed.

Lemma file_probe_same w1 w2 file_path search_str success_msg fail_msg :
  open_read w1 file_path = open_read w2 file_path ->
  file_probe w2 file_path search_str success_msg fail_msg
  = file_probe w1 file_path search_str success_msg fail_msg.
Proof. intros H. unfold file_probe. now rewrite H. Qed.

Lemma key_functional {A} (l : list (Z * A)) k a b :
  NoDup (map fst l) -> In (k, a) l -> In (k, b) l -> a = b.
Proof.
  induction l as [|[m x] l IH]; simpl; intros Hnd Ha Hb; [destruct Ha|].
  inversion Hnd as [|? ? Hm Hnd']; subst.
  destruct Ha as [Ha|Ha], Hb as [Hb|Hb].
  - congruence.
  - injection Ha as -> ->. elim Hm.
    change k with (fst (k, b)). now apply in_map.
  - injection Hb as -> ->. elim Hm.
    change k with (fst (k, a)). now apply in_map.
  - now apply IH.
Qed.


(** The list of probes, entry by entry. *)
Lemma probes_explicit w project_root :
  probes w project_root
  = [ (1%Z, import_probe w (lit "tidal_dl_ng.gui.playlist_membership_mixin")
              (lit "PlaylistMembershipMixin"));
      (2%Z, import_probe w (lit "tidal_dl_ng.gui.playlist_membership")
              (lit "PlaylistContextLoader"));
      (3%Z, import_probe w (lit "tidal_dl_ng.gui.playlist_membership")
              (lit "ThreadSafePlaylistCache"));
      (4%Z, import_probe w (lit "tidal_dl_ng.gui.playlist_membership")
              (lit "PlaylistColumnDelegate"));
      (5%Z, import_probe w (lit "tidal_dl_ng.ui.dialog_playlist_manager")
              (lit "PlaylistManagerDialog"));
      (6%Z, inherit_probe w);
      (7%Z, method_probe w);
      (8%Z, file_probe w (gui_file project_root (lit "trees_results.py"))
              (lit "child_playlists")
              (lit "child_playlists column added to TreesResultsMixin")
              (lit "child_playlists column NOT found in TreesResultsMixin"));
      (9%Z, file_probe w (gui_file project_root (lit "tidal_session.py"))
              (lit "init_playlist_membership_manager")
              (lit "init_playlist_membership_manager called in init_tidal")
              (lit "init_playlist_membership_manager NOT called in init_tidal"));
      (10%Z, file_probe w
               (gui_file project_root (lit "playlist_membership_mixin.py"))
               (lit "PlaylistCellState")
               (lit "PlaylistCellState imported in mixin")
               (lit "PlaylistCellState NOT imported in mixin")) ].
Proof.
  unfold probes, import_checks. cbn [map app fst snd]. reflexivity.
Qed.

Tactic Notation "entry" integer(k) :=
  rewrite probes_explicit; cbn [In]; do k right; left; reflexivity.


Lemma find_emitted_in n l okb :
  find_emitted n l = Some okb -> exists text, In (n, Ret (okb, text)) l.
Proof.
  induction l as [|[m [[b text]|e]] l IH]; simpl; intros H.
  - discriminate.
  - destruct (Z.eqb_spec n m) as [E|E].
    + injection H as <-. subst m. exists text. now left.
    + destruct (IH H) as [t Ht]. exists t. now right.
  - discriminate.
Qed.

Lemma emit_result_found l np nf x n :
  emit_result l np nf = Ret x ->
  In n (map fst l) ->
  exists okb, find_emitted n l = Some okb.
Proof.
  revert np nf.
  induction l as [|[m [[b text]|e]] l IH]; simpl; intros np nf H Hin.
  - destruct Hin.
  - destruct (Z.eqb_spec n m) as [E|E]; [now exists b|].
    destruct Hin as [Hin|Hin]; [congruence|].
    now apply IH with (np := (np + fst (tally_of b))%Z)
                      (nf := (nf + snd (tally_of b))%Z).
  - discriminate.
Qed.

Lemma run_returns_result w project_root code :
  snd (run_integration w project_root) = Ret code ->
  exists x, emit_result (probes w project_root) 0 0 = Ret x.
Proof.
  rewrite run_integration_shape.
  destruct (emit_result (probes w project_root) 0 0) as [x|e];
    [now exists x | discriminate].
Qed.


Lemma emit_returns n r p p' pf :
  emit n r p = (p', Ret pf) -> pf = (1, 0)%Z \/ pf = (0, 1)%Z.
Proof.
  unfold emit. destruct r as [[okb text]|e].
  - unfold bind, print, ret. intros H. injection H as _ <-.
    destruct okb; [now left | now right].
  - unfold raise. discriminate.
Qed.

Lemma caught_returns prefix e :
  isinstance_Exception e = true -> exists x, caught prefix e = Ret x.
Proof. intros H. unfold caught. rewrite H. eexists. reflexivity. Qed.

Lemma import_probe_returns w module_path component_name :
  well_behaved w -> exists x, import_probe w module_path component_name = Ret x.
Proof.
  intros (H & _). unfold import_probe.
  destruct (builtin_import w module_path [component_name]) as [o|e] eqn:E.
  - eexists. reflexivity.
  - rewrite (H _ _ _ E). eexists. reflexivity.
Qed.

Lemma inherit_probe_returns w :
  well_behaved w -> exists x, inherit_probe w = Ret x.
Proof.
  intros (_ & Hf & Hs & _). unfold inherit_probe.
  destruct (import_from w main_window_module _) as [a|e] eqn:E1;
    [|now apply caught_returns, (Hf _ _ _ E1)].
  destruct (import_from w mixin_module _) as [b|e] eqn:E2;
    [|now apply caught_returns, (Hf _ _ _ E2)].
  destruct (issubclass w a b) as [[|]|e] eqn:E3;
    [eexists; reflexivity | eexists; reflexivity
     | now apply caught_returns, (Hs _ _ _ E3)].
Qed.

Lemma method_probe_returns w :
  well_behaved w -> exists x, method_probe w = Ret x.
Proof.
  intros (_ & Hf & _ & Hh & _). unfold method_probe.
  destruct (import_from w main_window_module _) as [a|e] eqn:E1;
    [|now apply caught_returns, (Hf _ _ _ E1)].
  destruct (hasattr w a _) as [[|]|e] eqn:E2;
    [eexists; reflexivity | eexists; reflexivity
     | now apply caught_returns, (Hh _ _ _ E2)].
Qed.

Lemma file_probe_returns w file_path search_str success_msg fail_msg :
  well_behaved w ->
  exists x, file_probe w file_path search_str success_msg fail_msg = Ret x.
Proof.
  intros (_ & _ & _ & _ & Ho). unfold file_probe.
  destruct (open_read w file_path) as [content|e] eqn:E.
  - destruct (str_in search_str content); eexists; reflexivity.
  - now apply caught_returns, (Ho _ _ E).
Qed.

Lemma probes_return w project_root n r :
  well_behaved w ->
  In (n, r) (probes w project_root) -> exists x, r = Ret x.
Proof.
  intros Hw. rewrite probes_explicit. cbn [In].
  intros [H|[H|[H|[H|[H|[H|[H|[H|[H|[H|[]]]]]]]]]]];
    injection H as _ <-.
  - now apply import_probe_returns.
  - now apply import_probe_returns.
  - now apply import_probe_returns.
  - now apply import_probe_returns.
  - now apply import_probe_returns.
  - now apply inherit_probe_returns.
  - now apply method_probe_returns.
  - now apply file_probe_returns.
  - now apply file_probe_returns.
  - now apply file_probe_returns.
Qed.

Lemma emit_result_returns l np nf :
  (forall n r, In (n, r) l -> exists x, r = Ret x) ->
  exists y, emit_result l np nf = Ret y.
Proof.
  revert np nf. induction l as [|[m r] l IH]; intros np nf H.
  - eexists. reflexivity.
  - destruct (H m r (or_introl eq_refl)) as [[okb text] ->].
    cbn [emit_result]. apply IH. intros n r' Hin. apply (H n r').
    now right.
Qed.

(** C9. Each of the checks, when it returns, returns [(1, 0)] or
    [(0, 1)]; whenever the ten checks of [check_integration] have
    returned, so that the summary is printed, the two counters add up
    to 10; and the run does return in a world that raises nothing but
    what the checks catch. *)
Theorem tally_adds_up (w : world) (project_root : Path) :
  (forall module_path component_name check_num p pf,
      outcome (_check_import w module_path component_name check_num) p
      = Ret pf ->
      pf = (1, 0)%Z \/ pf = (0, 1)%Z)
  /\ (forall p pf,
         outcome (_check_mainwindow_inheritance w) p = Ret pf ->
         pf = (1, 0)%Z \/ pf = (0, 1)%Z)
  /\ (forall p pf,
         outcome (_check_method_exists w) p = Ret pf ->
         pf = (1, 0)%Z \/ pf = (0, 1)%Z)
  /\ (forall file_path search_str check_num success_msg fail_msg p pf,
         outcome (_check_file_content w file_path search_str check_num
                                      success_msg fail_msg) p
         = Ret pf ->
         pf = (1, 0)%Z \/ pf = (0, 1)%Z)
  /\ (forall p checks_passed checks_failed,
         outcome (integration_checks w project_root) p
         = Ret (checks_passed, checks_failed) ->
         (checks_passed + checks_failed = 10)%Z
         /\ (0 <= checks_passed)%Z /\ (0 <= checks_failed)%Z)
  /\ (forall code,
         snd (run_integration w project_root) = Ret code ->
         exists checks_passed checks_failed,
           (checks_passed + checks_failed = 10)%Z
           /\ incl (summary_lines checks_passed checks_failed)
                   (stdout (fst (run_integration w project_root))))
  /\ (well_behaved w ->
      exists code, snd (run_integration w project_root) = Ret code).
Proof.
  unfold outcome.
  split; [|split; [|split; [|split; [|split; [|split]]]]].
  - intros m c n p pf. rewrite check_import_emit.
    destruct (emit n (import_probe w m c) p) as [p' r] eqn:E.
    cbn [snd]. intros ->. eapply emit_returns, E.
  - intros p pf. rewrite check_inheritance_emit.
    destruct (emit 6 (inherit_probe w) p) as [p' r] eqn:E.
    cbn [snd]. intros ->. eapply emit_returns, E.
  - intros p pf. rewrite check_method_emit.
    destruct (emit 7 (method_probe w) p) as [p' r] eqn:E.
    cbn [snd]. intros ->. eapply emit_returns, E.
  - intros f s0 n sm fm p pf. rewrite check_file_content_emit.
    destruct (emit n (file_probe w f s0 sm fm) p) as [p' r] eqn:E.
    cbn [snd]. intros ->. eapply emit_returns, E.
  - intros p np nf. rewrite integration_checks_emit, emit_all_run.
    cbn [snd]. intros H.
    pose proof (emit_result_counts _ _ _ _ _ H) as (Hsum & Hnp & Hle & _).
    change (length (probes w project_root)) with 10%nat in Hsum.
    lia.
  - intros code. rewrite run_integration_shape.
    destruct (emit_result (probes w project_root) 0 0) as [[np nf]|e] eqn:E;
      [|discriminate].
    intros _. exists np, nf.
    apply emit_result_counts in E. destruct E as (Hsum & _).
    change (length (probes w project_root)) with 10%nat in Hsum.
    split; [lia|]. cbn [fst stdout].
    intros line Hl. apply in_or_app. right. apply in_or_app. now right.
  - intros Hw. rewrite run_integration_shape.
    destruct (emit_result_returns (probes w project_root) 0 0) as [[np nf] E].
    + intros n r. now apply probes_return.
    + rewrite E. eexists. reflexivity.
Qed.

(* =================================================================== *)
(** * Exceptions                                                        *)
(* =================================================================== *)

Lemma import_error_is_exception e :
  isinstance_ImportError e = true -> isinstance_Exception e = true.
Proof.
  unfold isinstance_ImportError, isinstance_Exception.
  destruct (exn_cls e); (reflexivity || discriminate).
Qed.

Lemma caught_raise prefix e e' :
  caught prefix e = Raise e' -> isinstance_Exception e' = false.
Proof.
  unfold caught. destruct (isinstance_Exception e) eqn:E;
    [discriminate|]. intros H. injection H as <-. exact E.
Qed.

Lemma import_probe_raise w m c e :
  import_probe w m c = Raise e -> isinstance_ImportError e = false.
Proof.
  unfold import_probe. destruct (builtin_import w m [c]) as [o|e0];
    [discriminate|].
  destruct (isinstance_ImportError e0) eqn:E; [discriminate|].
  intros H. injection H as <-. exact E.
Qed.

Lemma inherit_probe_raise w e :
  inherit_probe w = Raise e -> isinstance_Exception e = false.
Proof.
  unfold inherit_probe.
  destruct (import_from w main_window_module _) as [a|e0];
    [|apply caught_raise].
  destruct (import_from w mixin_module _) as [b|e0];
    [|apply caught_raise].
  destruct (issubclass w a b) as [[|]|e0];
    [discriminate | discriminate | apply caught_raise].
Qed.

Lemma method_probe_raise w e :
  method_probe w = Raise e -> isinstance_Exception e = false.
Proof.
  unfold method_probe.
  destruct (import_from w main_window_module _) as [a|e0];
    [|apply caught_raise].
  destruct (hasattr w a _) as [[|]|e0];
    [discriminate | discriminate | apply caught_raise].
Qed.

Lemma file_probe_raise w f s0 sm fm e :
  file_probe w f s0 sm fm = Raise e -> isinstance_Exception e = false.
Proof.
  unfold file_probe. destruct (open_read w f) as [content|e0];
    [|apply caught_raise].
  destruct (str_in s0 content); discriminate.
Qed.

Lemma emit_raise n r p p' e :
  emit n r p = (p', Raise e) -> r = Raise e /\ p' = p.
Proof.
  unfold emit. destruct r as [[okb text]|e0].
  - unfold bind, print, ret. discriminate.
  - unfold raise. intros H. injection H as <- <-. now split.
Qed.

Lemma emit_result_raise_in l np nf e :
  emit_result l np nf = Raise e -> exists n, In (n, Raise e) l.
Proof.
  revert np nf.
  induction l as [|[m [[okb text]|e0]] l IH]; intros np nf H; simpl in H.
  - discriminate.
  - apply IH in H. destruct H as [n Hn]. exists n. now right.
  - injection H as <-. exists m. now left.
Qed.

Lemma not_exception_not_import_error e :
  isinstance_Exception e = false -> isinstance_ImportError e = false.
Proof.
  intros H. destruct (isinstance_ImportError e) eqn:E; [|reflexivity].
  apply import_error_is_exception in E. congruence.
Qed.

Lemma probes_raise w project_root n e :
  In (n, Raise e) (probes w project_root) ->
  isinstance_ImportError e = false.
Proof.
  rewrite probes_explicit. cbn [In].
  intros [H|[H|[H|[H|[H|[H|[H|[H|[H|[H|[]]]]]]]]]]];
    injection H as _ H.
  - now apply import_probe_raise in H.
  - now apply import_probe_raise in H.
  - now apply import_probe_raise in H.
  - now apply import_probe_raise in H.
  - now apply import_probe_raise in H.
  - now apply inherit_probe_raise, not_exception_not_import_error in H.
  - now apply method_probe_raise, not_exception_not_import_error in H.
  - now apply file_probe_raise, not_exception_not_import_error in H.
  - now apply file_probe_raise, not_exception_not_import_error in H.
  - now apply file_probe_raise, not_exception_not_import_error in H.
Qed.

(** The caught exceptions of the inheritance and method checks. *)
Lemma inherit_failed_line text :
  check_line false 6 (lit "MainWindow inheritance check failed: " ++ text)
  = lit "❌ Check 6: MainWindow inheritance check failed: " ++ text.
Proof. vm_compute. reflexivity. Qed.

Lemma method_failed_line text :
  check_line false 7 (lit "Method check failed: " ++ text)
  = lit "❌ Check 7: Method check failed: " ++ text.
Proof. vm_compute. reflexivity. Qed.

Lemma inherit_probe_caught w e :
  raised_in_inheritance w e ->
  inherit_probe w = caught (lit "MainWindow inheritance check failed: ") e.
Proof.
  unfold raised_in_inheritance, inherit_probe.
  intros [H|[(a & Ha & H)|(a & b & Ha & Hb & H)]].
  - rewrite H. reflexivity.
  - rewrite Ha, H. reflexivity.
  - rewrite Ha, Hb, H. reflexivity.
Qed.

Lemma method_probe_caught w e :
  raised_in_method w e ->
  method_probe w = caught (lit "Method check failed: ") e.
Proof.
  unfold raised_in_method, method_probe.
  intros [H|(a & Ha & H)].
  - rewrite H. reflexivity.
  - rewrite Ha, H. reflexivity.
Qed.

(** ** An exception that no check catches ends the run *)

Lemma emit_result_stop l1 n e l2 : forall np nf,
  (forall m r, In (m, r) l1 -> exists x, r = Ret x) ->
  emit_result (l1 ++ (n, Raise e) :: l2) np nf = Raise e.
Proof.
  induction l1 as [|[m r] l1 IH]; intros np nf H.
  - reflexivity.
  - destruct (H m r (or_introl eq_refl)) as [[okb t] ->].
    cbn [app emit_result]. apply IH.
    intros k r' Hin. apply (H k r'). now right.
Qed.

Lemma find_emitted_stop l1 n e l2 k :
  ~ In k (map fst l1) ->
  find_emitted k (l1 ++ (n, Raise e) :: l2) = None.
Proof.
  induction l1 as [|[m [[okb t]|e']] l1 IH]; intros H;
    cbn [app find_emitted].
  - reflexivity.
  - destruct (Z.eqb_spec k m) as [->|Hne].
    + elim H. now left.
    + apply IH. intros Hin. apply H. now right.
  - reflexivity.
Qed.

Lemma import_raise_ends_run w project_root pre module_path component_name
      check_num post e :
  import_checks = pre ++ (module_path, component_name, check_num) :: post ->
  (forall m c n e',
      In (m, c, n) pre ->
      builtin_import w m [c] = Raise e' ->
      isinstance_ImportError e' = true) ->
  builtin_import w module_path [component_name] = Raise e ->
  isinstance_ImportError e = false ->
  snd (run_integration w project_root) = Raise e
  /\ reported check_num (stdout (fst (run_integration w project_root)))
     = None
  /\ forall n,
       (1 <= n <= 10)%Z -> ~ In n (map snd pre) ->
       reported n (stdout (fst (run_integration w project_root))) = None.
Proof.
  intros Hsplit Hpre Hr He.
  assert (Hp : exists tail,
             probes w project_root
             = map (fun mcn : str * str * Z =>
                      (snd mcn, import_probe w (fst (fst mcn))
                                             (snd (fst mcn)))) pre
                   ++ (check_num, Raise e) :: tail).
  { assert (Hi : import_probe w module_path component_name = Raise e).
    { unfold import_probe. rewrite Hr, He. reflexivity. }
    unfold probes. rewrite Hsplit, map_app. cbn [map fst snd].
    rewrite <- app_assoc. cbn [app]. rewrite Hi. eexists. reflexivity. }
  destruct Hp as [tail Hp].
  assert (Hret : forall m r,
             In (m, r)
                (map (fun mcn : str * str * Z =>
                        (snd mcn, import_probe w (fst (fst mcn))
                                               (snd (fst mcn)))) pre) ->
             exists x, r = Ret x).
  { intros m r Hin. apply in_map_iff in Hin.
    destruct Hin as ([[m' c'] n'] & E & Hin). cbn [fst snd] in E.
    apply pair_equal_spec in E. destruct E as [_ <-].
    unfold import_probe.
    destruct (builtin_import w m' [c']) as [o|e'] eqn:Eb;
      [eexists; reflexivity|].
    rewrite (Hpre m' c' n' e' Hin Eb). eexists. reflexivity. }
  assert (Hnone : forall n,
             (1 <= n <= 10)%Z -> ~ In n (map snd pre) ->
             reported n (stdout (fst (run_integration w project_root)))
             = None).
  { intros n Hn Hnot. rewrite reported_run by assumption. rewrite Hp.
    apply find_emitted_stop. rewrite map_map. cbn [fst]. exact Hnot. }
  split; [|split; [|exact Hnone]].
  - rewrite run_integration_shape, Hp,
      (emit_result_stop _ _ _ _ _ _ Hret). reflexivity.
  - assert (Hnum : map snd import_checks = [1; 2; 3; 4; 5]%Z)
      by reflexivity.
    rewrite Hsplit, map_app in Hnum. cbn [map snd] in Hnum.
    apply Hnone.
    + assert (Hin : In check_num [1; 2; 3; 4; 5]%Z).
      { rewrite <- Hnum. apply in_or_app. right. now left. }
      cbn [In] in Hin. lia.
    + assert (Hnd : NoDup (map snd pre ++ check_num :: map snd post)).
      { rewrite Hnum.
        repeat (constructor; [simpl; intuition discriminate|]).
        constructor. }
      apply NoDup_remove_2 in Hnd. intros Hin. apply Hnd.
      apply in_or_app. now left.
Qed.

Lemma for_each_app {S A} (xs ys : list A) (body : A -> M S unit) s :
  for_each (xs ++ ys) body s = (for_each xs body ;; for_each ys body) s.
Proof.
  revert s. induction xs as [|x xs IH]; intros s; cbn [app for_each].
  - reflexivity.
  - unfold bind. destruct (body x s) as [s' [[]|e]]; [|reflexivity].
    rewrite IH. reflexivity.
Qed.

Lemma ok_then_raise Q (a : M (proc AGENTSCompliance) unit)
      (b : M (proc AGENTSCompliance) unit) e :
  ok Q a -> (forall p, snd (b p) = Raise e) ->
  forall p, snd ((a ;; b) p) = Raise e.
Proof.
  intros Ha Hb p. destruct (Ha p) as (ni & np & out & E & _).
  unfold bind. rewrite E. apply Hb.
Qed.

Lemma ten_checks_parse_raise filepath content e :
  ast_parse content = Raise e ->
  isinstance_SyntaxError e = false ->
  forall p, snd (ten_checks filepath content p) = Raise e.
Proof.
  intros Hp Hs. unfold ten_checks.
  apply (ok_then_raise any_issue);
    [apply deprecated_typing_ok; intros; exact I|].
  apply (ok_then_raise any_issue); [apply union_types_ok|].
  apply (ok_then_raise any_issue); [apply bare_except_ok; exact I|].
  intros p. unfold bind at 1. unfold _check_type_hints.
  rewrite Hp, Hs. reflexivity.
Qed.

Lemma unchecked_raise_ends_run w base_dir pre f post e :
  files_to_check base_dir = pre ++ f :: post ->
  (forall g, In g pre -> checkable w g) ->
  path_exists w f = true ->
  (read_text w f = Raise e
   \/ exists content,
       read_text w f = Ret content
       /\ ast_parse content = Raise e
       /\ isinstance_SyntaxError e = false) ->
  snd (run_compliance w base_dir) = Raise e.
Proof.
  intros Hsplit Hpre Hex Hr. unfold run_compliance.
  rewrite compliance_main_eq, Hsplit.
  unfold bind at 1. rewrite for_each_app. unfold bind at 1.
  destruct (main_loop w pre Hpre (mkProc __init__ [])) as (p' & E & _).
  rewrite E. cbn [for_each]. unfold bind at 1. unfold main_turn at 1.
  rewrite Hex.
  assert (Hc : snd (check_file w f p') = Raise e).
  { destruct Hr as [Hr|(content & Hr & Hp & Hs)].
    - rewrite (check_file_unreadable _ _ _ _ Hr). reflexivity.
    - rewrite (check_file_read _ _ _ _ Hr).
      now apply ten_checks_parse_raise. }
  destruct (check_file w f p') as [q [[]|e']]; cbn [snd] in Hc;
    [discriminate|].
  injection Hc as ->. reflexivity.
Qed.

(** What each check does with an exception. *)
Lemma exceptions_caught_locally (w : world) :
  (forall module_path component_name check_num p e,
      builtin_import w module_path [component_name] = Raise e ->
      _check_import w module_path component_name check_num p
      = if isinstance_ImportError e
        then (mkProc (self p)
                     (stdout p
                      ++ [lit "❌ Check " ++ str_of_Z check_num ++ lit ": "
                              ++ component_name ++ lit " import failed: "
                              ++ exn_text e]),
              Ret (0, 1)%Z)
        else (p, Raise e))
  /\ (forall p e,
         outcome (_check_mainwindow_inheritance w) p = Raise e ->
         isinstance_Exception e = false)
  /\ (forall p e,
         outcome (_check_method_exists w) p = Raise e ->
         isinstance_Exception e = false)
  /\ (forall file_path search_str check_num success_msg fail_msg p e,
         open_read w file_path = Raise e ->
         _check_file_content w file_path search_str check_num
                             success_msg fail_msg p
         = if isinstance_Exception e
           then (mkProc (self p)
                        (stdout p
                         ++ [lit "❌ Check " ++ str_of_Z check_num
                                 ++ lit ": File check failed: "
                                 ++ exn_text e]),
                 Ret (0, 1)%Z)
           else (p, Raise e))
  /\ (forall project_root e,
         snd (run_integration w project_root) = Raise e ->
         isinstance_ImportError e = false)
  /\ (forall filepath content p e,
         ast_parse content = Raise e ->
         _check_type_hints filepath content p
         = if isinstance_SyntaxError e
           then (with_issue p (path_str filepath,
                               lit "❌ Syntax error: " ++ exn_text e, 2%Z),
                 Ret tt)
           else (p, Raise e))
  /\ (forall filepath p e,
         read_text w filepath = Raise e ->
         check_file w filepath p
         = (mkProc (self p) (stdout p ++ file_header filepath), Raise e)).
Proof.
  split; [|split; [|split; [|split; [|split; [|split]]]]].
  - intros m c n p e H. rewrite check_import_emit.
    unfold import_probe. rewrite H.
    destruct (isinstance_ImportError e); [|reflexivity].
    unfold emit, bind, print, ret. rewrite check_line_fail. reflexivity.
  - intros p e. unfold outcome. rewrite check_inheritance_emit.
    destruct (emit 6 (inherit_probe w) p) as [p' r] eqn:E.
    cbn [snd]. intros ->. apply emit_raise in E.
    now apply inherit_probe_raise with (w := w).
  - intros p e. unfold outcome. rewrite check_method_emit.
    destruct (emit 7 (method_probe w) p) as [p' r] eqn:E.
    cbn [snd]. intros ->. apply emit_raise in E.
    now apply method_probe_raise with (w := w).
  - intros f s0 n sm fm p e H. rewrite check_file_content_emit.
    unfold file_probe, caught. rewrite H.
    destruct (isinstance_Exception e); [|reflexivity].
    unfold emit, bind, print, ret.
    rewrite check_line_fail, file_failed_line. reflexivity.
  - intros project_root e. rewrite run_integration_shape.
    destruct (emit_result (probes w project_root) 0 0) as [[np nf]|e0]
      eqn:E; [discriminate|].
    cbn [snd]. intros H. injection H as ->.
    apply emit_result_raise_in in E. destruct E as [n Hin].
    now apply probes_raise in Hin.
  - intros f content p e H. unfold _check_type_hints. rewrite H.
    destruct (isinstance_SyntaxError e); reflexivity.
  - intros f p e H. now apply check_file_unreadable.
Qed.

(** C6, as the code has it.  In the integration verifier an
    [ImportError] of the import in [_check_import] becomes a failed
    check whose line ends with the text of the exception, and any other
    exception of that import leaves the function; an exception raised
    inside the inheritance check or the method check, by an import or
    by [issubclass] or [hasattr], becomes a failed check [(0, 1)] whose
    line ends with its text when it is an [Exception], and leaves the
    check otherwise; so does an exception of the file read in a file
    check; so whatever a run raises is not an [ImportError].  The first
    import of the five import checks that raises something else than an
    [ImportError] ends the run with that exception, and neither that
    check nor a later one is reported.  In the compliance checker a
    [SyntaxError] of [ast.parse] becomes an issue of severity 2 that
    ends with its text, any other exception of [ast.parse] leaves the
    check, and an exception of the file read leaves [check_file]; the
    first existing file whose read raises, or whose parse raises
    something else than a [SyntaxError], ends the run with that
    exception. *)
Theorem exceptions_caught (w : world) :
  (forall module_path component_name check_num p e,
      builtin_import w module_path [component_name] = Raise e ->
      _check_import w module_path component_name check_num p
      = if isinstance_ImportError e
        then (mkProc (self p)
                     (stdout p
                      ++ [lit "❌ Check " ++ str_of_Z check_num ++ lit ": "
                              ++ component_name ++ lit " import failed: "
                              ++ exn_text e]),
              Ret (0, 1)%Z)
        else (p, Raise e))
  /\ (forall p e,
         outcome (_check_mainwindow_inheritance w) p = Raise e ->
         isinstance_Exception e = false)
  /\ (forall p e,
         outcome (_check_method_exists w) p = Raise e ->
         isinstance_Exception e = false)
  /\ (forall file_path search_str check_num success_msg fail_msg p e,
         open_read w file_path = Raise e ->
         _check_file_content w file_path search_str check_num
                             success_msg fail_msg p
         = if isinstance_Exception e
           then (mkProc (self p)
                        (stdout p
                         ++ [lit "❌ Check " ++ str_of_Z check_num
                                 ++ lit ": File check failed: "
                                 ++ exn_text e]),
                 Ret (0, 1)%Z)
           else (p, Raise e))
  /\ (forall project_root e,
         snd (run_integration w project_root) = Raise e ->
         isinstance_ImportError e = false)
  /\ (forall filepath content p e,
         ast_parse content = Raise e ->
         _check_type_hints filepath content p
         = if isinstance_SyntaxError e
           then (with_issue p (path_str filepath,
                               lit "❌ Syntax error: " ++ exn_text e, 2%Z),
                 Ret tt)
           else (p, Raise e))
  /\ (forall filepath p e,
         read_text w filepath = Raise e ->
         check_file w filepath p
         = (mkProc (self p) (stdout p ++ file_header filepath), Raise e))
  /\ (forall p e,
         raised_in_inheritance w e ->
         _check_mainwindow_inheritance w p
         = if isinstance_Exception e
           then (mkProc (self p)
                        (stdout p
                         ++ [lit "❌ Check 6: MainWindow inheritance check failed: "
                                 ++ exn_text e]),
                 Ret (0, 1)%Z)
           else (p, Raise e))
  /\ (forall p e,
         raised_in_method w e ->
         _check_method_exists w p
         = if isinstance_Exception e
           then (mkProc (self p)
                        (stdout p
                         ++ [lit "❌ Check 7: Method check failed: "
                                 ++ exn_text e]),
                 Ret (0, 1)%Z)
           else (p, Raise e))
  /\ (forall project_root pre module_path component_name check_num post e,
         import_checks
         = pre ++ (module_path, component_name, check_num) :: post ->
         (forall m c n e',
             In (m, c, n) pre ->
             builtin_import w m [c] = Raise e' ->
             isinstance_ImportError e' = true) ->
         builtin_import w module_path [component_name] = Raise e ->
         isinstance_ImportError e = false ->
         snd (run_integration w project_root) = Raise e
         /\ reported check_num
                     (stdout (fst (run_integration w project_root)))
            = None
         /\ forall n,
              (1 <= n <= 10)%Z -> ~ In n (map snd pre) ->
              reported n (stdout (fst (run_integration w project_root)))
              = None)
  /\ (forall base_dir pre f post e,
         files_to_check base_dir = pre ++ f :: post ->
         (forall g, In g pre -> checkable w g) ->
         path_exists w f = true ->
         (read_text w f = Raise e
          \/ exists content,
              read_text w f = Ret content
              /\ ast_parse content = Raise e
              /\ isinstance_SyntaxError e = false) ->
         snd (run_compliance w base_dir) = Raise e).
Proof.
  destruct (exceptions_caught_locally w)
    as (H1 & H2 & H3 & H4 & H5 & H6 & H7).
  split; [exact H1|]. split; [exact H2|]. split; [exact H3|].
  split; [exact H4|]. split; [exact H5|]. split; [exact H6|].
  split; [exact H7|].
  split; [|split; [|split]].
  - intros p e H. rewrite check_inheritance_emit,
      (inherit_probe_caught _ _ H).
    unfold caught. destruct (isinstance_Exception e); [|reflexivity].
    unfold emit, bind, print, ret. rewrite inherit_failed_line.
    reflexivity.
  - intros p e H. rewrite check_method_emit, (method_probe_caught _ _ H).
    unfold caught. destruct (isinstance_Exception e); [|reflexivity].
    unfold emit, bind, print, ret. rewrite method_failed_line.
    reflexivity.
  - intros project_root pre m c n post e.
    apply import_raise_ends_run.
  - intros base_dir pre f post e. apply unchecked_raise_ends_run.
Qed.

(* =================================================================== *)
(** * Two runs                                                          *)
(* =================================================================== *)

Lemma check_file_same w1 w2 filepath p :
  read_text w1 filepath = read_text w2 filepath ->
  check_file w1 filepath p = check_file w2 filepath p.
Proof.
  intros H. destruct (read_text w2 filepath) as [content|e] eqn:E.
  - now rewrite (check_file_read w1 _ _ _ H),
                (check_file_read w2 _ _ _ E).
  - now rewrite (check_file_unreadable w1 _ _ _ H),
                (check_file_unreadable w2 _ _ _ E).
Qed.

Lemma main_loop_same w1 w2 files p :
  (forall f, In f files ->
             path_exists w1 f = path_exists w2 f
             /\ read_text w1 f = read_text w2 f) ->
  for_each files (main_turn w1) p = for_each files (main_turn w2) p.
Proof.
  revert p. induction files as [|f files IH]; intros p H; [reflexivity|].
  cbn [for_each]. apply bind_cong.
  - destruct (H f (or_introl eq_refl)) as [He Hr].
    unfold main_turn. rewrite He.
    destruct (path_exists w2 f); [now apply check_file_same | reflexivity].
  - intros [] p'. apply IH. intros g Hg. apply H. now right.
Qed.

Lemma probes_same w1 w2 project_root :
  (forall n, (1 <= n <= 10)%Z -> same_inputs n project_root w1 w2) ->
  probes w1 project_root = probes w2 project_root.
Proof.
  intros H. rewrite !probes_explicit.
  repeat (apply f_equal2; [apply (f_equal (pair _))|]); [..|reflexivity].
  - symmetry. apply import_probe_same. apply (H 1%Z). lia.
  - symmetry. apply import_probe_same. apply (H 2%Z). lia.
  - symmetry. apply import_probe_same. apply (H 3%Z). lia.
  - symmetry. apply import_probe_same. apply (H 4%Z). lia.
  - symmetry. apply import_probe_same. apply (H 5%Z). lia.
  - apply inherit_probe_same with (project_root := project_root).
    apply (H 6%Z). lia.
  - apply method_probe_same with (project_root := project_root).
    apply (H 7%Z). lia.
  - symmetry. apply file_probe_same. apply (H 8%Z). lia.
  - symmetry. apply file_probe_same. apply (H 9%Z). lia.
  - symmetry. apply file_probe_same. apply (H 10%Z). lia.
Qed.

(** C8. A run of the compliance checker, which starts from a fresh
    checker, is determined by what the three checked paths hold: two
    worlds that agree on whether each exists and on what reading it
    gives yield the same output, the same counts and the same exit
    code.  A run of [check_integration] is determined by what its ten
    checks ask: two worlds that answer alike yield the same output and
    the same exit code. *)
Theorem runs_deterministic (w1 w2 : world) (dir : Path) :
  ((forall f, In f (files_to_check dir) ->
              path_exists w1 f = path_exists w2 f
              /\ read_text w1 f = read_text w2 f) ->
   run_compliance w1 dir = run_compliance w2 dir
   /\ counts (self (fst (run_compliance w1 dir)))
      = counts (self (fst (run_compliance w2 dir)))
   /\ snd (run_compliance w1 dir) = snd (run_compliance w2 dir))
  /\ ((forall n, (1 <= n <= 10)%Z -> same_inputs n dir w1 w2) ->
      run_integration w1 dir = run_integration w2 dir).
Proof.
  split.
  - intros H.
    assert (E : run_compliance w1 dir = run_compliance w2 dir).
    { unfold run_compliance. rewrite !compliance_main_eq.
      apply bind_cong; [now apply main_loop_same | reflexivity]. }
    rewrite E. auto.
  - intros H. rewrite !run_integration_shape.
    now rewrite (probes_same w1 w2 dir H).
Qed.

(* =================================================================== *)
(** * More about the matcher                                            *)
(* =================================================================== *)

Lemma match_here_lit_inv (l : str) (r : regex) prev s n :
  match_here (map ILit l ++ r) prev s = Some n ->
  exists s' m,
    s = l ++ s'
    /\ match_here r (prev_after prev l) s' = Some m
    /\ n = length l + m.
Proof.
  revert prev s n. induction l as [|c l IH]; intros prev s n H.
  - exists s, n. simpl. auto.
  - simpl in H. destruct s as [|c' s]; [discriminate|].
    destruct (N.eqb_spec c' c) as [->|]; [|discriminate].
    destruct (match_here (map ILit l ++ r) (Some c) s) as [k|] eqn:E;
      [|discriminate].
    injection H as <-.
    destruct (IH _ _ _ E) as (s' & m & -> & Hm & ->).
    exists s', m. simpl. auto.
Qed.

Lemma match_star_inv cs k prev s n :
  match_star cs k prev s = Some n ->
  exists ws s' m,
    s = ws ++ s'
    /\ Forall (fun c => cset_mem cs c = true) ws
    /\ k (prev_after prev ws) s' = Some m
    /\ n = length ws + m.
Proof.
  revert prev n. induction s as [|c s IH]; intros prev n H.
  - exists [], [], n. simpl in *. auto.
  - simpl in H. destruct (cset_mem cs c) eqn:Hc.
    + destruct (match_star cs k (Some c) s) as [j|] eqn:E.
      * injection H as <-.
        destruct (IH _ _ E) as (ws & s' & m & -> & Hws & Hk & ->).
        exists (c :: ws), s', m. simpl. auto.
      * exists [], (c :: s), n. simpl. auto.
    + exists [], (c :: s), n. simpl. auto.
Qed.

Lemma match_star_all cs k prev ws s' m :
  Forall (fun c => cset_mem cs c = true) ws ->
  k (prev_after prev ws) s' = Some m ->
  exists n, match_star cs k prev (ws ++ s') = Some n.
Proof.
  intros H. revert prev. induction H as [|c ws Hc Hws IH]; intros prev Hk.
  - simpl in *. now apply match_star_some with (n := m).
  - destruct (IH (Some c) Hk) as [n Hn].
    exists (S n). now apply match_star_step.
Qed.

Lemma search_from_inv r prev s :
  search_from r prev s = true ->
  exists pre rest n,
    s = pre ++ rest /\ match_here r (prev_after prev pre) rest = Some n.
Proof.
  revert prev. induction s as [|c s IH]; intros prev H.
  - simpl in H. destruct (match_here r prev []) as [n|] eqn:E;
      [|discriminate].
    now exists [], [], n.
  - simpl in H. destruct (match_here r prev (c :: s)) as [n|] eqn:E.
    + now exists [], (c :: s), n.
    + destruct (IH _ H) as (pre & rest & n & -> & Hn).
      now exists (c :: pre), rest, n.
Qed.

(** A match never runs past the end of the text. *)
Lemma match_star_bounded cs k :
  (forall prev s n, k prev s = Some n -> n <= length s) ->
  forall prev s n, match_star cs k prev s = Some n -> n <= length s.
Proof.
  intros Hk prev s. revert prev.
  induction s as [|c s IH]; intros prev n H; simpl in H.
  - now apply Hk in H.
  - destruct (cset_mem cs c).
    + destruct (match_star cs k (Some c) s) as [j|] eqn:E.
      * injection H as <-. apply IH in E. simpl. lia.
      * now apply Hk in H.
    + now apply Hk in H.
Qed.

Lemma match_here_bounded r prev s n :
  match_here r prev s = Some n -> n <= length s.
Proof.
  revert prev s n.
  induction r as [|[a|cs|cs|cs| |] r IH]; intros prev s n H; simpl in H.
  - injection H as <-. lia.
  - destruct s as [|c s]; [discriminate|].
    destruct (N.eqb c a); [|discriminate].
    destruct (match_here r (Some c) s) as [j|] eqn:E; [|discriminate].
    injection H as <-. apply IH in E. simpl. lia.
  - destruct s as [|c s]; [discriminate|].
    destruct (cset_mem cs c); [|discriminate].
    destruct (match_here r (Some c) s) as [j|] eqn:E; [|discriminate].
    injection H as <-. apply IH in E. simpl. lia.
  - now apply (match_star_bounded cs (match_here r) IH) in H.
  - destruct s as [|c s]; [discriminate|].
    destruct (cset_mem cs c); [|discriminate].
    destruct (match_star cs (match_here r) (Some c) s) as [j|] eqn:E;
      [|discriminate].
    injection H as <-.
    apply (match_star_bounded cs (match_here r) IH) in E. simpl. lia.
  - destruct (word_boundary prev s); [now apply IH in H | discriminate].
  - destruct (at_bol prev); [now apply IH in H | discriminate].
Qed.

(* =================================================================== *)
(** * What the pattern checks look for                                  *)
(* =================================================================== *)

Lemma space_mem c : cset_mem CSpace c = isspace c.
Proof. reflexivity. Qed.

Lemma bare_except_re_eq :
  bare_except_re
  = map ILit (lit "except") ++ IStar CSpace :: map ILit (lit ":") ++ [].
Proof. reflexivity. Qed.

Lemma bare_except_search_iff content :
  re_search bare_except_re content = true <->
  exists pre ws post,
    content = pre ++ lit "except" ++ ws ++ lit ":" ++ post /\ all_space ws.
Proof.
  unfold re_search. split.
  - intros H. apply search_from_inv in H.
    destruct H as (pre & rest & n & -> & H).
    rewrite bare_except_re_eq in H.
    apply match_here_lit_inv in H. destruct H as (s1 & m1 & -> & H & _).
    change (match_here (IStar CSpace :: ?r) ?q ?t)
      with (match_star CSpace (match_here r) q t) in H.
    apply match_star_inv in H.
    destruct H as (ws & s2 & m2 & -> & Hws & H & _).
    apply match_here_lit_inv in H. destruct H as (post & m3 & -> & _).
    exists pre, ws, post. split; [reflexivity | exact Hws].
  - intros (pre & ws & post & -> & Hws).
    assert (Hk : forall q,
               match_here (map ILit (lit ":") ++ []) q (lit ":" ++ post)
               = Some 1).
    { intros q. rewrite match_here_lit. reflexivity. }
    destruct (match_star_all CSpace _ (prev_after (prev_after None pre)
                                                  (lit "except"))
                             ws (lit ":" ++ post) 1 Hws (Hk _)) as [n Hn].
    apply search_from_app with (n := 6 + n).
    rewrite bare_except_re_eq, match_here_lit.
    change (match_here (IStar CSpace :: ?r) ?q ?t)
      with (match_star CSpace (match_here r) q t).
    rewrite Hn. reflexivity.
Qed.

(** X1. The bare-except check records its error exactly when the content
    holds [except], then any run of white space (none, blanks, or line
    breaks), then a colon; otherwise it appends its pass message. *)
Theorem bare_except_exactly (filepath : Path) (content : str)
        (p : proc AGENTSCompliance) :
  ((exists pre ws post,
       content = pre ++ lit "except" ++ ws ++ lit ":" ++ post
       /\ all_space ws) ->
   _check_no_bare_except filepath content p
   = (with_issue p (path_str filepath, bare_except_msg, 2%Z), Ret tt))
  /\ (~ (exists pre ws post,
            content = pre ++ lit "except" ++ ws ++ lit ":" ++ post
            /\ all_space ws) ->
      _check_no_bare_except filepath content p
      = (with_passed p (lit "✅ No bare except clauses ("
                            ++ path_name filepath ++ lit ")"),
         Ret tt)).
Proof.
  unfold _check_no_bare_except. split; intros H.
  - apply bare_except_search_iff in H. now rewrite H.
  - destruct (re_search bare_except_re content) eqn:E; [|reflexivity].
    elim H. now apply bare_except_search_iff.
Qed.

Lemma deprecated_re_eq name :
  deprecated_re name
  = map ILit (lit "from typing import")
      ++ IStar CAny :: IWordB :: map ILit (lit name) ++ [IWordB].
Proof.
  reflexivity.
Qed.

Lemma any_mem_one_line ws :
  Forall (fun c => cset_mem CAny c = true) ws -> one_line ws.
Proof.
  intros H. induction H as [|c ws Hc _ IH]; constructor; [|exact IH].
  simpl in Hc. apply negb_true_iff in Hc. now apply N.eqb_neq.
Qed.

Lemma deprecated_search_needs name content :
  re_search (deprecated_re name) content = true ->
  exists pre mid post,
    content = pre ++ lit "from typing import" ++ mid ++ lit name ++ post
    /\ one_line mid.
Proof.
  unfold re_search. intros H. apply search_from_inv in H.
  destruct H as (pre & rest & n & -> & H).
  rewrite deprecated_re_eq in H.
  apply match_here_lit_inv in H. destruct H as (s1 & m1 & -> & H & _).
  change (match_here (IStar CAny :: ?r) ?q ?t)
    with (match_star CAny (match_here r) q t) in H.
  apply match_star_inv in H.
  destruct H as (mid & s2 & m2 & -> & Hmid & H & _).
  cbn [match_here] in H.
  destruct (word_boundary _ s2); [|discriminate].
  apply match_here_lit_inv in H. destruct H as (post & m3 & -> & _).
  exists pre, mid, post. split; [reflexivity|].
  now apply any_mem_one_line.
Qed.

Lemma deprecated_loop_miss filepath content todo p :
  existsb (fun pn => re_search (fst pn) content) todo = false ->
  deprecated_loop filepath content todo p
  = (with_passed p (lit "✅ No deprecated typing imports ("
                        ++ path_name filepath ++ lit ")"),
     Ret tt).
Proof.
  induction todo as [|[pattern name] todo IH]; simpl; [reflexivity|].
  destruct (re_search pattern content); simpl; [discriminate|].
  exact IH.
Qed.

(** X2. The deprecated-typing check passes unless the content holds
    [from typing import] and, further on the same line, one of the six
    names: a name on a later line of the import, or a use of the
    [typing] module without that statement, is not reported. *)
Theorem deprecated_typing_same_line (filepath : Path) (content : str)
        (p : proc AGENTSCompliance) :
  (forall name pre mid post,
      In name ["List"; "Dict"; "Set"; "Tuple"; "Optional"; "Union"]%string ->
      content = pre ++ lit "from typing import" ++ mid ++ lit name ++ post ->
      ~ one_line mid) ->
  _check_no_deprecated_typing filepath content p
  = (with_passed p (lit "✅ No deprecated typing imports ("
                        ++ path_name filepath ++ lit ")"),
     Ret tt).
Proof.
  intros H. unfold _check_no_deprecated_typing.
  apply deprecated_loop_miss. unfold deprecated. cbn [existsb fst].
  repeat match goal with
         | |- context [re_search (deprecated_re ?n) content] =>
             let E := fresh "E" in
             destruct (re_search (deprecated_re n) content) eqn:E;
             [ exfalso; apply deprecated_search_needs in E;
               destruct E as (pre & mid & post & E & Hm);
               apply (H n pre mid post); [simpl; tauto | exact E | exact Hm]
             | ]
         end.
  reflexivity.
Qed.

(** ** The number of docstring matches *)

Lemma docstring_match_length prev s n :
  match_here docstring_re prev s = Some n -> 6 <= n <= length s.
Proof.
  intros H. split; [|now apply match_here_bounded in H].
  change docstring_re
    with (map ILit DQ3 ++ IStar (CNotIn [(DQ, DQ)]) :: map ILit DQ3 ++ [])
    in H.
  apply match_here_lit_inv in H. destruct H as (s1 & m1 & -> & H & ->).
  change (match_here (IStar ?cs :: ?r) ?q ?t)
    with (match_star cs (match_here r) q t) in H.
  apply match_star_inv in H.
  destruct H as (ws & s2 & m2 & -> & _ & H & ->).
  apply match_here_lit_inv in H. destruct H as (post & m3 & -> & _ & ->).
  simpl. lia.
Qed.

Lemma findall_docstring_bound skip prev s :
  6 * length (findall_from docstring_re skip prev s) <= length s - skip.
Proof.
  revert skip prev. induction s as [|c s IH]; intros skip prev.
  - destruct skip; simpl.
    + destruct (match_here docstring_re prev []) as [n|] eqn:E; simpl;
        [|lia].
      apply docstring_match_length in E. simpl in E. lia.
    + lia.
  - destruct skip as [|k].
    + cbn [findall_from].
      destruct (match_here docstring_re prev (c :: s)) as [n|] eqn:E.
      * apply docstring_match_length in E. cbn [length] in *.
        specialize (IH (pred n) (Some c)). lia.
      * specialize (IH 0 (Some c)). cbn [length]. lia.
    + cbn [findall_from length]. specialize (IH k (Some c)). lia.
Qed.

Lemma findall_quote_free prev s :
  quote_free s -> findall_from docstring_re 0 prev s = [].
Proof.
  intros H. rewrite <- (app_nil_r s).
  now rewrite findall_skip_quote_free.
Qed.

(** X3. Each counted docstring takes at least six characters of the
    content, so a content of fewer than 36 characters, an empty file
    among them, always gets the warning; and a content without any
    double quote, whatever single-quoted docstrings it has, gets the
    warning with a count of zero. *)
Theorem docstring_count_bounds (filepath : Path) (content : str)
        (p : proc AGENTSCompliance) :
  6 * doc_count content <= length content
  /\ (length content < 36 ->
      _check_docstrings filepath content p
      = (with_issue p (path_str filepath,
                       lit "⚠️ Few docstrings found ("
                           ++ str_of_nat (doc_count content) ++ lit ")",
                       1%Z),
         Ret tt))
  /\ (quote_free content ->
      doc_count content = 0
      /\ _check_docstrings filepath content p
         = (with_issue p (path_str filepath,
                          lit "⚠️ Few docstrings found (0)", 1%Z),
            Ret tt)).
Proof.
  assert (Hb : 6 * doc_count content <= length content).
  { unfold doc_count, re_findall.
    pose proof (findall_docstring_bound 0 None content). lia. }
  split; [exact Hb|]. split.
  - intros Hlt. unfold _check_docstrings. fold (doc_count content).
    assert (E : (5 <? doc_count content) = false)
      by (apply Nat.ltb_ge; lia).
    now rewrite E.
  - intros Hq.
    assert (E0 : doc_count content = 0).
    { unfold doc_count, re_findall. now rewrite findall_quote_free. }
    split; [exact E0|].
    unfold _check_docstrings. fold (doc_count content). rewrite E0.
    vm_compute. reflexivity.
Qed.

(* =================================================================== *)
(** * Lines                                                             *)
(* =================================================================== *)

Lemma split_lines_nonempty s : split_lines s <> [].
Proof.
  destruct s as [|c s]; simpl; [discriminate|].
  destruct (N.eqb c NL); [discriminate|].
  destruct (split_lines s); discriminate.
Qed.

Lemma join_cons sep (x y : str) (z : list str) :
  join sep (x :: y :: z) = x ++ sep ++ join sep (y :: z).
Proof. reflexivity. Qed.

Lemma join_split_lines s : join [NL] (split_lines s) = s.
Proof.
  induction s as [|c s IH]; [reflexivity|].
  simpl split_lines. pose proof (split_lines_nonempty s) as Hne.
  destruct (split_lines s) as [|l ls]; [now elim Hne|].
  destruct (N.eqb_spec c NL) as [->|Hc].
  - rewrite join_cons, IH. reflexivity.
  - destruct ls as [|l' ls].
    + simpl in *. now rewrite IH.
    + rewrite join_cons in *. rewrite <- IH. reflexivity.
Qed.

Lemma split_lines_one_line l :
  one_line l -> split_lines l = [l].
Proof.
  intros H. induction H as [|c l Hc _ IH]; [reflexivity|].
  simpl. apply N.eqb_neq in Hc. now rewrite Hc, IH.
Qed.

Lemma split_lines_app l rest :
  one_line l -> split_lines (l ++ NL :: rest) = l :: split_lines rest.
Proof.
  intros H. induction H as [|c l Hc _ IH].
  - reflexivity.
  - simpl. apply N.eqb_neq in Hc. now rewrite Hc, IH.
Qed.

Lemma split_lines_join lines :
  lines <> [] -> Forall one_line lines ->
  split_lines (join [NL] lines) = lines.
Proof.
  intros Hne H. induction H as [|l ls Hl Hls IH]; [now elim Hne|].
  destruct ls as [|l' ls].
  - simpl. now apply split_lines_one_line.
  - rewrite join_cons. change ([NL] ++ ?x) with (NL :: x).
    rewrite split_lines_app by assumption.
    f_equal. apply IH. discriminate.
Qed.

Lemma filter_enumerate {A} (P : A -> bool) (xs : list A) i :
  map snd (filter (fun il => P (snd il)) (enumerate_from i xs))
  = filter P xs.
Proof.
  revert i. induction xs as [|x xs IH]; intros i; [reflexivity|].
  simpl. destruct (P x); simpl; now rewrite IH.
Qed.

Lemma lstrip_keeps_last x c :
  isspace c = false -> exists y, lstrip (x ++ [c]) = y ++ [c].
Proof.
  intros Hc. induction x as [|d x IH]; simpl.
  - rewrite Hc. now exists [].
  - destruct (isspace d); [exact IH | now exists (d :: x)].
Qed.

Lemma strip_head l :
  startswith (lit "#") (strip l) = startswith (lit "#") (lstrip l).
Proof.
  unfold strip, rstrip.
  assert (Hhead : lstrip l = []
                  \/ exists c t, lstrip l = c :: t /\ isspace c = false).
  { induction l as [|d l IH]; simpl; [now left|].
    destruct (isspace d) eqn:E; [exact IH|].
    right. now exists d, l. }
  destruct Hhead as [-> | (c & t & -> & Hc)]; [reflexivity|].
  simpl rev. destruct (lstrip_keeps_last (rev t) c Hc) as [y ->].
  rewrite rev_app_distr. reflexivity.
Qed.

Lemma long_lines_length content :
  length (long_lines_of content)
  = length (filter counted_long (split_lines content)).
Proof.
  unfold long_lines_of. rewrite length_map.
  rewrite <- (filter_enumerate counted_long (split_lines content) 0).
  rewrite length_map. f_equal. apply filter_ext.
  intros [i l]. unfold counted_long. cbn [snd]. now rewrite strip_head.
Qed.

(** X4. The content is its lines joined by newlines.  The line-length
    check counts the lines of more than 120 characters whose first
    character after leading white space is not [#]: it passes when there
    is none, and otherwise records one warning that carries their
    number. *)
Theorem line_length_counts (filepath : Path) (content : str)
        (p : proc AGENTSCompliance) :
  join [NL] (split_lines content) = content
  /\ _check_line_length filepath content p
     = match length (filter counted_long (split_lines content)) with
       | O =>
           (with_passed p (lit "✅ All lines ≤ 120 characters ("
                               ++ path_name filepath ++ lit ")"),
            Ret tt)
       | S k =>
           (with_issue p (path_str filepath,
                          lit "⚠️ " ++ str_of_nat (S k)
                              ++ lit " lines exceed 120 characters",
                          1%Z),
            Ret tt)
       end.
Proof.
  split; [apply join_split_lines|].
  unfold _check_line_length. rewrite <- long_lines_length.
  destruct (long_lines_of content); reflexivity.
Qed.

(* =================================================================== *)
(** * The import section                                                *)
(* =================================================================== *)

Lemma import_section_cons line lines b acc :
  import_section (line :: lines) b acc
  = if is_import_line line
    then import_section lines true (acc ++ [line])
    else if b && match line with
                 | [] => false
                 | c :: _ => negb (isspace c)
                 end
         then acc
         else import_section lines b acc.
Proof. reflexivity. Qed.

Lemma import_section_stops l1 stop l2 b acc :
  existsb is_import_line l1 || b = true ->
  is_import_line stop = false ->
  match stop with [] => False | c :: _ => isspace c = false end ->
  import_section (l1 ++ stop :: l2) b acc
  = import_section (l1 ++ [stop]) b acc.
Proof.
  intros H Hs Hc. revert b acc H.
  induction l1 as [|line l1 IH]; intros b acc H.
  - cbn [existsb orb] in H. subst b. cbn [app].
    rewrite !import_section_cons, Hs.
    destruct stop as [|c stop]; [destruct Hc|]. now rewrite Hc.
  - cbn [app]. rewrite !import_section_cons.
    destruct (is_import_line line) eqn:E.
    + apply IH. apply orb_true_r.
    + destruct (b && match line with
                     | [] => false
                     | c :: _ => negb (isspace c)
                     end); [reflexivity|].
      apply IH. cbn [existsb] in H. now rewrite E in H.
Qed.

Lemma import_section_none lines acc :
  existsb is_import_line lines = false ->
  import_section lines false acc = acc.
Proof.
  revert acc. induction lines as [|line lines IH]; intros acc H;
    [reflexivity|].
  cbn [existsb] in H. apply orb_false_iff in H. destruct H as [E H].
  rewrite import_section_cons, E. cbn [andb]. now apply IH.
Qed.

(** X5. The import-order check looks at the import section only: what
    follows the first line that, after an import line, is not empty, not
    indented and not an import line, changes nothing. *)
Theorem isort_reads_import_section (filepath : Path)
        (l1 : list str) (stop : str) (l2 : list str)
        (p : proc AGENTSCompliance) :
  Forall one_line (l1 ++ stop :: l2) ->
  existsb is_import_line l1 = true ->
  is_import_line stop = false ->
  match stop with [] => False | c :: _ => isspace c = false end ->
  _check_isort_order filepath (join [NL] (l1 ++ stop :: l2)) p
  = _check_isort_order filepath (join [NL] (l1 ++ [stop])) p.
Proof.
  intros Hl Hi Hs Hc. unfold _check_isort_order.
  assert (Hl' : Forall one_line (l1 ++ [stop])).
  { apply Forall_app in Hl. destruct Hl as [H1 H2].
    apply Forall_app. split; [exact H1|].
    constructor; [now inversion H2 | constructor]. }
  rewrite !split_lines_join; try assumption;
    try (now destruct l1; discriminate).
  rewrite import_section_stops; [reflexivity | | assumption | assumption].
  rewrite Hi. reflexivity.
Qed.

(** X6. A content none of whose lines starts, at its first column, with
    [import] or [from] and a blank gets neither a pass message nor an
    issue from the import-order check: an import inside a function or a
    conditional block does not count. *)
Theorem isort_silent_without_imports (filepath : Path) (content : str)
        (p : proc AGENTSCompliance) :
  existsb is_import_line (split_lines content) = false ->
  _check_isort_order filepath content p = (p, Ret tt).
Proof.
  intros H. unfold _check_isort_order.
  now rewrite import_section_none.
Qed.

(* =================================================================== *)
(** * Substrings                                                        *)
(* =================================================================== *)

Lemma str_in_longer a b s :
  str_in (a ++ b) s = true -> str_in a s = true.
Proof.
  intros H. apply str_in_split in H. destruct H as (pre & post & ->).
  rewrite <- app_assoc. apply str_in_app.
Qed.

(** X7. In the union-types check and in the logging check the first test
    adds nothing to the second: the union-types check appends its pass
    message exactly when the content holds a bar followed by a blank,
    and the logging check exactly when it holds [logger]. *)
Theorem redundant_tests (filepath : Path) (content : str)
        (p : proc AGENTSCompliance) :
  _check_union_types filepath content p
  = (if str_in (lit "| ") content
     then with_passed p (lit "✅ Uses modern union types with | ("
                             ++ path_name filepath ++ lit ")")
     else p,
     Ret tt)
  /\ _check_logging filepath content p
     = (if str_in (lit "logger") content
        then with_passed p (lit "✅ Uses project logger ("
                                ++ path_name filepath ++ lit ")")
        else p,
        Ret tt).
Proof.
  unfold _check_union_types, _check_logging. split.
  - destruct (str_in (lit "| ") content) eqn:E.
    + rewrite orb_true_r. reflexivity.
    + destruct (str_in (lit "| None") content) eqn:E'; [|reflexivity].
      change (lit "| None") with (lit "| " ++ lit "None") in E'.
      apply str_in_longer in E'. congruence.
  - destruct (str_in (lit "logger") content) eqn:E.
    + rewrite orb_true_r. reflexivity.
    + destruct (str_in (lit "logger_gui") content) eqn:E'; [|reflexivity].
      change (lit "logger_gui") with (lit "logger" ++ lit "_gui") in E'.
      apply str_in_longer in E'. congruence.
Qed.

(* =================================================================== *)
(** * The naming check                                                  *)
(* =================================================================== *)

Lemma findall_nil_iff r prev s :
  findall_from r 0 prev s = [] <-> search_from r prev s = false.
Proof.
  revert prev. induction s as [|c s IH]; intros prev; simpl.
  - destruct (match_here r prev []); split; (discriminate || reflexivity).
  - destruct (match_here r prev (c :: s)).
    + split; discriminate.
    + apply IH.
Qed.

Lemma class_re_eq :
  class_re
  = IBol :: map ILit (lit "class")
      ++ IPlus CSpace :: ISet (CIn [(65, 90)]%N)
      :: [IStar (CIn [(97, 122); (65, 90); (48, 57)]%N);
          IStar CSpace; ISet (CIn [(58, 58); (40, 40)]%N)].
Proof. reflexivity. Qed.

Lemma at_bol_after pre :
  at_bol (prev_after None pre) = true ->
  pre = [] \/ exists pre', pre = pre' ++ [NL].
Proof.
  destruct pre as [|c0 pre0] eqn:E; [now left|].
  rewrite <- E. intros H. right.
  assert (Hne : pre <> []) by (rewrite E; discriminate).
  destruct (exists_last Hne) as (pre' & c & Hp).
  rewrite Hp in H. unfold prev_after in H. rewrite fold_left_app in H.
  simpl in H. apply N.eqb_eq in H. subst c. now exists pre'.
Qed.

Lemma class_search_needs content :
  re_search class_re content = true ->
  exists pre sp ws c rest,
    content = pre ++ lit "class" ++ sp :: ws ++ c :: rest
    /\ (pre = [] \/ exists pre', pre = pre' ++ [NL])
    /\ isspace sp = true /\ all_space ws
    /\ (65 <= c <= 90)%N.
Proof.
  unfold re_search. intros H. apply search_from_inv in H.
  destruct H as (pre & rest & n & -> & H).
  rewrite class_re_eq in H. cbn [match_here] in H.
  destruct (at_bol (prev_after None pre)) eqn:Hb; [|discriminate].
  apply match_here_lit_inv in H. destruct H as (s1 & m1 & -> & H & _).
  cbn [match_here] in H.
  destruct s1 as [|sp s1]; [discriminate|].
  destruct (cset_mem CSpace sp) eqn:Hsp; [|discriminate].
  destruct (match_star CSpace _ (Some sp) s1) as [j|] eqn:E;
    [|discriminate].
  apply match_star_inv in E.
  destruct E as (ws & s2 & m2 & -> & Hws & E & _).
  cbn [match_here] in E.
  destruct s2 as [|c s2]; [discriminate|].
  destruct (cset_mem (CIn [(65, 90)]%N) c) eqn:Hc; [|discriminate].
  exists pre, sp, ws, c, s2.
  split; [reflexivity|]. split; [now apply at_bol_after|].
  split; [exact Hsp|]. split; [exact Hws|].
  unfold cset_mem, in_ranges, in_range in Hc. simpl in Hc.
  rewrite orb_false_r in Hc. apply andb_true_iff in Hc.
  destruct Hc as [H1 H2]. apply N.leb_le in H1, H2. lia.
Qed.

(** X8. The naming check never records an issue: it returns, and all it
    does is append its two pass messages or not.  The message about
    classes is appended only when some line starts, at its first
    column, with [class], white space and a capital ASCII letter: a
    class with a lower-case name, or an indented one, is passed over in
    silence. *)
Theorem naming_only_passes (filepath : Path) (content : str)
        (p : proc AGENTSCompliance) :
  exists np,
    _check_naming filepath content p
    = (mkProc (mkChecker (issues (self p)) (passed (self p) ++ np))
              (stdout p), Ret tt)
    /\ incl np [lit "✅ Classes in PascalCase (" ++ path_name filepath
                    ++ lit ")";
                lit "✅ Functions in snake_case (" ++ path_name filepath
                    ++ lit ")"]
    /\ (In (lit "✅ Classes in PascalCase (" ++ path_name filepath
                ++ lit ")") np ->
        exists pre sp ws c rest,
          content = pre ++ lit "class" ++ sp :: ws ++ c :: rest
          /\ (pre = [] \/ exists pre', pre = pre' ++ [NL])
          /\ isspace sp = true /\ all_space ws
          /\ (65 <= c <= 90)%N).
Proof.
  unfold _check_naming, re_findall.
  destruct (findall_from class_re 0 None content) as [|m1 l1] eqn:E1;
    destruct (findall_from func_re 0 None content) as [|m2 l2] eqn:E2;
    unfold bind, ret, passed_append; cbn [self stdout issues passed].
  - exists []. rewrite app_nil_r. destruct p as [[i ps] o].
    split; [reflexivity|]. split; [intros x []|]. intros [].
  - eexists [_]. split; [reflexivity|]. split.
    + intros x [<-|[]]. right. now left.
    + intros [H|[]]. exfalso.
      assert (Hd : forall a b : str,
                 lit "✅ Functions in snake_case (" ++ a
                 = lit "✅ Classes in PascalCase (" ++ b -> False).
      { intros a b Hab. vm_compute in Hab. discriminate. }
      exact (Hd _ _ H).
  - eexists [_]. split; [reflexivity|]. split.
    + intros x [<-|[]]. now left.
    + intros _. apply class_search_needs. unfold re_search.
      destruct (search_from class_re None content) eqn:S; [reflexivity|].
      apply findall_nil_iff in S. congruence.
  - eexists [_; _]. rewrite <- app_assoc. split; [reflexivity|]. split.
    + intros x [<-|[<-|[]]]; [now left | right; now left].
    + intros _. apply class_search_needs. unfold re_search.
      destruct (search_from class_re None content) eqn:S; [reflexivity|].
      apply findall_nil_iff in S. congruence.
Qed.

(* =================================================================== *)
(** * The issues of a run                                               *)
(* =================================================================== *)

Lemma effect_weaken (Q Q' : issue -> Prop) {A}
      (m : M (proc AGENTSCompliance) A) :
  (forall i, Q i -> Q' i) -> effect Q m -> effect Q' m.
Proof.
  intros H Hm p. destruct (Hm p) as (ni & np & out & r & E & HQ).
  exists ni, np, out, r. split; [exact E|].
  eapply Forall_impl; [exact H | exact HQ].
Qed.

Lemma ten_checks_effect filepath content :
  effect (issue_of filepath) (ten_checks filepath content).
Proof.
  unfold ten_checks, issue_of.
  apply effect_bind.
  { apply ok_effect, deprecated_typing_ok. intros name Hn.
    left. now exists name. }
  apply effect_bind; [apply ok_effect, union_types_ok|].
  apply effect_bind.
  { apply ok_effect, bare_except_ok. right. now left. }
  apply effect_bind.
  { apply type_hints_effect. intros e. do 2 right. left. now exists e. }
  apply ok_effect.
  apply ok_bind; [apply naming_ok|].
  apply ok_bind.
  { apply docstrings_ok. intros n. do 3 right. left. now exists n. }
  apply ok_bind.
  { apply line_length_ok. intros n. do 4 right. left. now exists n. }
  apply ok_bind; [apply isort_order_ok; now do 5 right|].
  apply ok_bind; [apply thread_safety_ok | apply logging_ok].
Qed.

Lemma main_turn_effect w filepath :
  effect (fun i => path_exists w filepath = true /\ issue_of filepath i)
         (main_turn w filepath).
Proof.
  unfold main_turn. destruct (path_exists w filepath) eqn:Ex.
  - intros p. destruct (read_text w filepath) as [content|e] eqn:Hr.
    + rewrite (check_file_read _ _ _ _ Hr).
      destruct (ten_checks_effect filepath content
                  (mkProc (self p) (stdout p ++ file_header filepath)))
        as (ni & np & out & r & E & HQ).
      exists ni, np, (file_header filepath ++ out), r.
      rewrite E. cbn [self stdout]. rewrite app_assoc.
      split; [reflexivity|].
      eapply Forall_impl; [|exact HQ]. intros i Hi. now split.
    + rewrite (check_file_unreadable _ _ _ _ Hr).
      exists [], [], (file_header filepath), (Raise e).
      rewrite !app_nil_r. destruct p as [[i ps] o]. now split.
  - apply ok_effect, ok_print.
Qed.

Lemma for_each_effect {A} (Q : issue -> Prop) (xs : list A)
      (body : A -> M (proc AGENTSCompliance) unit) :
  (forall x, In x xs -> effect Q (body x)) ->
  effect Q (for_each xs body).
Proof.
  induction xs as [|x xs IH]; intros H.
  - apply ok_effect, ok_ret.
  - cbn [for_each]. apply effect_bind.
    + apply H. now left.
    + apply IH. intros y Hy. apply H. now right.
Qed.

Lemma severity_split (l : list issue) :
  Forall (fun i => severity i = 1%Z \/ severity i = 2%Z) l ->
  length (filter (fun i => (severity i =? 2)%Z) l)
  + length (filter (fun i => (severity i =? 1)%Z) l)
  = length l.
Proof.
  intros H. induction H as [|i l [Hi|Hi] _ IH]; [reflexivity| |];
    simpl; rewrite Hi; simpl; lia.
Qed.

Lemma issue_of_severity filepath i :
  issue_of filepath i -> severity i = 1%Z \/ severity i = 2%Z.
Proof.
  intros [(n & _ & ->)|[->|[(e & ->)|[(n & ->)|[(n & ->)| ->]]]]];
    unfold severity; cbn [snd]; auto.
Qed.

(** X9. Whatever a run of the compliance checker does, and also when it
    ends by an exception, each issue that it has recorded belongs to one
    of the three files of the list, a file that exists, carries the
    name of that file and has one of the six forms that the checks
    produce; so its severity is 1 or 2, and the errors and the warnings
    that [report] counts are together all the issues. *)
Theorem run_issues_wellformed (w : world) (base_dir : Path) :
  (forall i, In i (issues (self (fst (run_compliance w base_dir)))) ->
             exists f, In f (files_to_check base_dir)
                       /\ path_exists w f = true
                       /\ issue_of f i)
  /\ length (issues_of_severity 2 (self (fst (run_compliance w base_dir))))
     + length (issues_of_severity 1 (self (fst (run_compliance w base_dir))))
     = length (issues (self (fst (run_compliance w base_dir)))).
Proof.
  set (Q := fun i => exists f, In f (files_to_check base_dir)
                               /\ path_exists w f = true /\ issue_of f i).
  assert (Hloop : effect Q (for_each (files_to_check base_dir)
                                     (main_turn w))).
  { apply for_each_effect. intros f Hf.
    apply effect_weaken with (2 := main_turn_effect w f).
    intros i [Ex Hi]. now exists f. }
  assert (HQ : Forall Q (issues (self (fst (run_compliance w base_dir))))).
  { unfold run_compliance. rewrite compliance_main_eq.
    destruct (Hloop (mkProc __init__ [])) as (ni & np & out & r & E & Hni).
    unfold bind. rewrite E. destruct r as [[]|e].
    - destruct (report_returns
                  (mkProc (mkChecker (issues (self (mkProc __init__ []))
                                             ++ ni)
                                     (passed (self (mkProc __init__ []))
                                             ++ np))
                          (stdout (mkProc __init__ []) ++ out)))
        as [o Hr].
      rewrite Hr. exact Hni.
    - exact Hni. }
  split.
  - intros i Hi. rewrite Forall_forall in HQ. now apply HQ.
  - unfold issues_of_severity. apply severity_split.
    eapply Forall_impl; [|exact HQ].
    intros i (f & _ & _ & Hi). now apply issue_of_severity with (filepath := f).
Qed.

(* =================================================================== *)
(** * What makes the run fail                                           *)
(* =================================================================== *)

Lemma has_error_app a b : has_error (a ++ b) = has_error a || has_error b.
Proof. apply existsb_app. Qed.

Lemma ok_when_bind b1 b2 (a b : M (proc AGENTSCompliance) unit) :
  ok_when b1 a -> ok_when b2 b -> ok_when (b1 || b2) (a ;; b).
Proof.
  intros Ha Hb p.
  destruct (Ha p) as (ni & np & out & Ea & Qa).
  destruct (Hb (mkProc (mkChecker (issues (self p) ++ ni)
                                  (passed (self p) ++ np))
                       (stdout p ++ out)))
    as (ni' & np' & out' & Eb & Qb).
  exists (ni ++ ni'), (np ++ np'), (out ++ out').
  unfold bind. rewrite Ea, Eb. cbn [self stdout issues passed].
  rewrite !app_assoc, has_error_app, Qa, Qb. now split.
Qed.

Lemma ok_warning_only m : ok warning_only m -> ok_when false m.
Proof.
  intros H p. destruct (H p) as (ni & np & out & E & HQ).
  exists ni, np, out. split; [exact E|]. clear E.
  unfold has_error. induction HQ as [|i l Hi _ IH]; [reflexivity|].
  simpl. unfold warning_only in Hi. rewrite Hi. exact IH.
Qed.

Lemma ok_when_issue i :
  ok_when (severity i =? 2)%Z (issues_append i).
Proof.
  intros [[is0 ps] o]. exists [i], [], []. unfold issues_append.
  cbn [self stdout issues passed]. rewrite !app_nil_r.
  split; [reflexivity|]. simpl. apply orb_false_r.
Qed.

Lemma deprecated_when filepath content :
  ok_when (existsb (fun pn => re_search (fst pn) content) deprecated)
          (_check_no_deprecated_typing filepath content).
Proof.
  unfold _check_no_deprecated_typing. generalize deprecated as todo.
  induction todo as [|[pattern name] todo IH]; simpl.
  - apply ok_warning_only, ok_passed.
  - destruct (re_search pattern content); simpl; [|exact IH].
    apply (ok_when_issue (path_str filepath, deprecated_msg name, 2%Z)).
Qed.

Lemma bare_except_when filepath content :
  ok_when (re_search bare_except_re content)
          (_check_no_bare_except filepath content).
Proof.
  unfold _check_no_bare_except.
  destruct (re_search bare_except_re content).
  - apply (ok_when_issue (path_str filepath, bare_except_msg, 2%Z)).
  - apply ok_warning_only, ok_passed.
Qed.

Lemma type_hints_when filepath content :
  (forall e, ast_parse content = Raise e ->
             isinstance_SyntaxError e = true) ->
  ok_when match ast_parse content with
          | Ret _ => false
          | Raise e => isinstance_SyntaxError e
          end
          (_check_type_hints filepath content).
Proof.
  intros Hp. unfold _check_type_hints.
  destruct (ast_parse content) as [nodes|e].
  - apply ok_warning_only. ok_steps.
  - rewrite (Hp e eq_refl).
    apply (ok_when_issue (path_str filepath,
                          lit "❌ Syntax error: " ++ exn_text e, 2%Z)).
Qed.

Lemma ten_checks_when filepath content :
  (forall e, ast_parse content = Raise e ->
             isinstance_SyntaxError e = true) ->
  ok_when (error_condition content) (ten_checks filepath content).
Proof.
  intros Hp. unfold ten_checks, error_condition.
  set (d := existsb (fun pn => re_search (fst pn) content) deprecated).
  set (b := re_search bare_except_re content).
  set (s := match ast_parse content with
            | Ret _ => false
            | Raise e => isinstance_SyntaxError e
            end).
  replace (d || b || s) with (d || (false || (b || (s || false))))
    by (destruct d, b, s; reflexivity).
  apply ok_when_bind; [apply deprecated_when|].
  apply ok_when_bind; [apply ok_warning_only, union_types_ok|].
  apply ok_when_bind; [apply bare_except_when|].
  apply ok_when_bind; [now apply type_hints_when|].
  apply ok_warning_only.
  apply ok_bind; [apply naming_ok|].
  apply ok_bind; [apply docstrings_ok; intros; reflexivity|].
  apply ok_bind; [apply line_length_ok; intros; reflexivity|].
  apply ok_bind; [apply isort_order_ok; reflexivity|].
  apply ok_bind; [apply thread_safety_ok | apply logging_ok].
Qed.

Lemma main_turn_when w filepath :
  checkable w filepath ->
  ok_when (file_has_error w filepath) (main_turn w filepath).
Proof.
  intros Hc p. unfold main_turn, file_has_error.
  destruct (path_exists w filepath) eqn:Ex.
  - destruct Hc as [Hc | (content & Hr & Hp)]; [congruence|].
    rewrite Hr, (check_file_read _ _ _ _ Hr). cbn [andb].
    destruct (ten_checks_when filepath content Hp
                (mkProc (self p) (stdout p ++ file_header filepath)))
      as (ni & np & out & E & HQ).
    exists ni, np, (file_header filepath ++ out).
    rewrite E. cbn [self stdout]. rewrite app_assoc. now split.
  - cbn [andb]. apply ok_warning_only, ok_print.
Qed.

Lemma for_each_when w files :
  (forall f, In f files -> checkable w f) ->
  ok_when (existsb (file_has_error w) files) (for_each files (main_turn w)).
Proof.
  induction files as [|f files IH]; intros H.
  - apply ok_warning_only, ok_ret.
  - cbn [for_each existsb]. apply ok_when_bind.
    + apply main_turn_when, H. now left.
    + apply IH. intros g Hg. apply H. now right.
Qed.

Lemma has_error_length l :
  (length (filter (fun i => (severity i =? 2)%Z) l) =? 0) = negb (has_error l).
Proof.
  induction l as [|i l IH]; [reflexivity|].
  simpl. destruct (severity i =? 2)%Z; simpl; [reflexivity | exact IH].
Qed.

(** X10. A run over files that it can go through exits with 1 exactly
    when one of the three files exists and its content matches a
    deprecated-typing pattern, matches the bare-except pattern, or does
    not parse; otherwise it exits with 0, whatever the docstring,
    line-length and import-order checks have found. *)
Theorem exit_code_by_error_conditions (w : world) (base_dir : Path) :
  (forall f, In f (files_to_check base_dir) -> checkable w f) ->
  snd (run_compliance w base_dir)
  = Ret (if existsb (file_has_error w) (files_to_check base_dir)
         then 1%Z else 0%Z).
Proof.
  intros Hc. unfold run_compliance. rewrite compliance_main_eq.
  destruct (for_each_when w _ Hc (mkProc __init__ []))
    as (ni & np & out & E & Hb).
  unfold bind. rewrite E.
  match goal with |- snd (report ?q) = _ =>
    destruct (report_returns q) as [o Hr]; rewrite Hr end.
  cbn [snd self issues __init__ app]. unfold issues_of_severity.
  cbn [issues]. rewrite has_error_length, Hb.
  now destruct (existsb (file_has_error w) (files_to_check base_dir)).
Qed.

Lemma report_prints_after (p : proc AGENTSCompliance) :
  exists out, stdout (fst (report p)) = stdout p ++ out.
Proof.
  unfold report. unfold bind at 1 2 3 4. unfold print at 1 2 3 4. simpl.
  unfold bind at 1. rewrite for_each_print. simpl.
  destruct (issues (self p)) as [|i0 is0] eqn:E.
  - run_step. eexists. cbn [fst stdout]. rewrite <- !app_assoc. reflexivity.
  - unfold bind at 1. unfold bind at 1. unfold print at 1. simpl.
    unfold bind at 1. rewrite for_each_print. simpl.
    unfold bind at 1. rewrite for_each_print. simpl.
    run_step. eexists. cbn [fst stdout]. rewrite <- !app_assoc. reflexivity.
Qed.

(** X11. When none of the three files exists, nothing is read and nothing
    is checked: the run records no issue and no pass message, prints a
    line for each missing file, and exits with 0. *)
Theorem missing_files_pass (w : world) (base_dir : Path) :
  (forall f, In f (files_to_check base_dir) -> path_exists w f = false) ->
  self (fst (run_compliance w base_dir)) = __init__
  /\ snd (run_compliance w base_dir) = Ret 0%Z
  /\ forall f, In f (files_to_check base_dir) ->
               In (lit "⚠️ File not found: " ++ path_str f)
                  (stdout (fst (run_compliance w base_dir))).
Proof.
  intros H.
  assert (E : exists out,
             run_compliance w base_dir
             = (mkProc __init__
                       (map (fun f => lit "⚠️ File not found: " ++ path_str f)
                            (files_to_check base_dir) ++ out),
                Ret 0%Z)).
  { unfold run_compliance, compliance_main, files_to_check in *.
    cbn [for_each map].
    rewrite !(H _ (or_introl eq_refl)).
    rewrite !(H _ (or_intror (or_introl eq_refl))).
    rewrite !(H _ (or_intror (or_intror (or_introl eq_refl)))).
    unfold bind at 1 2 3 4. unfold print at 1 2 3. unfold ret at 1.
    cbn [self stdout app].
    match goal with |- context [report ?q] =>
      destruct (report_returns q) as [o Hr];
      destruct (report_prints_after q) as [out Hout]; rewrite Hr in *
    end.
    cbn [fst snd self stdout] in *. subst o. exists out. reflexivity. }
  destruct E as [out ->]. cbn [fst snd self stdout].
  split; [reflexivity|]. split; [reflexivity|].
  intros f Hf. apply in_or_app. left.
  now apply (in_map (fun f => lit "⚠️ File not found: " ++ path_str f)).
Qed.

(* =================================================================== *)
(** * The integration verifier: further properties                      *)
(* =================================================================== *)

(** X12. A file check passes exactly when the file can be read and its
    text holds the string that is looked for, anywhere; it fails when
    the text does not hold it or when the read raises an [Exception];
    and it raises only what is raised by the read and is not an
    [Exception].  The number of the check and the two messages play no
    part in the verdict. *)
Theorem file_content_verdict (w : world) (file_path : Path)
        (search_str : str) (check_num : Z) (success_msg fail_msg : str)
        (p : proc unit) :
  (snd (_check_file_content w file_path search_str check_num success_msg
                            fail_msg p) = Ret (1, 0)%Z
   <-> exists pre post,
         open_read w file_path = Ret (pre ++ search_str ++ post))
  /\ (snd (_check_file_content w file_path search_str check_num success_msg
                               fail_msg p) = Ret (0, 1)%Z
      <-> (exists content,
              open_read w file_path = Ret content
              /\ forall pre post, content <> pre ++ search_str ++ post)
          \/ (exists e, open_read w file_path = Raise e
                        /\ isinstance_Exception e = true))
  /\ (forall e,
         snd (_check_file_content w file_path search_str check_num
                                  success_msg fail_msg p) = Raise e
         <-> open_read w file_path = Raise e
             /\ isinstance_Exception e = false).
Proof.
  rewrite check_file_content_emit. unfold emit, file_probe, caught.
  destruct (open_read w file_path) as [content|e0] eqn:Ho.
  - destruct (str_in search_str content) eqn:Hs;
      unfold bind, print, ret; cbn [snd tally_of].
    + destruct (str_in_split _ _ Hs) as (pre & post & E).
      split; [|split].
      * split; [intros _; exists pre, post; now rewrite E | reflexivity].
      * split; [discriminate|].
        intros [(c & Hc & Hno)|(e & He & _)]; [|discriminate].
        injection Hc as <-. now elim (Hno pre post).
      * intros e. split; [discriminate | intros [He _]; discriminate].
    + split; [|split].
      * split; [discriminate|].
        intros (pre & post & E). injection E as ->.
        rewrite str_in_app in Hs. discriminate.
      * split; [|reflexivity]. intros _. left. exists content.
        split; [reflexivity|]. intros pre post ->.
        rewrite str_in_app in Hs. discriminate.
      * intros e. split; [discriminate | intros [He _]; discriminate].
  - destruct (isinstance_Exception e0) eqn:Hex;
      unfold bind, print, ret, raise; cbn [snd tally_of].
    + split; [|split].
      * split; [discriminate | intros (pre & post & E); discriminate].
      * split; [|reflexivity]. intros _. right. now exists e0.
      * intros e. split; [discriminate|].
        intros [He Hn]. injection He as <-. congruence.
    + split; [|split].
      * split; [discriminate | intros (pre & post & E); discriminate].
      * split; [discriminate|].
        intros [(c & Hc & _)|(e & He & Hy)]; [discriminate|].
        injection He as <-. congruence.
      * intros e. split.
        -- intros H. injection H as <-. now split.
        -- intros [He _]. now injection He as <-.
Qed.

Lemma emitted_in l np nf x n okb text :
  emit_result l np nf = Ret x ->
  In (n, Ret (okb, text)) l ->
  In (check_line okb n text) (emitted l).
Proof.
  revert np nf. induction l as [|[m [[b t]|e]] l IH]; intros np nf H Hin.
  - destruct Hin.
  - cbn [emit_result] in H. cbn [emitted]. destruct Hin as [E|Hin].
    + injection E as -> -> ->. now left.
    + right. eapply IH; eassumption.
  - discriminate.
Qed.

(** In a run that returns, each check has a verdict: its line is in the
    output, and it is what the output reports for it. *)
Lemma returning_run_probe w project_root code n :
  snd (run_integration w project_root) = Ret code ->
  (1 <= n <= 10)%Z ->
  exists okb text,
    In (n, Ret (okb, text)) (probes w project_root)
    /\ find_emitted n (probes w project_root) = Some okb
    /\ reported n (stdout (fst (run_integration w project_root))) = Some okb
    /\ In (check_line okb n text)
          (stdout (fst (run_integration w project_root))).
Proof.
  intros Hret Hn.
  destruct (run_returns_result _ _ _ Hret) as [[np nf] Hx].
  destruct (emit_result_found _ _ _ _ n Hx) as [okb Hf].
  { now apply in_check_numbers. }
  destruct (find_emitted_in _ _ _ Hf) as [text Hin].
  exists okb, text. split; [exact Hin|]. split; [exact Hf|].
  split; [now rewrite reported_run|].
  rewrite run_integration_shape, Hx. cbn [fst stdout].
  apply in_or_app. right. apply in_or_app. left.
  eapply emitted_in; eassumption.
Qed.

Lemma returning_run_code w project_root code n :
  snd (run_integration w project_root) = Ret code ->
  (1 <= n <= 10)%Z ->
  find_emitted n (probes w project_root) = Some false ->
  code = 1%Z.
Proof.
  intros Hret Hn Hf.
  destruct (run_returns_result _ _ _ Hret) as [[np nf] Hx].
  rewrite run_integration_shape, Hx in Hret. cbn [snd] in Hret.
  destruct (emit_result_counts _ _ _ _ _ Hx) as (_ & _ & _ & Hall).
  destruct (Z.eqb_spec nf 0) as [E|E]; [|now injection Hret].
  apply Hall in E.
  rewrite (all_pass_found _ n E) in Hf; [discriminate|].
  now apply in_check_numbers.
Qed.

(** X13. Checks 6 and 7 both import [MainWindow]: when that import
    raises, a run that returns has reported both as failed, each with
    the text of the exception, and exits with 1; so no run exits with 0,
    whatever the other eight checks find. *)
Theorem main_window_import_shared (w : world) (project_root : Path)
        (e : exn) (code : Z) :
  import_from w main_window_module (lit "MainWindow") = Raise e ->
  snd (run_integration w project_root) = Ret code ->
  code = 1%Z
  /\ isinstance_Exception e = true
  /\ reported 6 (stdout (fst (run_integration w project_root))) = Some false
  /\ reported 7 (stdout (fst (run_integration w project_root))) = Some false
  /\ In (lit "❌ Check 6: MainWindow inheritance check failed: "
             ++ exn_text e)
        (stdout (fst (run_integration w project_root)))
  /\ In (lit "❌ Check 7: Method check failed: " ++ exn_text e)
        (stdout (fst (run_integration w project_root))).
Proof.
  intros Hm Hret.
  destruct (returning_run_probe _ _ _ 6 Hret ltac:(lia))
    as (b6 & t6 & In6 & F6 & R6 & L6).
  destruct (returning_run_probe _ _ _ 7 Hret ltac:(lia))
    as (b7 & t7 & In7 & F7 & R7 & L7).
  assert (E6 : inherit_probe w = Ret (b6, t6)).
  { apply (key_functional (probes w project_root) 6%Z);
      [apply probes_nodup | entry 5 | exact In6]. }
  assert (E7 : method_probe w = Ret (b7, t7)).
  { apply (key_functional (probes w project_root) 7%Z);
      [apply probes_nodup | entry 6 | exact In7]. }
  unfold inherit_probe in E6. unfold method_probe in E7.
  rewrite Hm in E6, E7. unfold caught in E6, E7.
  cbv beta zeta in E6, E7.
  destruct (isinstance_Exception e); [|discriminate].
  apply Ret_inj, pair_equal_spec in E6. destruct E6 as [Eb6 Et6].
  apply Ret_inj, pair_equal_spec in E7. destruct E7 as [Eb7 Et7].
  rewrite <- Eb6 in F6, R6, L6. rewrite <- Et6 in L6.
  rewrite <- Eb7 in F7, R7, L7. rewrite <- Et7 in L7.
  rewrite inherit_failed_line in L6. rewrite method_failed_line in L7.
  split; [exact (returning_run_code _ _ _ 6 Hret ltac:(lia) F6)|].
  split; [reflexivity|]. split; [exact R6|]. split; [exact R7|].
  split; [exact L6 | exact L7].
Qed.

Lemma filter_cons_ext {A} (f g : A -> bool) x xs :
  (forall a, In a xs -> f a = g a) ->
  filter f (x :: xs) = (if f x then [x] else []) ++ filter g xs.
Proof.
  intros H. simpl. rewrite (filter_ext_in f g xs H). now destruct (f x).
Qed.

Lemma emit_result_tally l : forall np nf np' nf',
  NoDup (map fst l) ->
  emit_result l np nf = Ret (np', nf') ->
  (np' = np + Z.of_nat (length (filter
                                  (fun n => hit true (find_emitted n l))
                                  (map fst l))))%Z
  /\ (nf' = nf + Z.of_nat (length (filter
                                     (fun n => hit false (find_emitted n l))
                                     (map fst l))))%Z.
Proof.
  induction l as [|[m [[okb text]|e]] l IH]; intros np nf np' nf' Hnd H.
  - injection H as <- <-. simpl. lia.
  - cbn [emit_result] in H. cbn [map fst] in Hnd |- *.
    inversion Hnd as [|? ? Hm Hnd']; subst.
    destruct (IH _ _ _ _ Hnd' H) as [Hp Hf].
    assert (Ht : forall b,
               filter (fun n => hit b (find_emitted n
                                         ((m, Ret (okb, text)) :: l)))
                      (m :: map fst l)
               = (if Bool.eqb b okb then [m] else [])
                   ++ filter (fun n => hit b (find_emitted n l))
                             (map fst l)).
    { intros b.
      rewrite (filter_cons_ext _ (fun n => hit b (find_emitted n l))).
      - cbn [find_emitted]. rewrite Z.eqb_refl. reflexivity.
      - intros n Hn. cbn [find_emitted].
        destruct (Z.eqb_spec n m) as [->|]; [now elim Hm | reflexivity]. }
    rewrite !Ht, !length_app.
    destruct okb; cbn [Bool.eqb length tally_of fst snd] in *; lia.
  - discriminate.
Qed.

(** X14. In a run of the verifier that returns, the two counters of the
    summary line are the numbers of checks that the output reports as
    passed and as failed, and the exit code is 0 exactly when no check
    is reported as failed. *)
Theorem summary_counts_reported (w : world) (project_root : Path)
        (code : Z) :
  snd (run_integration w project_root) = Ret code ->
  In ([NL] ++ lit "📊 Résultat: "
           ++ str_of_Z (count_reported true
                          (stdout (fst (run_integration w project_root))))
           ++ lit " ✅  /  "
           ++ str_of_Z (count_reported false
                          (stdout (fst (run_integration w project_root))))
           ++ lit " ❌" ++ [NL])
     (stdout (fst (run_integration w project_root)))
  /\ (count_reported true (stdout (fst (run_integration w project_root)))
      + count_reported false (stdout (fst (run_integration w project_root)))
      = 10)%Z
  /\ code = (if (count_reported false
                   (stdout (fst (run_integration w project_root))) =? 0)%Z
             then 0%Z else 1%Z).
Proof.
  intros Hret.
  destruct (run_returns_result _ _ _ Hret) as [[np nf] Hx].
  destruct (emit_result_tally _ 0%Z 0%Z np nf (probes_nodup w project_root)
                              Hx) as [Hp Hf].
  assert (Hrep : forall b,
             count_reported b (stdout (fst (run_integration w project_root)))
             = Z.of_nat (length (filter
                                   (fun n => hit b (find_emitted n
                                                 (probes w project_root)))
                                   (map fst (probes w project_root))))).
  { intros b. unfold count_reported. rewrite probes_numbers.
    f_equal. f_equal. apply filter_ext_in. intros n Hn.
    rewrite reported_run; [reflexivity|].
    apply (in_check_numbers w project_root). rewrite probes_numbers.
    exact Hn. }
  rewrite !Hrep. rewrite Z.add_0_l in Hp, Hf. rewrite <- Hp, <- Hf.
  destruct (emit_result_counts _ _ _ _ _ Hx) as (Hsum & _).
  rewrite run_integration_shape, Hx in Hret |- *.
  cbn [fst snd stdout] in *.
  split; [|split].
  - apply in_or_app. right. apply in_or_app. right.
    unfold summary_lines. right. left. reflexivity.
  - rewrite Hsum. reflexivity.
  - now injection Hret.
Qed.

(* =================================================================== *)
(** * One file, and the report                                          *)
(* =================================================================== *)

Lemma bind_raise_cases {S A B} (a : M S A) (b : A -> M S B) (s : S) e :
  snd (bind a b s) = Raise e ->
  snd (a s) = Raise e \/ exists x s', snd (b x s') = Raise e.
Proof.
  unfold bind. destruct (a s) as [s' [x|e']]; simpl; intros H.
  - right. now exists x, s'.
  - left. injection H as ->. reflexivity.
Qed.

Lemma ok_no_raise Q m p e : ok Q m -> snd (m p) <> Raise e.
Proof.
  intros H. destruct (H p) as (ni & np & out & E & _).
  rewrite E. discriminate.
Qed.

Lemma ten_checks_raise filepath content p e :
  snd (ten_checks filepath content p) = Raise e ->
  ast_parse content = Raise e /\ isinstance_SyntaxError e = false.
Proof.
  unfold ten_checks. intros H.
  apply bind_raise_cases in H. destruct H as [H|(x & p1 & H)].
  { exfalso. revert H. apply (ok_no_raise any_issue).
    apply deprecated_typing_ok. intros. exact I. }
  apply bind_raise_cases in H. destruct H as [H|(x2 & p2 & H)].
  { exfalso. revert H. apply (ok_no_raise any_issue).
    apply union_types_ok. }
  apply bind_raise_cases in H. destruct H as [H|(x3 & p3 & H)].
  { exfalso. revert H. apply (ok_no_raise any_issue).
    apply bare_except_ok. exact I. }
  apply bind_raise_cases in H. destruct H as [H|(x4 & p4 & H)].
  - unfold _check_type_hints in H.
    destruct (ast_parse content) as [nodes|e'].
    + exfalso. revert H. apply (ok_no_raise any_issue). ok_steps.
    + destruct (isinstance_SyntaxError e') eqn:Hs.
      * exfalso. revert H. apply (ok_no_raise any_issue).
        apply ok_issue. exact I.
      * unfold raise in H. cbn [snd] in H. injection H as ->.
        now split.
  - exfalso. revert H. apply (ok_no_raise any_issue).
    apply ok_bind; [apply naming_ok|].
    apply ok_bind; [apply docstrings_ok; intros; exact I|].
    apply ok_bind; [apply line_length_ok; intros; exact I|].
    apply ok_bind; [apply isort_order_ok; exact I|].
    apply ok_bind; [apply thread_safety_ok | apply logging_ok].
Qed.

(** X15. Whatever the state in which [check_file] is called, and also
    when it raises, it only appends: the issues, the pass messages and
    the output of before are kept, the two header lines come first in
    what is printed, and each new issue has the name of the file and
    one of the six forms of the checks.  It raises only what
    [read_text] raises, before any check has run, or what [ast.parse]
    raises and is not a [SyntaxError]. *)
Theorem check_file_only_appends (w : world) (filepath : Path)
        (p : proc AGENTSCompliance) :
  exists ni np out,
    fst (check_file w filepath p)
    = mkProc (mkChecker (issues (self p) ++ ni) (passed (self p) ++ np))
             (stdout p ++ file_header filepath ++ out)
    /\ Forall (issue_of filepath) ni
    /\ forall e,
         snd (check_file w filepath p) = Raise e ->
         (read_text w filepath = Raise e
          /\ ni = [] /\ np = [] /\ out = [])
         \/ (exists content,
                read_text w filepath = Ret content
                /\ ast_parse content = Raise e
                /\ isinstance_SyntaxError e = false).
Proof.
  destruct (read_text w filepath) as [content|e0] eqn:Hr.
  - rewrite (check_file_read _ _ _ _ Hr).
    destruct (ten_checks_effect filepath content
                (mkProc (self p) (stdout p ++ file_header filepath)))
      as (ni & np & out & r & E & HQ).
    exists ni, np, out. rewrite E. cbn [fst snd self stdout].
    rewrite <- app_assoc. split; [reflexivity|]. split; [exact HQ|].
    intros e He. right. exists content. split; [reflexivity|].
    apply ten_checks_raise
      with (filepath := filepath)
           (p := mkProc (self p) (stdout p ++ file_header filepath)).
    now rewrite E.
  - rewrite (check_file_unreadable _ _ _ _ Hr).
    exists [], [], []. cbn [fst snd]. rewrite !app_nil_r.
    split; [now destruct p as [[i ps] o]|]. split; [constructor|].
    intros e He. injection He as <-. left. now repeat split.
Qed.

Lemma loop_issues w base_dir :
  Forall (fun i => severity i = 1%Z \/ severity i = 2%Z)
         (issues (self (fst (for_each (files_to_check base_dir)
                                      (main_turn w)
                                      (mkProc __init__ []))))).
Proof.
  assert (H : effect (fun i => severity i = 1%Z \/ severity i = 2%Z)
                     (for_each (files_to_check base_dir) (main_turn w))).
  { apply for_each_effect. intros f _.
    apply effect_weaken with (2 := main_turn_effect w f).
    intros i [_ Hi]. now apply issue_of_severity with (filepath := f). }
  destruct (H (mkProc __init__ [])) as (ni & np & out & r & E & HQ).
  rewrite E. exact HQ.
Qed.

Lemma report_lines (p : proc AGENTSCompliance) :
  stdout (fst (report p))
  = stdout p
    ++ [ [NL] ++ str_mul (lit "=") 70;
         lit "📊 RAPPORT DE CONFORMITÉ AGENTS.md";
         str_mul (lit "=") 70;
         [NL] ++ lit "✅ VÉRIFICATIONS RÉUSSIES:" ]
    ++ map (fun msg => lit "  " ++ msg) (passed (self p))
    ++ match issues (self p) with
       | _ :: _ =>
           [ [NL] ++ lit "⚠️ PROBLÈMES DÉTECTÉS:" ]
           ++ map (fun i => lit "  🔴 " ++ fst (fst i) ++ lit ": "
                                ++ snd (fst i))
                  (issues_of_severity 2 (self p))
           ++ map (fun i => lit "  🟡 " ++ fst (fst i) ++ lit ": "
                                ++ snd (fst i))
                  (issues_of_severity 1 (self p))
           ++ [ [NL] ++ lit "📈 Résumé: "
                     ++ str_of_nat (length (passed (self p)))
                     ++ lit " vérifications réussies, "
                     ++ str_of_nat (length (issues_of_severity 1 (self p)))
                     ++ lit " avertissements, "
                     ++ str_of_nat (length (issues_of_severity 2 (self p)))
                     ++ lit " erreurs" ]
       | [] =>
           [ [NL] ++ lit "🎉 AUCUN PROBLÈME DÉTECTÉ!";
             lit "📈 Résumé: " ++ str_of_nat (length (passed (self p)))
                 ++ lit " vérifications réussies" ]
       end.
Proof.
  unfold report. cbv beta zeta. rewrite !print_then.
  unfold bind at 1. rewrite for_each_print. cbn [self stdout].
  destruct (issues (self p)) as [|i0 is0].
  - unfold bind at 1. rewrite print_then. unfold print, ret.
    cbn [fst stdout self].
    rewrite <- !app_assoc. reflexivity.
  - unfold bind at 1. rewrite print_then.
    unfold bind at 1. rewrite for_each_print. cbn [self stdout].
    unfold bind at 1. rewrite for_each_print. cbn [self stdout].
    unfold print, ret. cbn [fst stdout self].
    rewrite <- !app_assoc. reflexivity.
Qed.

(** X16. A run of the compliance checker that returns has printed, in
    its report, a line for each pass message and a line for each issue
    that it has recorded: a red one for an issue of severity 2, a
    yellow one for an issue of severity 1; no recorded issue is left
    out of the report. *)
Theorem run_reports_everything (w : world) (base_dir : Path) (code : Z) :
  snd (run_compliance w base_dir) = Ret code ->
  (forall msg,
      In msg (passed (self (fst (run_compliance w base_dir)))) ->
      In (lit "  " ++ msg) (stdout (fst (run_compliance w base_dir))))
  /\ (forall i,
         In i (issues (self (fst (run_compliance w base_dir)))) ->
         (severity i = 2%Z
          /\ In (lit "  🔴 " ++ fst (fst i) ++ lit ": " ++ snd (fst i))
                (stdout (fst (run_compliance w base_dir))))
         \/ (severity i = 1%Z
             /\ In (lit "  🟡 " ++ fst (fst i) ++ lit ": " ++ snd (fst i))
                   (stdout (fst (run_compliance w base_dir))))).
Proof.
  pose proof (loop_issues w base_dir) as Hsev.
  unfold run_compliance. rewrite compliance_main_eq. unfold bind.
  destruct (for_each (files_to_check base_dir) (main_turn w)
                     (mkProc __init__ [])) as [q [[]|e]];
    [|discriminate].
  cbn [fst self] in Hsev. intros _.
  rewrite report_lines.
  destruct (report_returns q) as [o Hr]. rewrite Hr. cbn [fst self].
  split.
  - intros msg Hm. apply in_or_app. right. apply in_or_app. right.
    apply in_or_app. left.
    now apply (in_map (fun msg => lit "  " ++ msg)).
  - intros i Hi. rewrite Forall_forall in Hsev.
    destruct (issues (self q)) as [|i0 is0] eqn:Ei; [destruct Hi|].
    rewrite <- Ei in Hi.
    destruct (Hsev i) as [H1|H2].
    { rewrite <- Ei. exact Hi. }
    + right. split; [exact H1|].
      do 4 (apply in_or_app; right).
      apply in_or_app. right. apply in_or_app. left.
      apply (in_map (fun i => lit "  🟡 " ++ fst (fst i) ++ lit ": "
                                  ++ snd (fst i))).
      unfold issues_of_severity. apply filter_In. split; [exact Hi|].
      now apply Z.eqb_eq.
    + left. split; [exact H2|].
      do 4 (apply in_or_app; right).
      apply in_or_app. left.
      apply (in_map (fun i => lit "  🔴 " ++ fst (fst i) ++ lit ": "
                                  ++ snd (fst i))).
      unfold issues_of_severity. apply filter_In. split; [exact Hi|].
      now apply Z.eqb_eq.
Qed.

End Interpreter.

(* ===================================================================== *)
(** * The theorems at concrete inputs                                     *)
(* ===================================================================== *)

(** In the world where all is in place the run exits with 0; in the
    world where the component of check 3 cannot be imported the run
    exits with 1, and the ten checks do not all pass. *)
Lemma check_integration_exit_code_witness :
  snd (run_integration sound_world repo) = Ret 0%Z
  /\ ~ ten_checks_pass import_error_world repo.
Proof.
  split.
  - apply (proj2 (proj1 (proj2 (proj2 (proj2 (proj2
             (check_integration_exit_code sound_world repo))))))).
    unfold world_integrated.
    split; [|split; [|split; [|split; [|split]]]].
    + intros m c n _. exists 0%N. reflexivity.
    + exists 0%N, 0%N. repeat split; reflexivity.
    + exists 0%N. split; reflexivity.
    + exists [], (lit " init_playlist_membership_manager PlaylistCellState").
      vm_compute. reflexivity.
    + exists (lit "child_playlists "), (lit " PlaylistCellState").
      vm_compute. reflexivity.
    + exists (lit "child_playlists init_playlist_membership_manager "), [].
      vm_compute. reflexivity.
  - apply (proj2 (proj2 (proj2 (proj2 (proj2
             (check_integration_exit_code import_error_world repo)))))
             1%Z).
    + vm_compute. reflexivity.
    + reflexivity.
Defined.

(** A [SyntaxError] of the first import ends the run of the verifier,
    an undecodable first file ends the run of the compliance checker,
    and a module of [MainWindow] that cannot be imported makes check 6
    fail with the text of the exception. *)
Lemma exceptions_caught_witness :
  snd (run_integration crash_world repo)
  = Raise (mkExn SyntaxError
             (lit "invalid syntax (playlist_membership_mixin.py, line 3)"))
  /\ snd (run_compliance ascii_only ascii_only not_python unreadable_world
                         repo)
     = Raise (mkExn UnicodeDecodeError
                (lit "'utf-8' codec can't decode byte 0xff in position 0: invalid start byte"))
  /\ _check_mainwindow_inheritance no_main_window_world (mkProc tt [])
     = (mkProc tt
          [lit "❌ Check 6: MainWindow inheritance check failed: No module named 'PySide6'"],
        Ret (0, 1)%Z).
Proof.
  destruct (exceptions_caught ascii_only ascii_only not_python crash_world)
    as (_ & _ & _ & _ & _ & _ & _ & _ & _ & Hrun & _).
  destruct (exceptions_caught ascii_only ascii_only not_python
                              unreadable_world)
    as (_ & _ & _ & _ & _ & _ & _ & _ & _ & _ & Hread).
  destruct (exceptions_caught ascii_only ascii_only not_python
                              no_main_window_world)
    as (_ & _ & _ & _ & _ & _ & _ & Hinh & _).
  split; [|split].
  - refine (proj1 (Hrun repo [] _ _ _ _ _ _ _ _ _)).
    + reflexivity.
    + intros m c n e' [].
    + vm_compute. reflexivity.
    + vm_compute. reflexivity.
  - refine (Hread repo [] _ _ _ _ _ _ _).
    + reflexivity.
    + intros g [].
    + vm_compute. reflexivity.
    + left. vm_compute. reflexivity.
  - rewrite (Hinh (mkProc tt [])
                  (mkExn ModuleNotFoundError
                         (lit "No module named 'PySide6'"))).
    + vm_compute. reflexivity.
    + left. vm_compute. reflexivity.
Defined.

Lemma bare_except_recorded_witness :
  snd (run_compliance ascii_only ascii_only not_python bare_world repo)
  = Ret 1%Z.
Proof.
  refine (proj2 (proj2 (bare_except_recorded ascii_only ascii_only not_python
                          bare_world membership_py (lit "except:") _))
                repo _ _ _ _).
  - vm_compute. reflexivity.
  - vm_compute. left. reflexivity.
  - vm_compute. reflexivity.
  - vm_compute. reflexivity.
  - intros g Hg. cbn [files_to_check In] in Hg.
    destruct Hg as [<-|[<-|[<-|[]]]].
    + right. exists (lit "except:"). split; [vm_compute; reflexivity|].
      intros e H. unfold not_python in H. injection H as <-.
      reflexivity.
    + left. vm_compute. reflexivity.
    + left. vm_compute. reflexivity.
Defined.

Lemma deprecated_optional_recorded_witness :
  exists name,
    In name (map snd deprecated)
    /\ _check_no_deprecated_typing ascii_only ascii_only membership_py
         ([] ++ lit "from typing import Optional" ++ [NL]) fresh
       = (with_issue fresh (path_str membership_py, deprecated_msg name, 2%Z),
          Ret tt).
Proof.
  apply (deprecated_optional_recorded ascii_only ascii_only membership_py
           [] [NL] fresh).
  vm_compute. reflexivity.
Defined.

(** The content [from typing import Optionally] contains
    [from typing import Optional], and the deprecated-typing check
    records no issue for it. *)
Lemma deprecated_optional_unrecorded :
  str_in (lit "from typing import Optional")
         (lit "from typing import Optionally") = true
  /\ _check_no_deprecated_typing ascii_only ascii_only membership_py
       (lit "from typing import Optionally") fresh
     = (with_passed fresh (lit "✅ No deprecated typing imports (playlist_membership.py)"),
        Ret tt).
Proof. split; vm_compute; reflexivity. Qed.


(** An import that raises a [SyntaxError] ends the run of the verifier
    with that exception and without a line for the check; a file that
    cannot be decoded ends the run of the compliance checker with the
    exception of the read. *)
Lemma exceptions_propagate :
  snd (run_integration crash_world repo)
  = Raise (mkExn SyntaxError
             (lit "invalid syntax (playlist_membership_mixin.py, line 3)"))
  /\ reported 1 (stdout (fst (run_integration crash_world repo))) = None
  /\ snd (run_compliance ascii_only ascii_only not_python unreadable_world
                         repo)
     = Raise (mkExn UnicodeDecodeError
                (lit "'utf-8' codec can't decode byte 0xff in position 0: invalid start byte"))
  /\ issues (self (fst (run_compliance ascii_only ascii_only not_python
                                       unreadable_world repo))) = [].
Proof. repeat split; vm_compute; reflexivity. Qed.



Lemma runs_deterministic_witness :
  run_compliance ascii_only ascii_only not_python sound_world repo
  = run_compliance ascii_only ascii_only not_python other_world repo
  /\ run_integration sound_world repo = run_integration other_world repo.
Proof.
  destruct (runs_deterministic ascii_only ascii_only not_python
              sound_world other_world repo) as [Hc Hi].
  split.
  - apply Hc. intros f Hf. cbn [files_to_check In] in Hf.
    destruct Hf as [<-|[<-|[<-|[]]]]; split; vm_compute; reflexivity.
  - apply Hi. intros n Hn. apply check_number_cases in Hn.
    cbn [In] in Hn.
    destruct Hn as [<-|[<-|[<-|[<-|[<-|[<-|[<-|[<-|[<-|[<-|[]]]]]]]]]]];
      vm_compute; repeat split; intros; reflexivity.
Defined.

(* ===================================================================== *)
(** * The further properties at concrete inputs                           *)
(* ===================================================================== *)

(** A use of the [typing] module without the import statement is not
    reported. *)
Lemma deprecated_typing_same_line_witness :
  _check_no_deprecated_typing ascii_only ascii_only membership_py
                              typing_module_use fresh
  = (with_passed fresh (lit "✅ No deprecated typing imports ("
                            ++ path_name membership_py ++ lit ")"),
     Ret tt).
Proof.
  apply (deprecated_typing_same_line ascii_only ascii_only not_python
                                     membership_py typing_module_use fresh).
  intros name pre mid post _ E _.
  assert (H : str_in (lit "from typing import") typing_module_use = true).
  { rewrite E. apply str_in_app. }
  vm_compute in H. discriminate H.
Defined.

(** An import after the first statement of the module is not looked
    at. *)
Lemma isort_reads_import_section_witness :
  _check_isort_order ascii_only membership_py
    (join [NL] ([lit "import os"] ++ lit "x = 1" :: [lit "import sys"]))
    fresh
  = _check_isort_order ascii_only membership_py
      (join [NL] ([lit "import os"] ++ [lit "x = 1"])) fresh.
Proof.
  apply (isort_reads_import_section ascii_only membership_py
           [lit "import os"] (lit "x = 1") [lit "import sys"] fresh).
  - vm_compute. repeat first [discriminate | constructor].
  - vm_compute. reflexivity.
  - vm_compute. reflexivity.
  - vm_compute. reflexivity.
Defined.

(** An indented import is no import line. *)
Lemma isort_silent_without_imports_witness :
  _check_isort_order ascii_only membership_py (lit "    import os") fresh
  = (fresh, Ret tt).
Proof.
  apply (isort_silent_without_imports ascii_only membership_py
           (lit "    import os") fresh).
  vm_compute. reflexivity.
Defined.

Lemma exit_code_by_error_conditions_witness :
  snd (run_compliance ascii_only ascii_only not_python bare_world repo)
  = Ret (if existsb (file_has_error ascii_only ascii_only not_python
                                    bare_world)
                    (files_to_check repo)
         then 1%Z else 0%Z).
Proof.
  apply (exit_code_by_error_conditions ascii_only ascii_only not_python
                                       bare_world repo).
  intros g Hg. cbn [files_to_check In] in Hg.
  destruct Hg as [<-|[<-|[<-|[]]]].
  - right. exists (lit "except:"). split; [vm_compute; reflexivity|].
    intros e H. unfold not_python in H. injection H as <-.
    reflexivity.
  - left. vm_compute. reflexivity.
  - left. vm_compute. reflexivity.
Defined.

Lemma missing_files_pass_witness :
  self (fst (run_compliance ascii_only ascii_only not_python absent_world
                            repo)) = __init__
  /\ snd (run_compliance ascii_only ascii_only not_python absent_world repo)
     = Ret 0%Z
  /\ forall f,
       In f (files_to_check repo) ->
       In (lit "⚠️ File not found: " ++ path_str f)
          (stdout (fst (run_compliance ascii_only ascii_only not_python
                                       absent_world repo))).
Proof.
  apply (missing_files_pass ascii_only ascii_only not_python absent_world
                            repo).
  intros f _. reflexivity.
Defined.

Lemma main_window_import_shared_witness :
  reported 6 (stdout (fst (run_integration no_main_window_world repo)))
  = Some false
  /\ reported 7 (stdout (fst (run_integration no_main_window_world repo)))
     = Some false.
Proof.
  refine ((fun H => conj (proj1 (proj2 (proj2 H)))
                         (proj1 (proj2 (proj2 (proj2 H)))))
            (main_window_import_shared no_main_window_world repo
               (mkExn ModuleNotFoundError (lit "No module named 'PySide6'"))
               1%Z _ _)).
  - vm_compute. reflexivity.
  - vm_compute. reflexivity.
Defined.

Lemma summary_counts_reported_witness :
  (count_reported true (stdout (fst (run_integration sound_world repo)))
   + count_reported false (stdout (fst (run_integration sound_world repo)))
   = 10)%Z.
Proof.
  refine (proj1 (proj2 (summary_counts_reported sound_world repo 0%Z _))).
  vm_compute. reflexivity.
Defined.

Lemma run_reports_everything_witness :
  (forall msg,
      In msg (passed (self (fst (run_compliance ascii_only ascii_only
                                                not_python bare_world
                                                repo)))) ->
      In (lit "  " ++ msg)
         (stdout (fst (run_compliance ascii_only ascii_only not_python
                                      bare_world repo))))
  /\ (forall i,
         In i (issues (self (fst (run_compliance ascii_only ascii_only
                                                 not_python bare_world
                                                 repo)))) ->
         (severity i = 2%Z
          /\ In (lit "  🔴 " ++ fst (fst i) ++ lit ": " ++ snd (fst i))
                (stdout (fst (run_compliance ascii_only ascii_only
                                             not_python bare_world repo))))
         \/ (severity i = 1%Z
             /\ In (lit "  🟡 " ++ fst (fst i) ++ lit ": " ++ snd (fst i))
                   (stdout (fst (run_compliance ascii_only ascii_only
                                                not_python bare_world
                                                repo))))).
Proof.
  apply (run_reports_everything ascii_only ascii_only not_python
                                bare_world repo 1%Z).
  vm_compute. reflexivity.
Defined.

(** More runs of the single checks. *)
Example single_check_runs :
  (* an import over several lines, the name on a later line *)
  issues (self (fst
    (_check_no_deprecated_typing ascii_only ascii_only membership_py
       (lit "from typing import (" ++ [NL] ++ lit "    Optional," ++ [NL]
            ++ lit ")") fresh))) = []
  /\ re_search ascii_only ascii_only bare_except_re
               (lit "except" ++ [NL] ++ lit ":") = true
  /\ doc_count ascii_only ascii_only (lit "'''doc'''") = 0
  /\ snd (run_integration no_main_window_world repo) = Ret 1%Z
  /\ outcome (integration_checks no_main_window_world repo) (mkProc tt [])
     = Ret (8, 2)%Z.
Proof. repeat split; vm_compute; reflexivity. Qed.

(* ===================================================================== *)
(** * Runs on the concrete worlds                                         *)
(* ===================================================================== *)

Example sound_run :
  snd (run_integration sound_world repo) = Ret 0%Z
  /\ outcome (integration_checks sound_world repo) (mkProc tt [])
     = Ret (10, 0)%Z.
Proof. split; vm_compute; reflexivity. Qed.

Example import_error_run :
  snd (run_integration import_error_world repo) = Ret 1%Z
  /\ outcome (integration_checks import_error_world repo) (mkProc tt [])
     = Ret (9, 1)%Z
  /\ reported 3 (stdout (fst (run_integration import_error_world repo)))
     = Some false
  /\ reported 4 (stdout (fst (run_integration import_error_world repo)))
     = Some true.
Proof. repeat split; vm_compute; reflexivity. Qed.

Example bare_run :
  counts (self (fst (run_compliance ascii_only ascii_only not_python
                                    bare_world repo)))
  = (2, 1, 2).
Proof. vm_compute. reflexivity. Qed.

Example matcher_runs :
  re_search ascii_only ascii_only class_re
            (lit "import os" ++ [NL] ++ lit "class  Foo9 (object):") = true
  /\ re_search ascii_only ascii_only class_re (lit " class Foo:") = false
  /\ re_search ascii_only ascii_only func_re (lit "    def run_all(self):")
     = true
  /\ re_search ascii_only ascii_only bare_except_re
               (lit "except" ++ [9%N; 32%N] ++ lit ":") = true
  /\ re_search ascii_only ascii_only bare_except_re (lit "except OSError:")
     = false
  /\ doc_count ascii_only ascii_only
               (DQ3 ++ lit "a" ++ DQ3 ++ lit "x" ++ DQ3 ++ lit "b" ++ DQ3) = 2
  /\ str_of_Z 0 = lit "0"
  /\ str_of_Z 10 = lit "10".
Proof. repeat split; vm_compute; reflexivity. Qed.
